(** * ZGraf web port: animation grid, entities, collision, projection, draw order

    A shallow embedding of the simulation core of the ZGraf web port
    (objects/vis.js and its subclasses, player.js, projection.js,
    tunnel.js, config.js) together with the properties stated about it.

    Numbers.  JavaScript numbers are modelled as exact rationals [Q]:
    every operation the embedded code performs ([+ - * /], comparisons,
    [Math.abs], [%]) is exact on [Q].  Equality of numbers is [Qeq]
    (written [==]).  The program computes in binary64, which rounds.
    Statements about comparisons, ranges, flags and structure carry over
    as they are.  A statement that equates computed numbers either asks
    its inputs to be integers small enough for binary64 to compute every
    intermediate value without rounding ([Exact.integer]), or is made
    on a second embedding of the function with the rounding explicit
    ([Rounded], and [Binary64] on the machine's own doubles).

    Objects.  A class instance becomes a record; the class hierarchy
    below [Vis] becomes a [Kind] tag and the overridden methods dispatch
    on it. *)

From Stdlib Require Import QArith Qabs Qround Qminmax Lqa Lia List Bool ZArith.
From Stdlib Require Import Sorting.Sorted Sorting.Permutation.
From Stdlib Require Import Floats.
Import ListNotations.
Open Scope Q_scope.

(* ================================================================== *)
(** ** Numbers *)

Module Num.

(** [a < b] and [a <= b] as the booleans JavaScript computes. *)
Definition ltb (a b : Q) : bool := if Qlt_le_dec a b then true else false.
Definition leb (a b : Q) : bool := if Qlt_le_dec b a then false else true.

(** [a !== 0] and truthiness of a number. *)
Definition nonzero (a : Q) : bool := negb (Qeq_bool a 0).

(** [Math.trunc]: rounding toward zero. *)
Definition trunc (q : Q) : Z :=
  if Qlt_le_dec q 0 then Qceiling q else Qfloor q.

(** The remainder operator [a % b]: the result takes the sign of the
    dividend, [a - b * trunc (a / b)]. *)
Definition rem (a b : Q) : Q := a - b * inject_Z (trunc (a / b)).

End Num.

Notation "a <? b" := (Num.ltb a b) (at level 70, no associativity) : Q_scope.
Notation "a <=? b" := (Num.leb a b) (at level 70, no associativity) : Q_scope.
Notation "a >? b" := (Num.ltb b a) (at level 70, no associativity) : Q_scope.
Notation "a >=? b" := (Num.leb b a) (at level 70, no associativity) : Q_scope.

(* ================================================================== *)
(** ** config.js *)

Module Config.

Record Stereo := mkStereo {
  eyeToScreen : Q;
  eyeOffset : Q;
  halfOffset : Q;
  enabled : bool;
  (* "Set to 0 or null to disable": both are falsy, 0 stands for either *)
  screenPlaneZ : Q
}.

Record Tunnel := mkTunnel {
  left : Q;
  right : Q;
  top : Q;
  bottom : Q;
  near : Q;
  far : Q;
  frameSpacing : Q;
  length : Q
}.

Record Player := mkPlayer {
  accelStep : Q;
  maxSpeed : Q;
  slowFactor : Q;
  shotSpeed : Q;
  startEnergy : Q
}.

Record Shades := mkShades {
  player : Q;
  cross : Q;
  saucer : Q;
  aphid : Q;
  blocker : Q;
  thing : Q;
  shot : Q
}.

Record t := mk {
  WIDTH : Q;
  HEIGHT : Q;
  STEREO : Stereo;
  SPEED_FACTOR : Q;
  TUNNEL : Tunnel;
  PLAYER : Player;
  SHADES : Shades
}.

End Config.

(** The literal of config.js. [WIDTH] and [HEIGHT] are reassigned on
    resize, which is why the code below takes the configuration as an
    argument instead of the constant. *)
Definition CONFIG : Config.t :=
  Config.mk 640 480
    (Config.mkStereo 50 140 70 true 5000)
    0.5
    (Config.mkTunnel (-32000) 32000 (-32000) 32000 30 65000 2000 65000)
    (Config.mkPlayer 3 500 0.95 500 100)
    (Config.mkShades 1 0.8 0.9 0.6 0.3 1 1).

(* ================================================================== *)
(** ** The explosion / formation grid (the [expl] object of vis.js) *)

Module Expl.

Record t := mk {
  xLine : list Q;
  yLine : list Q;
  xOffset : list Q;
  yOffset : list Q;
  distIncr : Q;
  xHitLine : nat;
  yHitLine : nat;
  step : Q;
  lastStep : Q
}.

(** [a[i] = f(a[i])] on a five-lane offset array.  Every index the code
    can reach from a hit line in 0..4 is in range; an index past the end
    is left alone here (such a write is not reachable from [initExpl] on
    positive extents nor from [initForm]). *)
Fixpoint lane_update (f : Q -> Q) (i : nat) (a : list Q) : list Q :=
  match a, i with
  | [], _ => []
  | v :: a', O => f v :: a'
  | v :: a', S i' => v :: lane_update f i' a'
  end.

(** [for (let i = h; i <= 4; i++) { a[i] += incr; incr += incr; }],
    with [n] the number of iterations left, [5 - h] at entry. *)
Fixpoint loop_up (n i : nat) (incr : Q) (a : list Q) : list Q :=
  match n with
  | O => a
  | S n' => loop_up n' (S i) (incr + incr) (lane_update (fun v => v + incr) i a)
  end.

(** [for (let i = h - 1; i >= 0; i--) { a[i] -= incr; incr += incr; }],
    with [k = i + 1], [h] at entry. *)
Fixpoint loop_down (k : nat) (incr : Q) (a : list Q) : list Q :=
  match k with
  | O => a
  | S i => loop_down i (incr + incr) (lane_update (fun v => v - incr) i a)
  end.

(** Both loops of one axis of [incrExpl]. *)
Definition spread (hitLine : nat) (incr : Q) (a : list Q) : list Q :=
  loop_down hitLine incr (loop_up (5 - hitLine) hitLine incr a).

(** The body of [incrExpl] once [this.expl] is known to be set. *)
Definition advance (e : t) : t :=
  mk (xLine e) (yLine e)
     (spread (xHitLine e) (distIncr e) (xOffset e))
     (spread (yHitLine e) (distIncr e) (yOffset e))
     (distIncr e) (xHitLine e) (yHitLine e)
     (step e + 1) (lastStep e).

(** [return e.step >= e.lastStep] *)
Definition finished (e : t) : bool := step e >=? lastStep e.

(** The search loop of [initExpl]:
    [while (hit > look + quarter && i <= 4) { look += quarter; i++; }].
    The guard [i <= 4] bounds it by five rounds from [i = 0]. *)
Fixpoint findLine (fuel : nat) (hit quarter look : Q) (i : nat) : nat * Q :=
  match fuel with
  | O => (i, look)
  | S fuel' =>
      if (hit >? look + quarter) && (i <=? 4)%nat
      then findLine fuel' hit quarter (look + quarter) (S i)
      else (i, look)
  end.

(** One axis of the hit-cell search: the hit line and the width of the
    first cell. *)
Definition hitCell (hit lo hi quarter : Q) : nat * Q :=
  if hit >=? hi then (4%nat, quarter)
  else if hit <=? lo then (0%nat, quarter)
  else let '(i, look) := findLine 5 hit quarter lo 0 in
       (S i, hit - look).

(** The six grid lines of one axis: [line[0]], [line[1]] and four
    quarter steps. *)
Definition gridLines (l0 l1 quarter : Q) : list Q :=
  [l0; l1; l1 + quarter; l1 + quarter + quarter;
   l1 + quarter + quarter + quarter;
   l1 + quarter + quarter + quarter + quarter].

End Expl.

(* ================================================================== *)
(** ** Shapes: the rectangle tables of the entity classes *)

Module Rect.

Record t := mk { left : Q; top : Q; right : Q; bottom : Q }.

(** [{left: left * s, top: top * s, right: right * s, bottom: bottom * s}] *)
Definition scale (s : Q) (r : t) : t :=
  mk (left r * s) (top r * s) (right r * s) (bottom r * s).

End Rect.

(** The shape tables list [left, top, right, bottom] followed by shade
    (and a filled flag); [getCollisionRects] destructures the first four
    entries only, which is what is kept here. *)
Module Shape.

Definition CROSS_SHAPE : list Rect.t :=
  [Rect.mk (-32) (-16) 32 (-3); Rect.mk (-32) 3 32 16;
   Rect.mk (-16) (-32) (-3) 32; Rect.mk 3 (-32) 16 32].

Definition SAUCER_SHAPE : list Rect.t :=
  [Rect.mk 16 (-4) 20 4; Rect.mk 12 (-4) 16 4; Rect.mk 8 (-4) 12 4;
   Rect.mk 4 (-4) 8 4; Rect.mk 0 (-4) 4 4; Rect.mk (-4) (-4) 0 4;
   Rect.mk (-8) (-4) (-4) 4; Rect.mk (-12) (-4) (-8) 4;
   Rect.mk (-16) (-4) (-12) 4; Rect.mk (-20) (-4) (-16) 4;
   Rect.mk (-20) (-2) 20 2].

Definition APHID_SHAPE : list Rect.t :=
  [Rect.mk (-2) (-25) 2 25; Rect.mk (-25) (-2) 25 2;
   Rect.mk (-12) (-12) 12 12].

Definition THING_SHAPE : list Rect.t :=
  [Rect.mk (-10) (-10) 10 10; Rect.mk (-10) (-10) 10 10;
   Rect.mk (-8) (-8) 8 8; Rect.mk (-6) (-6) 6 6; Rect.mk (-5) (-5) 5 5;
   Rect.mk (-3) (-3) 3 3; Rect.mk (-1) (-3) 1 3; Rect.mk (-3) (-1) 3 1].

Definition GRABBER_SHAPE : list Rect.t :=
  [Rect.mk (-7) (-32) 7 (-30); Rect.mk (-13) (-30) 13 (-20);
   Rect.mk (-30) (-27) 29 (-23); Rect.mk (-30) (-23) (-18) 32;
   Rect.mk (-18) 25 (-14) 28; Rect.mk (-18) 28 (-11) 32;
   Rect.mk 12 25 16 28; Rect.mk 9 28 16 32; Rect.mk 16 (-23) 29 32].

End Shape.

(* ================================================================== *)
(** ** objects/vis.js: the base class and its subclasses *)

(** [constructor.name] of an instance. *)
Inductive Kind : Type :=
| KVis | Cross | Saucer | Aphid | Blocker | Thing | Grabber
| TestSquare | PShot | SShot | Player.

Module Vis.

(** The fields of [Vis] followed by the fields the subclasses add
    ([shapeScale]; [lifeTime], [maxLifeTime] of SShot; [distanceTraveled]
    of PShot; the key state of Player).  A field a class never assigns
    reads as [undefined] in the source: the accumulators are only read
    through [|| 0] and start at 0 here; [thick] is [None] where the
    constructor stores [undefined] in it. *)
Record t := mk {
  kind : Kind;
  x : Q;
  y : Q;
  z : Q;
  vx : Q;
  vy : Q;
  vz : Q;
  extentX : Q;
  extentY : Q;
  thick : option Q;
  isProcessed : bool;
  pleaseRemove : bool;
  checkCollide : bool;
  shade : Q;
  isExploding : bool;
  isForming : bool;
  expl : option Expl.t;
  formAccum : Q;
  explAccum : Q;
  shapeScale : Q;
  lifeTime : Q;
  maxLifeTime : Q;
  distanceTraveled : Q;
  moveForward : bool;
  moveBackward : bool
}.

(** Field assignment [this.f = a], one setter per field the methods write. *)
Definition set_x (a : Q) (v : t) : t :=
  mk (kind v) a (y v) (z v) (vx v) (vy v) (vz v) (extentX v) (extentY v)
    (thick v) (isProcessed v) (pleaseRemove v) (checkCollide v) (shade v)
    (isExploding v) (isForming v) (expl v) (formAccum v) (explAccum v)
    (shapeScale v) (lifeTime v) (maxLifeTime v) (distanceTraveled v)
    (moveForward v) (moveBackward v).
Definition set_y (a : Q) (v : t) : t :=
  mk (kind v) (x v) a (z v) (vx v) (vy v) (vz v) (extentX v) (extentY v)
    (thick v) (isProcessed v) (pleaseRemove v) (checkCollide v) (shade v)
    (isExploding v) (isForming v) (expl v) (formAccum v) (explAccum v)
    (shapeScale v) (lifeTime v) (maxLifeTime v) (distanceTraveled v)
    (moveForward v) (moveBackward v).
Definition set_z (a : Q) (v : t) : t :=
  mk (kind v) (x v) (y v) a (vx v) (vy v) (vz v) (extentX v) (extentY v)
    (thick v) (isProcessed v) (pleaseRemove v) (checkCollide v) (shade v)
    (isExploding v) (isForming v) (expl v) (formAccum v) (explAccum v)
    (shapeScale v) (lifeTime v) (maxLifeTime v) (distanceTraveled v)
    (moveForward v) (moveBackward v).
Definition set_vx (a : Q) (v : t) : t :=
  mk (kind v) (x v) (y v) (z v) a (vy v) (vz v) (extentX v) (extentY v)
    (thick v) (isProcessed v) (pleaseRemove v) (checkCollide v) (shade v)
    (isExploding v) (isForming v) (expl v) (formAccum v) (explAccum v)
    (shapeScale v) (lifeTime v) (maxLifeTime v) (distanceTraveled v)
    (moveForward v) (moveBackward v).
Definition set_vy (a : Q) (v : t) : t :=
  mk (kind v) (x v) (y v) (z v) (vx v) a (vz v) (extentX v) (extentY v)
    (thick v) (isProcessed v) (pleaseRemove v) (checkCollide v) (shade v)
    (isExploding v) (isForming v) (expl v) (formAccum v) (explAccum v)
    (shapeScale v) (lifeTime v) (maxLifeTime v) (distanceTraveled v)
    (moveForward v) (moveBackward v).
Definition set_vz (a : Q) (v : t) : t :=
  mk (kind v) (x v) (y v) (z v) (vx v) (vy v) a (extentX v) (extentY v)
    (thick v) (isProcessed v) (pleaseRemove v) (checkCollide v) (shade v)
    (isExploding v) (isForming v) (expl v) (formAccum v) (explAccum v)
    (shapeScale v) (lifeTime v) (maxLifeTime v) (distanceTraveled v)
    (moveForward v) (moveBackward v).
Definition set_pleaseRemove (a : bool) (v : t) : t :=
  mk (kind v) (x v) (y v) (z v) (vx v) (vy v) (vz v) (extentX v) (extentY v)
    (thick v) (isProcessed v) a (checkCollide v) (shade v) (isExploding v)
    (isForming v) (expl v) (formAccum v) (explAccum v) (shapeScale v)
    (lifeTime v) (maxLifeTime v) (distanceTraveled v) (moveForward v)
    (moveBackward v).
Definition set_checkCollide (a : bool) (v : t) : t :=
  mk (kind v) (x v) (y v) (z v) (vx v) (vy v) (vz v) (extentX v) (extentY v)
    (thick v) (isProcessed v) (pleaseRemove v) a (shade v) (isExploding v)
    (isForming v) (expl v) (formAccum v) (explAccum v) (shapeScale v)
    (lifeTime v) (maxLifeTime v) (distanceTraveled v) (moveForward v)
    (moveBackward v).
Definition set_isExploding (a : bool) (v : t) : t :=
  mk (kind v) (x v) (y v) (z v) (vx v) (vy v) (vz v) (extentX v) (extentY v)
    (thick v) (isProcessed v) (pleaseRemove v) (checkCollide v) (shade v) a
    (isForming v) (expl v) (formAccum v) (explAccum v) (shapeScale v)
    (lifeTime v) (maxLifeTime v) (distanceTraveled v) (moveForward v)
    (moveBackward v).
Definition set_isForming (a : bool) (v : t) : t :=
  mk (kind v) (x v) (y v) (z v) (vx v) (vy v) (vz v) (extentX v) (extentY v)
    (thick v) (isProcessed v) (pleaseRemove v) (checkCollide v) (shade v)
    (isExploding v) a (expl v) (formAccum v) (explAccum v) (shapeScale v)
    (lifeTime v) (maxLifeTime v) (distanceTraveled v) (moveForward v)
    (moveBackward v).
Definition set_expl (a : option Expl.t) (v : t) : t :=
  mk (kind v) (x v) (y v) (z v) (vx v) (vy v) (vz v) (extentX v) (extentY v)
    (thick v) (isProcessed v) (pleaseRemove v) (checkCollide v) (shade v)
    (isExploding v) (isForming v) a (formAccum v) (explAccum v)
    (shapeScale v) (lifeTime v) (maxLifeTime v) (distanceTraveled v)
    (moveForward v) (moveBackward v).
Definition set_formAccum (a : Q) (v : t) : t :=
  mk (kind v) (x v) (y v) (z v) (vx v) (vy v) (vz v) (extentX v) (extentY v)
    (thick v) (isProcessed v) (pleaseRemove v) (checkCollide v) (shade v)
    (isExploding v) (isForming v) (expl v) a (explAccum v) (shapeScale v)
    (lifeTime v) (maxLifeTime v) (distanceTraveled v) (moveForward v)
    (moveBackward v).
Definition set_explAccum (a : Q) (v : t) : t :=
  mk (kind v) (x v) (y v) (z v) (vx v) (vy v) (vz v) (extentX v) (extentY v)
    (thick v) (isProcessed v) (pleaseRemove v) (checkCollide v) (shade v)
    (isExploding v) (isForming v) (expl v) (formAccum v) a (shapeScale v)
    (lifeTime v) (maxLifeTime v) (distanceTraveled v) (moveForward v)
    (moveBackward v).
Definition set_lifeTime (a : Q) (v : t) : t :=
  mk (kind v) (x v) (y v) (z v) (vx v) (vy v) (vz v) (extentX v) (extentY v)
    (thick v) (isProcessed v) (pleaseRemove v) (checkCollide v) (shade v)
    (isExploding v) (isForming v) (expl v) (formAccum v) (explAccum v)
    (shapeScale v) a (maxLifeTime v) (distanceTraveled v) (moveForward v)
    (moveBackward v).
Definition set_distanceTraveled (a : Q) (v : t) : t :=
  mk (kind v) (x v) (y v) (z v) (vx v) (vy v) (vz v) (extentX v) (extentY v)
    (thick v) (isProcessed v) (pleaseRemove v) (checkCollide v) (shade v)
    (isExploding v) (isForming v) (expl v) (formAccum v) (explAccum v)
    (shapeScale v) (lifeTime v) (maxLifeTime v) a (moveForward v)
    (moveBackward v).

(** [new Vis(x, y, z)] *)
Definition new (x0 y0 z0 : Q) : t :=
  mk KVis x0 y0 z0 0 0 0 100 100 (Some 30) false false true 0.8
     false false None 0 0 0 0 0 0 false false.

(** *** The animation grid *)

(** [initExpl(xHit, yHit, distIncr, lastStep)] of [Vis]. *)
Definition Vis_initExpl (xHit yHit distIncr lastStep : Q) (v : t) : t :=
  let left := - extentX v in
  let right := extentX v in
  let top := - extentY v in
  let bottom := extentY v in
  let xQuarter := (right - left) / 4 in
  let yQuarter := (bottom - top) / 4 in
  let '(xHitLine, xOffset) := Expl.hitCell xHit left right xQuarter in
  let '(yHitLine, yOffset) := Expl.hitCell yHit top bottom yQuarter in
  set_expl
    (Some (Expl.mk (Expl.gridLines left (left + xOffset) xQuarter)
                   (Expl.gridLines top (top + yOffset) yQuarter)
                   [0; 0; 0; 0; 0] [0; 0; 0; 0; 0]
                   distIncr xHitLine yHitLine 0 lastStep))
    v.

(** [this.initExpl(...)] as dispatched: TestSquare overrides it with
    [super.initExpl(xHit, yHit, 50, 50)]. *)
Definition initExpl (xHit yHit distIncr lastStep : Q) (v : t) : t :=
  match kind v with
  | TestSquare => Vis_initExpl xHit yHit 50 50 v
  | _ => Vis_initExpl xHit yHit distIncr lastStep v
  end.

(** [initForm(distIncr, lastStep)] *)
Definition initForm (distIncr lastStep : Q) (v : t) : t :=
  let left := - extentX v in
  let right := extentX v in
  let top := - extentY v in
  let bottom := extentY v in
  let xQuarter := (right - left) / 4 in
  let yQuarter := (bottom - top) / 4 in
  let baseOffset := lastStep * distIncr in
  let offsets :=
    [-2 * baseOffset; -2 * baseOffset; - baseOffset; baseOffset;
     2 * baseOffset] in
  set_expl
    (Some (Expl.mk (Expl.gridLines left left xQuarter)
                   (Expl.gridLines top top yQuarter)
                   offsets offsets
                   (- distIncr) 3 3 0 lastStep))
    v.

(** [incrExpl()]: the returned flag and the entity after the call. *)
Definition incrExpl (v : t) : bool * t :=
  match expl v with
  | None => (true, v)
  | Some e =>
      let e' := Expl.advance e in
      (Expl.finished e', set_expl (Some e') v)
  end.

(** [explode(xHit, yHit)] *)
Definition explode (xHit yHit : Q) (v : t) : t :=
  if negb (isExploding v) then
    let v1 := set_explAccum 0 (set_checkCollide false (set_isExploding true v)) in
    let relX := xHit - x v1 in
    let relY := yHit - y v1 in
    initExpl relX relY 125 25 v1
  else v.

(** *** Depth on the periodic axis *)

(** [getZFromPlayer(playerZ)] *)
Definition getZFromPlayer (cfg : Config.t) (playerZ : Q) (v : t) : Q :=
  let len := Config.length (Config.TUNNEL cfg) in
  let relZ := z v - playerZ in
  if relZ >? len / 2 then relZ - len
  else if relZ <? - len / 2 then relZ + len
  else relZ.

(** [wrapZ()] *)
Definition wrapZ (cfg : Config.t) (v : t) : t :=
  let len := Config.length (Config.TUNNEL cfg) in
  set_z (Num.rem (Num.rem (z v) len + len) len) v.

(** *** Collision *)

(** [getCollisionRects()], with the overrides of Cross, Saucer, Aphid,
    Thing and Grabber. *)
Definition getCollisionRects (v : t) : list Rect.t :=
  let s := shapeScale v in
  match kind v with
  | Cross => map (Rect.scale s) Shape.CROSS_SHAPE
  | Saucer => map (Rect.scale s) Shape.SAUCER_SHAPE
  | Aphid => map (Rect.scale s) Shape.APHID_SHAPE
  | Thing => map (Rect.scale s) Shape.THING_SHAPE
  | Grabber => map (Rect.scale s) Shape.GRABBER_SHAPE
  | _ => [Rect.mk (- extentX v) (- extentY v) (extentX v) (extentY v)]
  end.

(** The overlap test in the inner loop of [deepCollide], on rectangles
    already moved to world coordinates. *)
Definition rectsOverlap (r1Left r1Right r1Top r1Bottom
                         r2Left r2Right r2Top r2Bottom : Q) : bool :=
  negb (r1Left >? r2Right) && negb (r1Right <? r2Left) &&
  negb (r1Bottom <? r2Top) && negb (r1Top >? r2Bottom).

(** [deepCollide(other)]: the two nested loops return at the first
    overlapping pair. *)
Definition deepCollide (this other : t) : bool :=
  existsb (fun r1 =>
    let r1Left := Rect.left r1 + x this in
    let r1Right := Rect.right r1 + x this in
    let r1Top := Rect.top r1 + y this in
    let r1Bottom := Rect.bottom r1 + y this in
    existsb (fun r2 =>
      let r2Left := Rect.left r2 + x other in
      let r2Right := Rect.right r2 + x other in
      let r2Top := Rect.top r2 + y other in
      let r2Bottom := Rect.bottom r2 + y other in
      rectsOverlap r1Left r1Right r1Top r1Bottom
                   r2Left r2Right r2Top r2Bottom)
      (getCollisionRects other))
    (getCollisionRects this).

(** The two X-axis tests of phase 1: [true] when neither rejects. *)
Definition broadX (this other : t) : bool :=
  let thisExtentX := extentX this + Qabs (vx this) in
  let otherExtentX := extentX other + Qabs (vx other) in
  negb (x this + thisExtentX <? x other - otherExtentX) &&
  negb (x this - thisExtentX >? x other + otherExtentX).

(** The two Y-axis tests of phase 1. *)
Definition broadY (this other : t) : bool :=
  let thisExtentY := extentY this + Qabs (vy this) in
  let otherExtentY := extentY other + Qabs (vy other) in
  negb (y this + thisExtentY <? y other - otherExtentY) &&
  negb (y this - thisExtentY >? y other + otherExtentY).

(** [zDiff] after the two wrap-around corrections. *)
Definition zDiff (cfg : Config.t) (this other : t) : Q :=
  let len := Config.length (Config.TUNNEL cfg) in
  let d := z other - z this in
  let d1 := if d >? len / 2 then d - len else d in
  if d1 <? - len / 2 then d1 + len else d1.

(** [thisThick + otherThick]; an [undefined] thickness makes the sum
    NaN, rendered as [None]. *)
Definition combinedThick (this other : t) : option Q :=
  match thick this, thick other with
  | Some th, Some ot => Some ((th + Qabs (vz this)) + (ot + Qabs (vz other)))
  | _, _ => None
  end.

(** The Z-axis test of phase 1; a comparison with NaN is false, so it
    never rejects then. *)
Definition broadZ (cfg : Config.t) (this other : t) : bool :=
  match combinedThick this other with
  | Some c => negb (Qabs (zDiff cfg this other) >? c)
  | None => true
  end.

(** [collidesWith(other)] *)
Definition collidesWith (cfg : Config.t) (this other : t) : bool :=
  if negb (checkCollide this) || negb (checkCollide other) then false
  else if isExploding this || isExploding other then false
  else if isForming this || isForming other then false
  else if negb (broadX this other) then false
  else if negb (broadY this other) then false
  else if negb (broadZ cfg this other) then false
  else deepCollide this other.

(** *** Constructors of the subclasses *)

(** [new Cross(x, y, z)] *)
Definition Cross_new (cfg : Config.t) (x0 y0 z0 : Q) : t :=
  mk Cross x0 y0 z0 0 0 0 (32 * 150) (32 * 150) (Some 30) false false true
     (Config.cross (Config.SHADES cfg)) false false None 0 0 150 0 0 0
     false false.

(** [new Saucer(x, y, z)] *)
Definition Saucer_new (cfg : Config.t) (x0 y0 z0 : Q) : t :=
  mk Saucer x0 y0 z0 0 0 0 (20 * 100) (4 * 100) (Some 30) false false true
     (Config.saucer (Config.SHADES cfg)) false false None 0 0 100 0 0 0
     false false.

(** [new Aphid(x, y, z)]; [rnd] is the value [Math.random()] returns for
    the Z velocity. *)
Definition Aphid_new (cfg : Config.t) (rnd : Q) (x0 y0 z0 : Q) : t :=
  mk Aphid x0 y0 z0 0 0 ((rnd - 0.5) * 200 * Config.SPEED_FACTOR cfg)
     (25 * 14) (25 * 14) (Some 20) false false true
     (Config.aphid (Config.SHADES cfg)) false false None 0 0 14 0 0 0
     false false.

(** [new Blocker(x, y, z, isHorz, width)] with the bar width given.
    [CONFIG.ENEMIES.blocker] has no [thick] entry, so [this.thick] is
    assigned [undefined]. *)
Definition Blocker_new (cfg : Config.t) (x0 y0 z0 : Q) (isHorz : bool)
                       (barWidth : Q) : t :=
  let tn := Config.TUNNEL cfg in
  mk Blocker x0 y0 z0 0 0 0
     (if isHorz then (Config.right tn - Config.left tn) / 2 else barWidth)
     (if isHorz then barWidth else (Config.bottom tn - Config.top tn) / 2)
     None false false true
     (Config.blocker (Config.SHADES cfg)) false false None 0 0 0 0 0 0
     false false.

(** [new Thing(x, y, z)] *)
Definition Thing_new (cfg : Config.t) (x0 y0 z0 : Q) : t :=
  mk Thing x0 y0 z0 0 0 0 (10 * 200) (10 * 200) (Some 25) false false true
     (Config.thing (Config.SHADES cfg)) false false None 0 0 200 0 0 0
     false false.

(** [new Grabber(x, y, z)] *)
Definition Grabber_new (x0 y0 z0 : Q) : t :=
  mk Grabber x0 y0 z0 0 0 0 (30 * 150) (32 * 150) (Some 30) false false true
     0.6 false false None 0 0 150 0 0 0 false false.

(** [new TestSquare(x, y, z)], the [instanceId]-th one made. *)
Definition TestSquare_new (instanceId : Z) (x0 y0 z0 : Q) : t :=
  mk TestSquare x0 y0 z0 0 0 0 (30 * 150) (30 * 150) (Some 50)
     false false true
     (0.3 + Num.rem (inject_Z instanceId) 8 * 0.1)
     false false None 0 0 150 0 0 0 false false.

(** [new PShot(x, y, z)] *)
Definition PShot_new (cfg : Config.t) (x0 y0 z0 : Q) : t :=
  mk PShot x0 y0 z0 0 0 0 (12 * 14) (12 * 14) (Some 40) false false true
     (Config.shot (Config.SHADES cfg)) false false None 0 0 14 0 0 0
     false false.

(** [new SShot(x, y, z)] *)
Definition SShot_new (x0 y0 z0 : Q) : t :=
  mk SShot x0 y0 z0 0 0 0 (8 * 50) (8 * 50) (Some 30) false false true
     0.9 false false None 0 0 50 0 5000 0 false false.

(** The [Vis] part of [new Player(tunnel)]. *)
Definition Player_new (cfg : Config.t) : t :=
  mk Player 0 0 0 0 0 0 500 500 (Some 100) false false true
     (Config.player (Config.SHADES cfg)) false false None 0 0 0 0 0 0
     false false.

(** *** The per-frame update *)

(** [checkBounds()] *)
Definition checkBounds (cfg : Config.t) (v : t) : t :=
  let tn := Config.TUNNEL cfg in
  let v1 :=
    if x v + extentX v >? Config.right tn then
      set_vx (- vx v) (set_x (Config.right tn - extentX v) v)
    else if x v - extentX v <? Config.left tn then
      set_vx (- vx v) (set_x (Config.left tn + extentX v) v)
    else v in
  if y v1 + extentY v1 >? Config.bottom tn then
    set_vy (- vy v1) (set_y (Config.bottom tn - extentY v1) v1)
  else if y v1 - extentY v1 <? Config.top tn then
    set_vy (- vy v1) (set_y (Config.top tn + extentY v1) v1)
  else v1.

(** The number of whole steps an accumulator holds: the [while
    (accum >= 1)] loops below subtract one per round, so this many
    rounds exhaust them. *)
Definition rounds (accum : Q) : nat := Z.to_nat (Qfloor accum).

(** [while (this.formAccum >= 1) { this.formAccum -= 1;
      if (this.incrExpl()) { this.isForming = false; this.expl = null;
                             break; } }] *)
Fixpoint formLoop (fuel : nat) (v : t) : t :=
  match fuel with
  | O => v
  | S fuel' =>
      if formAccum v >=? 1 then
        let '(fin, v1) := incrExpl (set_formAccum (formAccum v - 1) v) in
        if fin then set_expl None (set_isForming false v1)
        else formLoop fuel' v1
      else v
  end.

(** [while (this.explAccum >= 1) { this.explAccum -= 1;
      if (this.incrExpl()) { this.pleaseRemove = true; break; } }] *)
Fixpoint explLoop (fuel : nat) (v : t) : t :=
  match fuel with
  | O => v
  | S fuel' =>
      if explAccum v >=? 1 then
        let '(fin, v1) := incrExpl (set_explAccum (explAccum v - 1) v) in
        if fin then set_pleaseRemove true v1
        else explLoop fuel' v1
      else v
  end.

(** [this.x += this.vx * dtScale; this.y += this.vy * dtScale;] *)
Definition moveXY (dtScale : Q) (v : t) : t :=
  let v1 := set_x (x v + vx v * dtScale) v in
  set_y (y v1 + vy v1 * dtScale) v1.

(** [this.z += this.vz * dtScale;] *)
Definition moveZ (dtScale : Q) (v : t) : t :=
  set_z (z v + vz v * dtScale) v.

(** [update(dt)] of [Vis] *)
Definition Vis_update (cfg : Config.t) (dt : Q) (v : t) : t :=
  let dtScale := dt / 16.67 in
  let v1 :=
    if isForming v then
      let v' := set_formAccum (formAccum v + dtScale * 1.8 * 0.5) v in
      formLoop (rounds (formAccum v')) v'
    else v in
  if isExploding v1 then
    let v' := set_explAccum (explAccum v1 + dtScale * 1.8 * 0.5) v1 in
    explLoop (rounds (explAccum v')) v'
  else if Num.nonzero (vx v1) || Num.nonzero (vy v1) then
    checkBounds cfg (moveXY dtScale v1)
  else v1.

(** What the update methods take from outside the entity: the value of
    [Math.pow], and the two steering routines whose inputs are
    [Math.random], [Math.cos]/[Math.sin] and the other entities of the
    tunnel.  Both routines assign velocity components of the entity (and
    bookkeeping fields that are not modelled, or spawn a shot into the
    tunnel); they are given as the velocities they leave behind. *)
Record Host := mkHost {
  Math_pow : Q -> Q -> Q;
  (* the shooting and drift block of Saucer.update: new vx, vy *)
  saucerSteer : Q -> t -> Q * Q;
  (* Aphid.processFlocking: new vx, vy, vz *)
  processFlocking : Q -> t -> Q * Q * Q
}.

(** [update(dt)] of Cross and of Grabber *)
Definition Cross_update (cfg : Config.t) (dt : Q) (v : t) : t :=
  let v1 := Vis_update cfg dt v in
  if isExploding v1 || isForming v1 then v1
  else
    let dtScale := dt / 16.67 in
    wrapZ cfg (checkBounds cfg (moveZ dtScale (moveXY dtScale v1))).

(** [update(dt)] of Saucer *)
Definition Saucer_update (h : Host) (cfg : Config.t) (dt : Q) (v : t) : t :=
  let v1 := Vis_update cfg dt v in
  if isExploding v1 || isForming v1 then v1
  else
    let dtScale := dt / 16.67 in
    let v2 := checkBounds cfg (moveZ dtScale (moveXY dtScale v1)) in
    let '(vx', vy') := saucerSteer h dtScale v2 in
    wrapZ cfg (set_vy vy' (set_vx vx' v2)).

(** [update(dt)] of Aphid *)
Definition Aphid_update (h : Host) (cfg : Config.t) (dt : Q) (v : t) : t :=
  let v1 := Vis_update cfg dt v in
  if isExploding v1 || isForming v1 then v1
  else
    let dtScale := dt / 16.67 in
    let '(vx', vy', vz') := processFlocking h dtScale v1 in
    let v2 := set_vz vz' (set_vy vy' (set_vx vx' v1)) in
    wrapZ cfg (checkBounds cfg (moveZ dtScale (moveXY dtScale v2))).

(** [update(dt)] of Blocker *)
Definition Blocker_update (cfg : Config.t) (dt : Q) (v : t) : t :=
  Vis_update cfg dt v.

(** [update(dt)] of Thing ([bobPhase] is not modelled) *)
Definition Thing_update (cfg : Config.t) (dt : Q) (v : t) : t :=
  wrapZ cfg (Vis_update cfg dt v).

(** [update(dt)] of TestSquare *)
Definition TestSquare_update (cfg : Config.t) (dt : Q) (v : t) : t :=
  let v1 := Vis_update cfg dt v in
  let dtScale := dt / 16.67 in
  wrapZ cfg (checkBounds cfg (moveZ dtScale (moveXY dtScale v1))).

(** [update(dt)] of PShot *)
Definition PShot_update (cfg : Config.t) (dt : Q) (v : t) : t :=
  let dtScale := dt / 16.67 in
  let v1 := wrapZ cfg (moveZ dtScale v) in
  let frameDistance := Qabs (vz v1 * dtScale) in
  let v2 := set_distanceTraveled (distanceTraveled v1 + frameDistance) v1 in
  if distanceTraveled v2 >? Config.far (Config.TUNNEL cfg)
  then set_pleaseRemove true v2 else v2.

(** [update(dt)] of SShot *)
Definition SShot_update (cfg : Config.t) (dt : Q) (v : t) : t :=
  let dtScale := dt / 16.67 in
  let v1 := moveZ dtScale (moveXY dtScale v) in
  let v2 := set_lifeTime (lifeTime v1 + dt) v1 in
  let v3 := if lifeTime v2 >? maxLifeTime v2
            then set_pleaseRemove true v2 else v2 in
  let tn := Config.TUNNEL cfg in
  if (x v3 <? Config.left tn) || (x v3 >? Config.right tn) ||
     (y v3 <? Config.top tn) || (y v3 >? Config.bottom tn)
  then set_pleaseRemove true v3 else v3.

(** [update(dt)] of Player up to the wrap of [z]; the loop over
    [this.shots] that follows is [Player.update] below. *)
Definition Player_update (h : Host) (cfg : Config.t) (dt : Q) (v : t) : t :=
  let dtScale := dt / 16.67 in
  let pc := Config.PLAYER cfg in
  let speedFactor := Config.SPEED_FACTOR cfg in
  let accel := Config.accelStep pc * speedFactor in
  let maxSpeed := Config.maxSpeed pc * speedFactor in
  let v1 :=
    if moveBackward v then
      let v' := if vz v >? 0 then set_vz (vz v * Config.slowFactor pc) v
                else v in
      set_vz (vz v' - accel * dtScale) v'
    else if moveForward v then
      let v' := if vz v <? 0 then set_vz (vz v * Config.slowFactor pc) v
                else v in
      set_vz (vz v' + accel * dtScale) v'
    else set_vz (vz v * Math_pow h (Config.slowFactor pc) dtScale) v in
  let v2 := set_vz (Qmax (- maxSpeed) (Qmin maxSpeed (vz v1))) v1 in
  let v3 := moveZ dtScale v2 in
  let len := Config.length (Config.TUNNEL cfg) in
  set_z (Num.rem (Num.rem (z v3) len + len) len) v3.

(** [obj.update(dt)], dispatched on the class of [obj]. *)
Definition update (h : Host) (cfg : Config.t) (dt : Q) (v : t) : t :=
  match kind v with
  | KVis => Vis_update cfg dt v
  | Cross | Grabber => Cross_update cfg dt v
  | Saucer => Saucer_update h cfg dt v
  | Aphid => Aphid_update h cfg dt v
  | Blocker => Blocker_update cfg dt v
  | Thing => Thing_update cfg dt v
  | TestSquare => TestSquare_update cfg dt v
  | PShot => PShot_update cfg dt v
  | SShot => SShot_update cfg dt v
  | Player => Player_update h cfg dt v
  end.

End Vis.

(* ================================================================== *)
(** ** player.js: the player object with the shots it owns *)

Module Player.

Record t := mk {
  (* the fields inherited from Vis, with [kind] = Player *)
  body : Vis.t;
  shots : list Vis.t;
  energy : Q;
  score : Q
}.

(** [new Player(tunnel)] *)
Definition new (cfg : Config.t) : t :=
  mk (Vis.Player_new cfg) [] (Config.startEnergy (Config.PLAYER cfg)) 0.

(** [update(dt)]: the movement of the player, then the backward loop
    over [this.shots] that updates each shot and splices out the ones to
    drop. *)
Definition update (h : Vis.Host) (cfg : Config.t) (dt : Q) (p : t) : t :=
  let b := Vis.Player_update h cfg dt (body p) in
  let moved := map (Vis.update h cfg dt) (shots p) in
  let keep (shot : Vis.t) :=
    negb (Vis.pleaseRemove shot ||
          (Vis.getZFromPlayer cfg (Vis.z b) shot
             >? Config.far (Config.TUNNEL cfg))) in
  mk b (filter keep moved) (energy p) (score p).

End Player.

(* ================================================================== *)
(** ** projection.js *)

Module Projection.

(** The module-level [eyeX], [eyeY], [eyeZ]. *)
Record Eye := mkEye { eyeX : Q; eyeY : Q; eyeZ : Q }.

(** [setEyePosition(x, y, z)] *)
Definition setEyePosition (x y z : Q) : Eye := mkEye x y z.

(** The object [projectPoint] returns. *)
Record Point := mkPoint { x : Q; y : Q; visible : bool }.

(** [projectPoint(worldX, worldY, worldZ, eyeOffsetX)] *)
Definition projectPoint (cfg : Config.t) (eye : Eye)
                        (worldX worldY worldZ eyeOffsetX : Q) : Point :=
  let relZ := worldZ - eyeZ eye in
  if relZ <=? Config.near (Config.TUNNEL cfg) then mkPoint 0 0 false
  else if relZ >? Config.far (Config.TUNNEL cfg) then mkPoint 0 0 false
  else
    let eyeToScreen := Config.eyeToScreen (Config.STEREO cfg) in
    let screenPlaneZ := Config.screenPlaneZ (Config.STEREO cfg) in
    let screenX0 :=
      ((worldX - eyeX eye - eyeOffsetX) * eyeToScreen) / relZ in
    let screenY := ((worldY - eyeY eye) * eyeToScreen) / relZ in
    let screenX :=
      if Num.nonzero screenPlaneZ && Num.nonzero eyeOffsetX
      then screenX0 + (eyeOffsetX * eyeToScreen) / screenPlaneZ
      else screenX0 in
    mkPoint (screenX + Config.WIDTH cfg / 2)
            (screenY + Config.HEIGHT cfg / 2)
            true.

End Projection.

(* ================================================================== *)
(** ** tunnel.js *)

Module Tunnel.

Record t := mk {
  objects : list Vis.t;
  player : option Player.t
}.

(** [addObject(obj)] *)
Definition addObject (obj : Vis.t) (tn : t) : t :=
  let obj1 := Vis.set_formAccum 0 (Vis.set_isForming true obj) in
  let obj2 := Vis.initForm 200 15 obj1 in
  mk (objects tn ++ [obj2]) (player tn).

(** [Array.prototype.sort(compare)] on a copy of the array: a stable
    sort, written as insertion from the right.  [compare a b] is the
    number the comparator returns; [a] stays in front of [b] unless it
    is positive. *)
Fixpoint insertBy (compare : Vis.t -> Vis.t -> Q) (a : Vis.t)
                  (l : list Vis.t) : list Vis.t :=
  match l with
  | [] => [a]
  | b :: l' =>
      if compare a b >? 0 then b :: insertBy compare a l' else a :: l
  end.

Definition sortBy (compare : Vis.t -> Vis.t -> Q) (l : list Vis.t)
  : list Vis.t :=
  fold_right (insertBy compare) [] l.

(** One call of [obj.draw(renderer)]: the object, and the depth
    [playerZ + relZ] its [z] is set to for the duration of the call. *)
Record DrawCall := mkDraw { drawn : Vis.t; drawZ : Q }.

(** The guarded body shared by the two drawing loops. *)
Definition drawIfAhead (cfg : Config.t) (playerZ : Q) (obj : Vis.t)
  : list DrawCall :=
  let relZ := Vis.getZFromPlayer cfg playerZ obj in
  if (relZ >? Config.near (Config.TUNNEL cfg)) &&
     (relZ <? Config.far (Config.TUNNEL cfg))
  then [mkDraw obj (playerZ + relZ)]
  else [].

(** The comparator of [drawObjects]. *)
Definition farToNear (cfg : Config.t) (playerZ : Q) (a b : Vis.t) : Q :=
  Vis.getZFromPlayer cfg playerZ b - Vis.getZFromPlayer cfg playerZ a.

(** The first drawing loop of [drawObjects]: the sorted objects. *)
Definition drawSorted (cfg : Config.t) (playerZ : Q) (objs : list Vis.t)
  : list DrawCall :=
  flat_map (drawIfAhead cfg playerZ) (sortBy (farToNear cfg playerZ) objs).

(** [drawObjects(renderer)]: the eye position it sets and the [draw]
    calls it makes, in order; nothing without a player. *)
Definition drawObjects (cfg : Config.t) (tn : t)
  : option (Projection.Eye * list DrawCall) :=
  match player tn with
  | None => None
  | Some p =>
      let playerZ := Vis.z (Player.body p) in
      let eye := Projection.setEyePosition (Vis.x (Player.body p))
                   (Vis.y (Player.body p)) playerZ in
      Some (eye,
            drawSorted cfg playerZ (objects tn) ++
            flat_map (drawIfAhead cfg playerZ) (Player.shots p))
  end.

End Tunnel.

(* ================================================================== *)
(** ** Vocabulary of the statements *)

Module Spec.

(** [a[i]] on an offset array. *)
Definition lane (a : list Q) (i : nat) : Q := nth i a 0.

(** [n] successive calls of [incrExpl()] on the entity. *)
Definition incrExplTimes (n : nat) (v : Vis.t) : Vis.t :=
  Nat.iter n (fun w => snd (Vis.incrExpl w)) v.

(** Every collision rectangle of [v] lies inside its bounding extents
    [[-extentX, extentX] x [-extentY, extentY]]. *)
Definition rectsWithinExtents (v : Vis.t) : Prop :=
  Forall (fun r =>
            - Vis.extentX v <= Rect.left r /\ Rect.right r <= Vis.extentX v /\
            - Vis.extentY v <= Rect.top r /\ Rect.bottom r <= Vis.extentY v)
         (Vis.getCollisionRects v).

(** The visibility window of the draw pass as the code tests it. *)
Definition ahead (cfg : Config.t) (playerZ : Q) (obj : Vis.t) : bool :=
  (Vis.getZFromPlayer cfg playerZ obj >? Config.near (Config.TUNNEL cfg)) &&
  (Vis.getZFromPlayer cfg playerZ obj <? Config.far (Config.TUNNEL cfg)).

(** Far to near: [b] is not farther from the player than [a]. *)
Definition notFarther (cfg : Config.t) (playerZ : Q) (a b : Vis.t) : Prop :=
  Vis.getZFromPlayer cfg playerZ b <= Vis.getZFromPlayer cfg playerZ a.

End Spec.

(* ================================================================== *)
(** ** objects/vis.js: drawing *)

Module Draw.

(** One call of [renderer.drawFilledRect3D(cx, cy, z, hw, hh, shade)]
    ([filled]) or of [renderer.drawFrameRect3D] with the same
    arguments. *)
Record Call := mk {
  filled : bool;
  cx : Q;
  cy : Q;
  cz : Q;
  halfWidth : Q;
  halfHeight : Q;
  shade : Q
}.

(** One row of a shape table as [drawShape] destructures it:
    [[l, t, r, b, shade]] (five entries, drawn filled) or
    [[l, t, r, b, filled, shade]]. *)
Record Entry := mkEntry { rect : Rect.t; entryFilled : bool; entryShade : Q }.

(** The body of the two nested loops of [drawRectWithGridSubdivision]
    for the grid cell [(xi, yi)].  Both init functions build six grid
    lines and five offsets per axis, so every array read is in range. *)
Definition cell (v : Vis.t) (e : Expl.t)
           (rectLeft rectTop rectRight rectBottom shade0 : Q)
           (isFilled : bool) (xi yi : nat) : list Call :=
  let gridLeft := Spec.lane (Expl.xLine e) xi in
  let gridRight := Spec.lane (Expl.xLine e) (S xi) in
  let gridTop := Spec.lane (Expl.yLine e) yi in
  let gridBottom := Spec.lane (Expl.yLine e) (S yi) in
  let intLeft := Qmax rectLeft gridLeft in
  let intRight := Qmin rectRight gridRight in
  let intTop := Qmax rectTop gridTop in
  let intBottom := Qmin rectBottom gridBottom in
  if (intLeft <? intRight) && (intTop <? intBottom) then
    let offsetX := Spec.lane (Expl.xOffset e) xi in
    let offsetY := Spec.lane (Expl.yOffset e) yi in
    [mk isFilled
        (Vis.x v + (intLeft + intRight) / 2 + offsetX)
        (Vis.y v + (intTop + intBottom) / 2 + offsetY)
        (Vis.z v)
        ((intRight - intLeft) / 2)
        ((intBottom - intTop) / 2)
        shade0]
  else [].

(** [drawRectWithGridSubdivision(renderer, rectLeft, rectTop, rectRight,
    rectBottom, shade, filled)]: the calls it makes, in order. *)
Definition drawRectWithGridSubdivision (v : Vis.t)
           (rectLeft rectTop rectRight rectBottom shade0 : Q)
           (isFilled : bool) : list Call :=
  match Vis.expl v with
  | None => []
  | Some e =>
      flat_map (fun xi =>
        flat_map (cell v e rectLeft rectTop rectRight rectBottom shade0
                       isFilled xi)
                 [0; 1; 2; 3; 4]%nat)
        [0; 1; 2; 3; 4]%nat
  end.

(** [(this.isExploding || this.isForming) && this.expl] *)
Definition isAnimating (v : Vis.t) : bool :=
  (Vis.isExploding v || Vis.isForming v) &&
  match Vis.expl v with Some _ => true | None => false end.

(** [drawShape(renderer, shape, scale, shadeMultiplier)] *)
Definition drawShape (v : Vis.t) (shape : list Entry)
           (scale shadeMultiplier : Q) : list Call :=
  flat_map (fun en =>
    let shade0 := entryShade en * shadeMultiplier in
    let scaledLeft := Rect.left (rect en) * scale in
    let scaledTop := Rect.top (rect en) * scale in
    let scaledRight := Rect.right (rect en) * scale in
    let scaledBottom := Rect.bottom (rect en) * scale in
    if isAnimating v then
      drawRectWithGridSubdivision v scaledLeft scaledTop scaledRight
        scaledBottom shade0 (entryFilled en)
    else
      [mk (entryFilled en)
          (Vis.x v + (scaledLeft + scaledRight) / 2)
          (Vis.y v + (scaledTop + scaledBottom) / 2)
          (Vis.z v)
          ((scaledRight - scaledLeft) / 2)
          ((scaledBottom - scaledTop) / 2)
          shade0])
    shape.

(** [drawExploding(renderer)] of [Vis]: the extent as one five-entry
    row, scale 1, default shade multiplier 1. *)
Definition drawExploding (v : Vis.t) : list Call :=
  drawShape v
    [mkEntry (Rect.mk (- Vis.extentX v) (- Vis.extentY v)
                      (Vis.extentX v) (Vis.extentY v))
             true (Vis.shade v)]
    1 1.

(** [draw(renderer)] of [Vis] *)
Definition draw (v : Vis.t) : list Call :=
  if isAnimating v then drawExploding v
  else [mk false (Vis.x v) (Vis.y v) (Vis.z v)
           (Vis.extentX v) (Vis.extentY v) (Vis.shade v)].

(** The loop of [getExplOffset] on one axis:
    [while (x > line[l + 1] && l <= 4) l++], where a read past the end of
    [line] is [undefined] and makes the comparison false. *)
Fixpoint findLane (fuel : nat) (line : list Q) (xv : Q) (l : nat) : nat :=
  match fuel with
  | O => l
  | S fuel' =>
      match nth_error line (S l) with
      | Some g =>
          if (xv >? g) && (l <=? 4)%nat then findLane fuel' line xv (S l)
          else l
      | None => l
      end
  end.

(** [getExplOffset(x, y)]: the pair [(dx, dy)]; [offset[l] || 0] is
    [Spec.lane], which reads 0 past the end. *)
Definition getExplOffset (v : Vis.t) (xv yv : Q) : Q * Q :=
  match Vis.expl v with
  | None => (0, 0)
  | Some e =>
      (Spec.lane (Expl.xOffset e) (findLane 6 (Expl.xLine e) xv 0),
       Spec.lane (Expl.yOffset e) (findLane 6 (Expl.yLine e) yv 0))
  end.

End Draw.

(* ================================================================== *)
(** ** projection.js: lines and rectangles *)

Module Project.

(** The object [projectLine] returns. *)
Record Line := mkLine { x1 : Q; y1 : Q; x2 : Q; y2 : Q }.

(** The object [projectRect] returns. *)
Record Box := mkBox { x : Q; y : Q; width : Q; height : Q }.

(** [projectLine(x1, y1, z1, x2, y2, z2, eyeOffsetX)]; [null] is
    [None]. *)
Definition projectLine (cfg : Config.t) (eye : Projection.Eye)
           (ax ay az bx by_ bz eyeOffsetX : Q) : option Line :=
  let p1 := Projection.projectPoint cfg eye ax ay az eyeOffsetX in
  let p2 := Projection.projectPoint cfg eye bx by_ bz eyeOffsetX in
  if negb (Projection.visible p1) && negb (Projection.visible p2) then None
  else if negb (Projection.visible p1) || negb (Projection.visible p2)
  then None
  else Some (mkLine (Projection.x p1) (Projection.y p1)
                    (Projection.x p2) (Projection.y p2)).

(** [projectRect(left, top, right, bottom, z, eyeOffsetX)] *)
Definition projectRect (cfg : Config.t) (eye : Projection.Eye)
           (left top right bottom z eyeOffsetX : Q) : option Box :=
  let tl := Projection.projectPoint cfg eye left top z eyeOffsetX in
  let br := Projection.projectPoint cfg eye right bottom z eyeOffsetX in
  if negb (Projection.visible tl) || negb (Projection.visible br) then None
  else Some (mkBox (Projection.x tl) (Projection.y tl)
                   (Projection.x br - Projection.x tl)
                   (Projection.y br - Projection.y tl)).

End Project.

(* ================================================================== *)
(** ** projection.js with the rounding of its arithmetic made explicit *)

Module Rounded.

(** [projectPoint] once more, every arithmetic operation followed by
    the rounding [rnd] of its result, as binary64 computes it.  The
    comparisons and the negation of the caller's [-o] do not round.
    [Projection.projectPoint] is this function for the [rnd] that
    leaves every number as it is. *)
Definition projectPoint (rnd : Q -> Q) (cfg : Config.t)
           (eye : Projection.Eye)
           (worldX worldY worldZ eyeOffsetX : Q) : Projection.Point :=
  let relZ := rnd (worldZ - Projection.eyeZ eye) in
  if relZ <=? Config.near (Config.TUNNEL cfg)
  then Projection.mkPoint 0 0 false
  else if relZ >? Config.far (Config.TUNNEL cfg)
  then Projection.mkPoint 0 0 false
  else
    let eyeToScreen := Config.eyeToScreen (Config.STEREO cfg) in
    let screenPlaneZ := Config.screenPlaneZ (Config.STEREO cfg) in
    let screenX0 :=
      rnd (rnd (rnd (rnd (worldX - Projection.eyeX eye) - eyeOffsetX)
                * eyeToScreen) / relZ) in
    let screenY :=
      rnd (rnd (rnd (worldY - Projection.eyeY eye) * eyeToScreen) / relZ) in
    let screenX :=
      if Num.nonzero screenPlaneZ && Num.nonzero eyeOffsetX
      then rnd (screenX0 + rnd (rnd (eyeOffsetX * eyeToScreen) / screenPlaneZ))
      else screenX0 in
    Projection.mkPoint (rnd (screenX + rnd (Config.WIDTH cfg / 2)))
                       (rnd (screenY + rnd (Config.HEIGHT cfg / 2)))
                       true.

(** The rounding unit and the range it is used on: a binary64 number of
    magnitude at most [2^24] is within [2^-30] of the real number it
    rounds (half a unit in the last place is at most [2^-30] there). *)
Definition unit : Q := 1 # 1073741824.
Definition range : Q := 16777216.

(** [rnd] rounds as binary64 does on that range. *)
Definition rounds (rnd : Q -> Q) : Prop :=
  forall x : Q, Qabs x <= range -> Qabs (rnd x - x) <= unit.

(** A rounding to run examples with: to the nearest multiple of
    [2^-30], ties upwards. *)
Definition toGrid (x : Q) : Q :=
  inject_Z (Qfloor (x * 1073741824 + (1 # 2))) / 1073741824.

End Rounded.

(* ================================================================== *)
(** ** projection.js in binary64 *)

Module Binary64.

(** The numbers of config.js that [projectPoint] reads, as the doubles
    the program holds: [WIDTH], [HEIGHT], [TUNNEL.near], [TUNNEL.far],
    [STEREO.eyeToScreen], [STEREO.screenPlaneZ]. *)
Record Config := mkConfig {
  WIDTH : float;
  HEIGHT : float;
  near : float;
  far : float;
  eyeToScreen : float;
  screenPlaneZ : float
}.

Definition CONFIG : Config := mkConfig 640 480 30 65000 50 5000.

Record Eye := mkEye { eyeX : float; eyeY : float; eyeZ : float }.

Record Point := mkPoint { x : float; y : float; visible : bool }.

(** [projectPoint(worldX, worldY, worldZ, eyeOffsetX)] on IEEE 754
    doubles, operation by operation; [<=], [>] and [!== 0] are the
    IEEE comparisons. *)
Definition projectPoint (cfg : Config) (eye : Eye)
           (worldX worldY worldZ eyeOffsetX : float) : Point :=
  let relZ := (worldZ - eyeZ eye)%float in
  if (relZ <=? near cfg)%float then mkPoint 0 0 false
  else if (far cfg <? relZ)%float then mkPoint 0 0 false
  else
    let screenX0 :=
      (((worldX - eyeX eye - eyeOffsetX) * eyeToScreen cfg) / relZ)%float in
    let screenY :=
      (((worldY - eyeY eye) * eyeToScreen cfg) / relZ)%float in
    let screenX :=
      if negb (screenPlaneZ cfg =? 0)%float && negb (eyeOffsetX =? 0)%float
      then (screenX0 + (eyeOffsetX * eyeToScreen cfg) / screenPlaneZ cfg)%float
      else screenX0 in
    mkPoint (screenX + WIDTH cfg / 2)%float
            (screenY + HEIGHT cfg / 2)%float
            true.

End Binary64.

(* ================================================================== *)
(** ** Collision response: the [onCollide] methods and
       [Tunnel.checkCollisions] *)

Module Collide.

(** The names given to [audio.play] by the collision code. *)
Inductive Sound : Type := crossHit | saucerHit | playerHit | powerup.

(** What a collision can reach besides the two entities: the player
    (its energy and score; its [wasHit] flag, kept here), the
    [numLiveObjs] counter of [tunnel.game] ([None] while no game is
    attached), and the sounds played so far, oldest first.  Every
    entity handled here is attached to the tunnel and the tunnel has
    its player, as [addObject], [setPlayer] and [fire] arrange. *)
Record Scene := mkScene {
  player : Player.t;
  wasHit : bool;
  numLiveObjs : option Z;
  played : list Sound
}.

Definition setPlayer (p : Player.t) (sc : Scene) : Scene :=
  mkScene p (wasHit sc) (numLiveObjs sc) (played sc).

(** [audio.play(name)] *)
Definition play (s : Sound) (sc : Scene) : Scene :=
  mkScene (player sc) (wasHit sc) (numLiveObjs sc) (played sc ++ [s]).

(** [if (this.tunnel && this.tunnel.game) this.tunnel.game.hitOne()],
    [hitOne] being [this.numLiveObjs--]. *)
Definition hitOne (sc : Scene) : Scene :=
  mkScene (player sc) (wasHit sc)
          (option_map (fun n => (n - 1)%Z) (numLiveObjs sc)) (played sc).

(** [addScore(points)] of Player *)
Definition addScore (points : Q) (sc : Scene) : Scene :=
  let p := player sc in
  setPlayer (Player.mk (Player.body p) (Player.shots p) (Player.energy p)
                       (Player.score p + points)) sc.

Definition setEnergy (e : Q) (sc : Scene) : Scene :=
  let p := player sc in
  setPlayer (Player.mk (Player.body p) (Player.shots p) e (Player.score p)) sc.

Definition setShots (shots : list Vis.t) (sc : Scene) : Scene :=
  let p := player sc in
  setPlayer (Player.mk (Player.body p) shots (Player.energy p)
                       (Player.score p)) sc.

(** [takeDamage(amount)] of Player *)
Definition takeDamage (amount : Q) (sc : Scene) : Scene :=
  let sc1 := setEnergy (Player.energy (player sc) - amount) sc in
  let sc2 := mkScene (player sc1) true (numLiveObjs sc1) (played sc1) in
  let sc3 := play playerHit sc2 in
  if Player.energy (player sc3) <? 0 then setEnergy 0 sc3 else sc3.

(** [CONFIG.ENEMIES[typeName.toLowerCase()].points] of config.js:
    [None] where the table has no such entry or the entry has no
    [points]. *)
Definition enemyPoints (k : Kind) : option Q :=
  match k with
  | Cross => Some 200
  | Saucer => Some 400
  | Aphid => Some 0
  | Blocker => Some 0
  | _ => None
  end.

(** [CONFIG.ENEMIES.thing.energyBonus] *)
Definition energyBonus : Q := 40.

(** [onCollide(other)] of Player *)
Definition Player_onCollide (other : Vis.t) (sc : Scene) : Scene :=
  match Vis.kind other with
  | PShot => sc
  | Thing =>
      play powerup
        (setEnergy (Qmin 100 (Player.energy (player sc) + energyBonus)) sc)
  | Cross | Saucer | Aphid | SShot => takeDamage 1 sc
  | _ => sc
  end.

(** [onCollide(other)] of PShot *)
Definition PShot_onCollide (this other : Vis.t) (sc : Scene)
  : Scene * Vis.t :=
  match Vis.kind other with
  | Player | PShot => (sc, this)
  | Blocker | Thing => (sc, Vis.set_pleaseRemove true this)
  | k =>
      (match enemyPoints k with
       | Some points =>
           if Num.nonzero points then addScore points sc else sc
       | None => sc
       end,
       Vis.set_pleaseRemove true this)
  end.

(** [this.onCollide(other)], dispatched on the class of [this]: the
    scene and [this] after the call. *)
Definition onCollide (this other : Vis.t) (sc : Scene) : Scene * Vis.t :=
  match Vis.kind this with
  | KVis => (sc, this)
  | Cross =>
      match Vis.kind other with
      | PShot =>
          (hitOne (play crossHit sc),
           Vis.explode (Vis.x other) (Vis.y other) this)
      | Player =>
          (hitOne (play crossHit sc),
           Vis.explode (Vis.x this) (Vis.y this) this)
      | _ => (sc, this)
      end
  | Saucer =>
      match Vis.kind other with
      | PShot =>
          (hitOne (play saucerHit sc),
           Vis.explode (Vis.x other) (Vis.y other) this)
      | Player =>
          (hitOne (play saucerHit sc),
           Vis.explode (Vis.x this) (Vis.y this) this)
      | _ => (sc, this)
      end
  | Aphid =>
      match Vis.kind other with
      | PShot =>
          (play playerHit sc, Vis.explode (Vis.x other) (Vis.y other) this)
      | Player => (sc, Vis.explode (Vis.x this) (Vis.y this) this)
      | _ => (sc, this)
      end
  | Blocker =>
      match Vis.kind other with
      | PShot => (sc, Vis.explode (Vis.x other) (Vis.y other) this)
      | _ => (sc, this)
      end
  | Thing =>
      match Vis.kind other with
      | Player => (sc, Vis.explode 0 0 this)
      | _ => (sc, this)
      end
  | Grabber =>
      match Vis.kind other with
      | PShot => (hitOne sc, Vis.explode (Vis.x other) (Vis.y other) this)
      | Player => (hitOne sc, Vis.explode (Vis.x this) (Vis.y this) this)
      | _ => (sc, this)
      end
  | TestSquare =>
      match Vis.kind other with
      | PShot =>
          (addScore 200 (hitOne sc),
           Vis.explode (Vis.x other) (Vis.y other) this)
      | _ => (sc, this)
      end
  | PShot => PShot_onCollide this other sc
  | SShot =>
      match Vis.kind other with
      | Player => (takeDamage 15 sc, Vis.set_pleaseRemove true this)
      | _ => (sc, this)
      end
  | Player => (Player_onCollide other sc, this)
  end.

(** The inner loop of [checkCollisions] for one object: every shot of
    the player against [obj].  Returns the shots, the object and the
    scene after the loop. *)
Fixpoint shotsPass (cfg : Config.t) (shots : list Vis.t) (obj : Vis.t)
         (sc : Scene) : list Vis.t * Vis.t * Scene :=
  match shots with
  | [] => ([], obj, sc)
  | shot :: rest =>
      if Vis.collidesWith cfg shot obj then
        let '(sc1, shot1) := onCollide shot obj sc in
        let '(sc2, obj1) := onCollide obj shot1 sc1 in
        let '(rest', obj2, sc3) := shotsPass cfg rest obj1 sc2 in
        (shot1 :: rest', obj2, sc3)
      else
        let '(rest', obj2, sc3) := shotsPass cfg rest obj sc in
        (shot :: rest', obj2, sc3)
  end.

(** The body of the outer loop of [checkCollisions] for one object.
    The player object itself is never stored in [tunnel.objects]
    (main.js only calls [setPlayer]), so [if (obj === player) continue]
    never fires. *)
Definition objectStep (cfg : Config.t) (obj : Vis.t) (sc : Scene)
  : Vis.t * Scene :=
  if negb (Vis.checkCollide obj) then (obj, sc)
  else
    let body := Player.body (player sc) in
    let '(sc1, obj1) :=
      if Vis.collidesWith cfg body obj then
        onCollide obj body (Player_onCollide obj sc)
      else (sc, obj) in
    let '(shots', obj2, sc2) :=
      shotsPass cfg (Player.shots (player sc1)) obj1 sc1 in
    (obj2, setShots shots' sc2).

(** The outer loop over [this.objects]. *)
Fixpoint objectsPass (cfg : Config.t) (objs : list Vis.t) (sc : Scene)
  : list Vis.t * Scene :=
  match objs with
  | [] => ([], sc)
  | obj :: rest =>
      let '(obj', sc1) := objectStep cfg obj sc in
      let '(rest', sc2) := objectsPass cfg rest sc1 in
      (obj' :: rest', sc2)
  end.

(** The tunnel with what its collisions reach. *)
Record World := mkWorld {
  tunnel : Tunnel.t;
  hitFlag : bool;
  liveObjs : option Z;
  sounds : list Sound
}.

(** [checkCollisions()] *)
Definition checkCollisions (cfg : Config.t) (w : World) : World :=
  match Tunnel.player (tunnel w) with
  | None => w
  | Some p =>
      let '(objs', sc) :=
        objectsPass cfg (Tunnel.objects (tunnel w))
          (mkScene p (hitFlag w) (liveObjs w) (sounds w)) in
      mkWorld (Tunnel.mk objs' (Some (player sc)))
              (wasHit sc) (numLiveObjs sc) (played sc)
  end.

End Collide.

(* ================================================================== *)
(** ** More vocabulary *)

Module Grid.



(** [hit] moved into [[lo, hi]]. *)
Definition clamp (lo hi hit : Q) : Q :=
  if hit >=? hi then hi else if hit <=? lo then lo else hit.

(** What no [update] touches: the class, the box, the collidable flag
    and the exploding flag of [w] are those of [v]. *)
Definition sameBody (v w : Vis.t) : Prop :=
  Vis.kind w = Vis.kind v /\ Vis.extentX w = Vis.extentX v /\
  Vis.extentY w = Vis.extentY v /\ Vis.thick w = Vis.thick v /\
  Vis.shapeScale w = Vis.shapeScale v /\
  Vis.checkCollide w = Vis.checkCollide v /\
  Vis.isExploding w = Vis.isExploding v.

(** [w] is where [v] was, moving as [v] did. *)
Definition samePlace (v w : Vis.t) : Prop :=
  Vis.x w = Vis.x v /\ Vis.y w = Vis.y v /\ Vis.z w = Vis.z v /\
  Vis.vx w = Vis.vx v /\ Vis.vy w = Vis.vy v /\ Vis.vz w = Vis.vz v.

(** The two flags that only ever go one way: a removal request stays,
    and forming does not start again. *)
Definition oneWay (v w : Vis.t) : Prop :=
  (Vis.pleaseRemove v = true -> Vis.pleaseRemove w = true) /\
  (Vis.isForming v = false -> Vis.isForming w = false).

(** A host to run examples with: its steering routines leave the
    velocities alone and its [Math.pow] is only right for exponent 0. *)
Definition quietHost : Vis.Host :=
  Vis.mkHost (fun _ _ => 1)
             (fun _ w => (Vis.vx w, Vis.vy w))
             (fun _ w => (Vis.vx w, Vis.vy w, Vis.vz w)).

(** The area the calls of a draw cover, each call being a rectangle of
    half-width [hw] and half-height [hh]. *)
Definition area (calls : list Draw.Call) : Q :=
  fold_right (fun c a => 2 * Draw.halfWidth c * (2 * Draw.halfHeight c) + a)
             0 calls.

(** The calls of a list of [dt]s on one object, oldest first. *)
Definition updates (h : Vis.Host) (cfg : Config.t) (dts : list Q)
           (v : Vis.t) : Vis.t :=
  fold_left (fun w dt => Vis.update h cfg dt w) dts v.

(** The animation record of a default entity at (10, 20) hit at the local
    point (30, -250), three steps into its explosion. *)
Definition sampleGrid : Expl.t :=
  match Vis.expl (Spec.incrExplTimes 3
                    (Vis.initExpl 30 (-250) 125 25 (Vis.new 10 20 300))) with
  | Some e => e
  | None => Expl.mk [] [] [] [] 0 0 0 0 0
  end.

End Grid.

(* ================================================================== *)
(** ** Vocabulary for the collision pass *)

Module Tally.

(** An object the collision test can report: collidable, not
    exploding, not forming. *)
Definition live (v : Vis.t) : bool :=
  Vis.checkCollide v && negb (Vis.isExploding v) && negb (Vis.isForming v).

(** The classes whose [onCollide] calls [hitOne]. *)
Definition counted (v : Vis.t) : bool :=
  match Vis.kind v with
  | Cross | Saucer | Grabber | TestSquare => true
  | _ => false
  end.

(** [w] is [v] after some collisions: the same class and box at the
    same place with the same velocity, forming as before; a removal
    request and an explosion, once there, stay. *)
Definition struck (v w : Vis.t) : Prop :=
  Vis.kind w = Vis.kind v /\ Vis.extentX w = Vis.extentX v /\
  Vis.extentY w = Vis.extentY v /\ Vis.thick w = Vis.thick v /\
  Grid.samePlace v w /\ Vis.isForming w = Vis.isForming v /\
  (Vis.pleaseRemove v = true -> Vis.pleaseRemove w = true) /\
  (Vis.isExploding v = true -> Vis.isExploding w = true).

(** The counter [n'] is [n] less at most [k]. *)
Definition countedOff (k : Z) (n n' : option Z) : Prop :=
  match n, n' with
  | Some a, Some b => (a - k <= b <= a)%Z
  | None, None => True
  | _, _ => False
  end.

(** What collisions may do to a scene, [k] bounding the calls of
    [hitOne]: the player stays where it is, its shots are struck, its
    energy stays within [[0, 100]] if it was, its score does not drop,
    the hit flag is not cleared. *)
Definition charged (k : Z) (sc sc' : Collide.Scene) : Prop :=
  Player.body (Collide.player sc') = Player.body (Collide.player sc) /\
  Forall2 struck (Player.shots (Collide.player sc))
                 (Player.shots (Collide.player sc')) /\
  (0 <= Player.energy (Collide.player sc) <= 100 ->
   0 <= Player.energy (Collide.player sc') <= 100) /\
  Player.score (Collide.player sc) <= Player.score (Collide.player sc') /\
  (Collide.wasHit sc = true -> Collide.wasHit sc' = true) /\
  countedOff k (Collide.numLiveObjs sc) (Collide.numLiveObjs sc').

(** The number of live objects of the counted classes. *)
Definition liveCounted (objs : list Vis.t) : Z :=
  Z.of_nat (length (filter (fun o => counted o && live o) objs)).

(** A scene and a world to run examples with: a player at the origin
    with full energy and one shot in flight, two Crosses on top of each
    other in the shot's way, and a Blocker that has just been added. *)
Definition samplePlayer : Player.t :=
  Player.mk (Vis.Player_new CONFIG) [Vis.PShot_new CONFIG 0 0 2000] 100 0.

Definition sampleScene : Collide.Scene :=
  Collide.mkScene samplePlayer false (Some 3%Z) [].

Definition crossWorld : Collide.World :=
  Collide.mkWorld
    (Tunnel.mk [Vis.Cross_new CONFIG 1000 0 2010;
                Vis.Cross_new CONFIG (-1000) 50 1990]
               (Some samplePlayer))
    false (Some 3%Z) [].

Definition sampleWorld : Collide.World :=
  Collide.mkWorld
    (Tunnel.addObject (Vis.Blocker_new CONFIG 0 0 3000 true 100)
       (Collide.tunnel crossWorld))
    false (Some 3%Z) [].

(** A world whose only objects have just been added. *)
Definition formingWorld : Collide.World :=
  Collide.mkWorld
    (Tunnel.addObject (Vis.Saucer_new CONFIG 0 0 2000)
       (Tunnel.addObject (Vis.Cross_new CONFIG 0 0 2000)
          (Tunnel.mk [] (Some samplePlayer))))
    false (Some 2%Z) [].

End Tally.

(* ================================================================== *)
(** ** Numbers the program computes without rounding *)

Module Exact.

(** An integer of magnitude at most [bound].  On integers, halves and
    quarters of magnitude below [2^51] binary64 computes sums,
    differences, products and divisions by 2 and 4 that stay in that
    range without rounding, so there the arithmetic of this file is the
    arithmetic of the program. *)
Definition integer (bound : Z) (q : Q) : Prop :=
  exists n : Z, q == inject_Z n /\ (Z.abs n <= bound)%Z.

End Exact.

(* ================================================================== *)
(** * Properties *)

(** ** Comparisons and remainder *)

Lemma ltb_spec (a b : Q) : reflect (a < b) (a <? b).
Proof.
  unfold Num.ltb. destruct (Qlt_le_dec a b) as [H|H]; constructor.
  - exact H.
  - apply Qle_not_lt, H.
Qed.

Lemma leb_spec (a b : Q) : reflect (a <= b) (a <=? b).
Proof.
  unfold Num.leb. destruct (Qlt_le_dec b a) as [H|H]; constructor.
  - apply Qlt_not_le, H.
  - exact H.
Qed.

(** Case analysis on every comparison in the goal. *)
Ltac qcases :=
  repeat match goal with
  | |- context [Num.ltb ?a ?b] => destruct (ltb_spec a b)
  | |- context [Num.leb ?a ?b] => destruct (leb_spec a b)
  end.

(** [lra] over [Q] does not read a division; a division by a literal
    becomes a product with the literal's inverse first. *)
Ltac qinv_const :=
  repeat match goal with
  | |- context [/ (?n # ?d)] =>
      let r := eval compute in (/ (n # d)) in
      progress change (/ (n # d)) with r
  | H : context [/ (?n # ?d)] |- _ =>
      let r := eval compute in (/ (n # d)) in
      progress change (/ (n # d)) with r in H
  end.

Ltac qlra := unfold Qdiv in *; qinv_const; lra.

(** ** Periodic depth *)

Section PeriodicDepth.

Variable cfg : Config.t.
Let len := Config.length (Config.TUNNEL cfg).
Hypothesis len_nonneg : 0 <= len.

Lemma getZFromPlayer_antisym (a b : Vis.t) :
  Vis.getZFromPlayer cfg (Vis.z b) a == - Vis.getZFromPlayer cfg (Vis.z a) b.
Proof.
  unfold Vis.getZFromPlayer. fold len.
  qcases; qlra.
Qed.

Lemma getZFromPlayer_bound (a : Vis.t) (playerZ : Q) :
  0 <= Vis.z a < len -> 0 <= playerZ < len ->
  Qabs (Vis.getZFromPlayer cfg playerZ a) <= len / 2.
Proof.
  intros Ha Hp. apply Qabs_Qle_condition.
  unfold Vis.getZFromPlayer. fold len.
  qcases; qlra.
Qed.

End PeriodicDepth.

(** The tunnel scenario: with L = 65000, seen from A at z = 100 the
    entity B at z = 64950 is 150 behind, not 64850 ahead. *)
Example depth_scenario :
  Vis.getZFromPlayer CONFIG 100 (Vis.new 0 0 64950) == -150.
Proof. reflexivity. Qed.

(** C4.  For entities [a], [b] with [z] in [[0, L)], L = 65000, the
    periodic depth distance is antisymmetric,
    [a.getZFromPlayer(b.z) = - b.getZFromPlayer(a.z)], and bounded by
    L/2 in absolute value. *)
Theorem getZFromPlayer_antisym_bounded (a b : Vis.t) :
  0 <= Vis.z a < 65000 -> 0 <= Vis.z b < 65000 ->
  Vis.getZFromPlayer CONFIG (Vis.z b) a
    == - Vis.getZFromPlayer CONFIG (Vis.z a) b /\
  Qabs (Vis.getZFromPlayer CONFIG (Vis.z b) a) <= 65000 / 2.
Proof.
  intros Ha Hb. split.
  - apply getZFromPlayer_antisym. simpl. lra.
  - apply (getZFromPlayer_bound CONFIG); simpl; (lra || assumption).
Qed.

Lemma getZFromPlayer_antisym_bounded_witness :
  Vis.getZFromPlayer CONFIG (Vis.z (Vis.new 0 0 64950)) (Vis.new 0 0 100)
    == - Vis.getZFromPlayer CONFIG (Vis.z (Vis.new 0 0 100))
           (Vis.new 0 0 64950) /\
  Qabs (Vis.getZFromPlayer CONFIG (Vis.z (Vis.new 0 0 64950))
          (Vis.new 0 0 100)) <= 65000 / 2.
Proof.
  apply (getZFromPlayer_antisym_bounded (Vis.new 0 0 100)
           (Vis.new 0 0 64950)); simpl; lra.
Defined.

(** ** Collision *)

(** C8.  If either entity has [checkCollide] false, or either is
    exploding, or either is forming, [collidesWith] returns false. *)
Theorem collidesWith_guard (cfg : Config.t) (a b : Vis.t) :
  Vis.checkCollide a = false \/ Vis.checkCollide b = false \/
  Vis.isExploding a = true \/ Vis.isExploding b = true \/
  Vis.isForming a = true \/ Vis.isForming b = true ->
  Vis.collidesWith cfg a b = false.
Proof.
  unfold Vis.collidesWith. intros H.
  destruct (Vis.checkCollide a), (Vis.checkCollide b),
           (Vis.isExploding a), (Vis.isExploding b),
           (Vis.isForming a), (Vis.isForming b);
    simpl; try reflexivity; exfalso; intuition discriminate.
Qed.

Lemma collidesWith_guard_witness :
  Vis.collidesWith CONFIG (Vis.new 0 0 0)
    (Vis.set_isForming true (Vis.new 0 0 0)) = false.
Proof.
  apply (collidesWith_guard CONFIG (Vis.new 0 0 0)
           (Vis.set_isForming true (Vis.new 0 0 0))).
  right; right; right; right; right. reflexivity.
Defined.

(** Without the guard the same pair collides: the guard is what decides
    the witness above. *)
Example collidesWith_same_place :
  Vis.collidesWith CONFIG (Vis.new 0 0 0) (Vis.new 0 0 0) = true.
Proof. reflexivity. Qed.

Lemma rectsOverlap_sym (l1 r1 t1 b1 l2 r2 t2 b2 : Q) :
  Vis.rectsOverlap l1 r1 t1 b1 l2 r2 t2 b2 =
  Vis.rectsOverlap l2 r2 t2 b2 l1 r1 t1 b1.
Proof.
  unfold Vis.rectsOverlap.
  destruct (r2 <? l1), (r1 <? l2), (b1 <? t2), (b2 <? t1); reflexivity.
Qed.

Lemma existsb_swap {A B : Type} (p : A -> B -> bool) (la : list A)
      (lb : list B) :
  existsb (fun a => existsb (fun b => p a b) lb) la =
  existsb (fun b => existsb (fun a => p a b) la) lb.
Proof.
  apply eq_true_iff_eq. rewrite !existsb_exists. split.
  - intros (a & Ha & H). apply existsb_exists in H as (b & Hb & H).
    exists b. split; [exact Hb|]. apply existsb_exists. now exists a.
  - intros (b & Hb & H). apply existsb_exists in H as (a & Ha & H).
    exists a. split; [exact Ha|]. apply existsb_exists. now exists b.
Qed.

Lemma existsb_pointwise {A : Type} (f g : A -> bool) (l : list A) :
  (forall a, f a = g a) -> existsb f l = existsb g l.
Proof.
  intros E. induction l as [|a l IH]; simpl; [reflexivity|].
  now rewrite E, IH.
Qed.

Lemma deepCollide_sym (a b : Vis.t) :
  Vis.deepCollide a b = Vis.deepCollide b a.
Proof.
  unfold Vis.deepCollide. cbv zeta.
  rewrite existsb_swap.
  apply existsb_pointwise. intros r2.
  apply existsb_pointwise. intros r1.
  apply rectsOverlap_sym.
Qed.

Lemma broadX_sym (a b : Vis.t) : Vis.broadX a b = Vis.broadX b a.
Proof. unfold Vis.broadX. cbv zeta. apply andb_comm. Qed.

Lemma broadY_sym (a b : Vis.t) : Vis.broadY a b = Vis.broadY b a.
Proof. unfold Vis.broadY. cbv zeta. apply andb_comm. Qed.

Section DepthAxis.

Variable cfg : Config.t.
Hypothesis len_nonneg : 0 <= Config.length (Config.TUNNEL cfg).

Lemma zDiff_antisym (a b : Vis.t) :
  Vis.zDiff cfg b a == - Vis.zDiff cfg a b.
Proof.
  unfold Vis.zDiff. cbv zeta.
  set (len := Config.length (Config.TUNNEL cfg)) in *.
  qcases; qlra.
Qed.

Lemma broadZ_sym (a b : Vis.t) :
  Vis.broadZ cfg a b = Vis.broadZ cfg b a.
Proof.
  unfold Vis.broadZ, Vis.combinedThick.
  destruct (Vis.thick a) as [ta|], (Vis.thick b) as [tb|]; try reflexivity.
  pose proof (zDiff_antisym a b) as E.
  assert (Ea : Qabs (Vis.zDiff cfg b a) == Qabs (Vis.zDiff cfg a b))
    by (rewrite E; apply Qabs_opp).
  f_equal. qcases; try reflexivity; exfalso; lra.
Qed.

Lemma collidesWith_swap (a b : Vis.t) :
  Vis.collidesWith cfg a b = Vis.collidesWith cfg b a.
Proof.
  unfold Vis.collidesWith.
  rewrite (orb_comm (negb (Vis.checkCollide a))),
          (orb_comm (Vis.isExploding a)), (orb_comm (Vis.isForming a)),
          (broadX_sym a b), (broadY_sym a b), (broadZ_sym a b),
          (deepCollide_sym a b).
  reflexivity.
Qed.

End DepthAxis.

(** C10.  [a.collidesWith(b)] and [b.collidesWith(a)] return the same
    boolean, for every pair of entities. *)
Theorem collidesWith_sym (a b : Vis.t) :
  Vis.collidesWith CONFIG a b = Vis.collidesWith CONFIG b a.
Proof. apply collidesWith_swap. simpl. lra. Qed.

(** The narrow phase looks at x and y only: two entities at the same
    place in the plane but 10000 apart in depth pass [deepCollide] while
    the depth test of phase 1 rejects them. *)
Lemma deepCollide_ignores_depth :
  ~ (Vis.deepCollide (Vis.new 0 0 0) (Vis.new 0 0 10000) = true ->
     Vis.broadX (Vis.new 0 0 0) (Vis.new 0 0 10000) = true /\
     Vis.broadY (Vis.new 0 0 0) (Vis.new 0 0 10000) = true /\
     Vis.broadZ CONFIG (Vis.new 0 0 0) (Vis.new 0 0 10000) = true).
Proof.
  intros H. destruct (H eq_refl) as (_ & _ & Hz). discriminate Hz.
Qed.

Lemma deepCollide_pair (a b : Vis.t) :
  Vis.deepCollide a b = true ->
  exists r1 r2,
    In r1 (Vis.getCollisionRects a) /\ In r2 (Vis.getCollisionRects b) /\
    Rect.left r1 + Vis.x a <= Rect.right r2 + Vis.x b /\
    Rect.left r2 + Vis.x b <= Rect.right r1 + Vis.x a /\
    Rect.top r2 + Vis.y b <= Rect.bottom r1 + Vis.y a /\
    Rect.top r1 + Vis.y a <= Rect.bottom r2 + Vis.y b.
Proof.
  unfold Vis.deepCollide. intros H.
  apply existsb_exists in H as (r1 & H1 & H).
  apply existsb_exists in H as (r2 & H2 & H).
  exists r1, r2. split; [exact H1|]. split; [exact H2|].
  unfold Vis.rectsOverlap in H.
  repeat (apply andb_true_iff in H as [H ?]).
  repeat match goal with
  | E : negb (Num.ltb ?p ?q) = true |- _ =>
      destruct (ltb_spec p q); [discriminate E|clear E]
  end.
  repeat split; lra.
Qed.

(** C3 (amended).  If [deepCollide(a, b)] is true and the collision
    rectangles of both entities lie inside their bounding extents, the
    velocity-extended tests of phase 1 report overlap on the x axis and
    on the y axis.  (The depth axis is not part of the narrow phase.) *)
Theorem deepCollide_within_broad_xy (a b : Vis.t) :
  Spec.rectsWithinExtents a -> Spec.rectsWithinExtents b ->
  Vis.deepCollide a b = true ->
  Vis.broadX a b = true /\ Vis.broadY a b = true.
Proof.
  intros Wa Wb H.
  destruct (deepCollide_pair a b H) as (r1 & r2 & I1 & I2 & Hx1 & Hx2 & Hy1 & Hy2).
  unfold Spec.rectsWithinExtents in Wa, Wb.
  rewrite Forall_forall in Wa, Wb.
  destruct (Wa r1 I1) as (A1 & A2 & A3 & A4).
  destruct (Wb r2 I2) as (B1 & B2 & B3 & B4).
  pose proof (Qabs_nonneg (Vis.vx a)). pose proof (Qabs_nonneg (Vis.vx b)).
  pose proof (Qabs_nonneg (Vis.vy a)). pose proof (Qabs_nonneg (Vis.vy b)).
  unfold Vis.broadX, Vis.broadY. cbv zeta.
  split; qcases; simpl; try reflexivity; exfalso; lra.
Qed.

Lemma deepCollide_within_broad_xy_witness :
  Vis.broadX (Vis.Cross_new CONFIG 0 0 0) (Vis.SShot_new 5000 100 30000) = true /\
  Vis.broadY (Vis.Cross_new CONFIG 0 0 0) (Vis.SShot_new 5000 100 30000) = true.
Proof.
  apply (deepCollide_within_broad_xy (Vis.Cross_new CONFIG 0 0 0)
           (Vis.SShot_new 5000 100 30000)).
  - unfold Spec.rectsWithinExtents. simpl.
    repeat constructor; simpl; lra.
  - unfold Spec.rectsWithinExtents. simpl.
    repeat constructor; simpl; lra.
  - reflexivity.
Defined.

(** The hypothesis of the theorem above holds of every entity as its
    constructor leaves it. *)
Lemma default_rects_within (v : Vis.t) :
  match Vis.kind v with
  | Cross | Saucer | Aphid | Thing | Grabber => False
  | _ => True
  end ->
  Spec.rectsWithinExtents v.
Proof.
  unfold Spec.rectsWithinExtents, Vis.getCollisionRects.
  destruct (Vis.kind v); intros K; try contradiction;
    repeat constructor; simpl; apply Qle_refl.
Qed.

Lemma constructed_rects_within (cfg : Config.t) (rnd w x0 y0 z0 : Q)
      (id : Z) (isHorz : bool) :
  Forall Spec.rectsWithinExtents
    [Vis.new x0 y0 z0; Vis.Cross_new cfg x0 y0 z0;
     Vis.Saucer_new cfg x0 y0 z0; Vis.Aphid_new cfg rnd x0 y0 z0;
     Vis.Blocker_new cfg x0 y0 z0 isHorz w; Vis.Thing_new cfg x0 y0 z0;
     Vis.Grabber_new x0 y0 z0; Vis.TestSquare_new id x0 y0 z0;
     Vis.PShot_new cfg x0 y0 z0; Vis.SShot_new x0 y0 z0;
     Vis.Player_new cfg].
Proof.
  repeat (apply Forall_cons || apply Forall_nil);
    try (apply default_rects_within; exact I);
    unfold Spec.rectsWithinExtents; simpl;
    repeat constructor; simpl; lra.
Qed.

(** ** The destroy signal *)

Lemma initExpl_fields (xh yh d n : Q) (v : Vis.t) :
  let v' := Vis.initExpl xh yh d n v in
  Vis.isExploding v' = Vis.isExploding v /\
  Vis.checkCollide v' = Vis.checkCollide v /\
  Vis.x v' = Vis.x v /\ Vis.y v' = Vis.y v /\ Vis.z v' = Vis.z v.
Proof.
  unfold Vis.initExpl, Vis.Vis_initExpl. cbv zeta.
  destruct (Vis.kind v);
    repeat match goal with
    | |- context [Expl.hitCell ?a ?b ?c ?d] => destruct (Expl.hitCell a b c d)
    end; simpl; repeat split.
Qed.

Lemma explode_sets_flag (xh yh : Q) (v : Vis.t) :
  Vis.isExploding (Vis.explode xh yh v) = true.
Proof.
  unfold Vis.explode. destruct (Vis.isExploding v) eqn:E; simpl.
  - exact E.
  - now rewrite (proj1 (initExpl_fields _ _ _ _ _)).
Qed.

(** C9.  [explode] on an entity that is already exploding changes no
    field, whatever the arguments; hence a second call after a first one
    is a no-op.  On an entity that is not exploding it sets
    [isExploding], clears [checkCollide] and installs the animation
    record that [initExpl] builds for the impact point in entity-local
    coordinates [(xHit - x, yHit - y)] with increment 125 and 25
    steps: a record is there, at step 0 with all ten lane offsets zero,
    with the increment and step count of the call (50 and 50 on a
    TestSquare, whose [initExpl] puts them in), with the hit lines the
    search finds for the local point on each axis, and with six grid
    lines per axis starting at the low edge of the extent. *)
Theorem explode_idempotent (v : Vis.t) (xHit yHit : Q) :
  (Vis.isExploding v = true -> Vis.explode xHit yHit v = v) /\
  (forall x2 y2 : Q,
     Vis.explode x2 y2 (Vis.explode xHit yHit v) = Vis.explode xHit yHit v) /\
  (Vis.isExploding v = false ->
     Vis.isExploding (Vis.explode xHit yHit v) = true /\
     Vis.checkCollide (Vis.explode xHit yHit v) = false /\
     Vis.expl (Vis.explode xHit yHit v) =
     Vis.expl (Vis.initExpl (xHit - Vis.x v) (yHit - Vis.y v) 125 25 v) /\
     exists e : Expl.t,
       Vis.expl (Vis.explode xHit yHit v) = Some e /\
       Expl.step e = 0 /\
       Expl.xOffset e = [0; 0; 0; 0; 0] /\
       Expl.yOffset e = [0; 0; 0; 0; 0] /\
       Expl.distIncr e
         = match Vis.kind v with TestSquare => 50 | _ => 125 end /\
       Expl.lastStep e
         = match Vis.kind v with TestSquare => 50 | _ => 25 end /\
       Expl.xHitLine e
         = fst (Expl.hitCell (xHit - Vis.x v) (- Vis.extentX v)
                  (Vis.extentX v) ((Vis.extentX v - - Vis.extentX v) / 4)) /\
       Expl.yHitLine e
         = fst (Expl.hitCell (yHit - Vis.y v) (- Vis.extentY v)
                  (Vis.extentY v) ((Vis.extentY v - - Vis.extentY v) / 4)) /\
       length (Expl.xLine e) = 6%nat /\ length (Expl.yLine e) = 6%nat /\
       Spec.lane (Expl.xLine e) 0 = - Vis.extentX v /\
       Spec.lane (Expl.yLine e) 0 = - Vis.extentY v).
Proof.
  split; [|split].
  - intros E. unfold Vis.explode. now rewrite E.
  - intros x2 y2. unfold Vis.explode at 1.
    now rewrite explode_sets_flag.
  - intros E. split; [apply explode_sets_flag|].
    unfold Vis.explode. rewrite E. simpl negb. cbv iota zeta.
    split; [|split].
    + now rewrite (proj1 (proj2 (initExpl_fields _ _ _ _ _))).
    + unfold Vis.initExpl, Vis.Vis_initExpl. cbv zeta. simpl.
      destruct (Vis.kind v);
        repeat match goal with
        | |- context [Expl.hitCell ?a ?b ?c ?d] =>
            destruct (Expl.hitCell a b c d)
        end; reflexivity.
    + unfold Vis.initExpl, Vis.Vis_initExpl. cbv zeta.
      cbn [Vis.kind Vis.x Vis.y Vis.extentX Vis.extentY Vis.set_explAccum
           Vis.set_checkCollide Vis.set_isExploding].
      destruct (Vis.kind v);
        repeat match goal with
        | |- context [Expl.hitCell ?a ?b ?c ?d] =>
            destruct (Expl.hitCell a b c d)
        end;
        (eexists; split; [reflexivity|]; repeat split).
Qed.

Lemma explode_idempotent_witness :
  Vis.explode 7 9 (Vis.explode 40 (-60) (Vis.new 10 20 300))
    = Vis.explode 40 (-60) (Vis.new 10 20 300) /\
  Vis.checkCollide (Vis.explode 40 (-60) (Vis.new 10 20 300)) = false /\
  Vis.expl (Vis.explode 40 (-60) (Vis.new 10 20 300)) =
  Vis.expl (Vis.initExpl (40 - 10) (-60 - 20) 125 25 (Vis.new 10 20 300)) /\
  exists e : Expl.t,
    Vis.expl (Vis.explode 40 (-60) (Vis.new 10 20 300)) = Some e /\
    Expl.step e = 0 /\
    Expl.xOffset e = [0; 0; 0; 0; 0] /\ Expl.yOffset e = [0; 0; 0; 0; 0] /\
    Expl.distIncr e = 125 /\ Expl.lastStep e = 25 /\
    Expl.xHitLine e = 3%nat /\ Expl.yHitLine e = 1%nat /\
    Spec.lane (Expl.xLine e) 0 = - (100) /\
    Spec.lane (Expl.yLine e) 0 = - (100).
Proof.
  pose proof (explode_idempotent (Vis.new 10 20 300) 40 (-60))
    as (_ & Hsecond & Hfirst).
  split; [apply Hsecond|].
  destruct (Hfirst eq_refl)
    as (_ & Hc & He & e & E & S & Ox & Oy & D & L & Hx & Hy & _ & _ & Lx & Ly).
  split; [exact Hc|]. split; [exact He|].
  exists e. split; [exact E|]. split; [exact S|].
  split; [exact Ox|]. split; [exact Oy|].
  split; [exact D|]. split; [exact L|].
  split; [rewrite Hx; reflexivity|]. split; [rewrite Hy; reflexivity|].
  split; [exact Lx | exact Ly].
Defined.

(** What the installed record looks like for a hit at world (40, -60) on
    a default entity at (10, 20): the local hit (30, -80) falls in column
    3 and row 1 of the grid. *)
Example explode_record :
  match Vis.expl (Vis.explode 40 (-60) (Vis.new 10 20 300)) with
  | Some e =>
      Expl.xHitLine e = 3%nat /\ Expl.yHitLine e = 1%nat /\
      Expl.xOffset e = [0; 0; 0; 0; 0] /\ Expl.yOffset e = [0; 0; 0; 0; 0] /\
      Expl.distIncr e = 125 /\ Expl.lastStep e = 25 /\ Expl.step e = 0
  | None => False
  end.
Proof. vm_compute. repeat split. Qed.

(** ** The formation animation *)



Lemma incrExplTimes_expl (n : nat) (v : Vis.t) (e : Expl.t) :
  Vis.expl v = Some e ->
  Vis.expl (Spec.incrExplTimes n v) = Some (Nat.iter n Expl.advance e).
Proof.
  intros E. induction n as [|n IH]; simpl; [exact E|].
  unfold Vis.incrExpl.
  fold (Spec.incrExplTimes n v). now rewrite IH.
Qed.

Section Formation.

Variables (d lastStep : Q) (xl yl : list Q).




End Formation.




Example formation_standard_preset :
  option_map (fun e => (map Qred (Expl.xOffset e), map Qred (Expl.yOffset e)))
    (Vis.expl (Spec.incrExplTimes 15 (Vis.initForm 200 15 (Vis.new 0 0 0))))
  = Some ([6000; 0; 0; 0; 0], [6000; 0; 0; 0; 0]).
Proof. vm_compute. reflexivity. Qed.

(** ** Wrap-around of [z] *)

Lemma rem_range (a b : Q) :
  0 < b ->
  - b < Num.rem a b /\ Num.rem a b < b /\ (0 <= a -> 0 <= Num.rem a b).
Proof.
  intros Hb. unfold Num.rem, Num.trunc.
  set (q := a / b).
  assert (Eq : a == b * q) by (unfold q; field; lra).
  destruct (Qlt_le_dec q 0) as [Hq|Hq].
  - pose proof (Qle_ceiling q) as U.
    pose proof (Qceiling_lt q) as L.
    unfold Z.sub in L. rewrite inject_Z_plus, inject_Z_opp in L.
    change (inject_Z 1) with 1 in L.
    set (c := inject_Z (Qceiling q)) in *.
    assert (P1 : 0 <= b * (c - q)) by (apply Qmult_le_0_compat; lra).
    assert (P2 : 0 < b * (q + 1 - c)) by (apply Qmult_lt_0_compat; lra).
    assert (P3 : 0 < b * (- q)) by (apply Qmult_lt_0_compat; lra).
    repeat split; try intros Ha; lra.
  - pose proof (Qfloor_le q) as L.
    pose proof (Qlt_floor q) as U.
    rewrite inject_Z_plus in U. change (inject_Z 1) with 1 in U.
    set (c := inject_Z (Qfloor q)) in *.
    assert (P1 : 0 <= b * (q - c)) by (apply Qmult_le_0_compat; lra).
    assert (P2 : 0 < b * (c + 1 - q)) by (apply Qmult_lt_0_compat; lra).
    repeat split; try intros Ha; lra.
Qed.

(** The double remainder of [wrapZ] lands in [[0, len)] from any [z]. *)
Lemma wrap_range (zv len : Q) :
  0 < len ->
  0 <= Num.rem (Num.rem zv len + len) len /\
  Num.rem (Num.rem zv len + len) len < len.
Proof.
  intros Hl.
  destruct (rem_range zv len Hl) as (A & _ & _).
  destruct (rem_range (Num.rem zv len + len) len Hl) as (_ & B & C).
  split; [apply C; lra | exact B].
Qed.

Lemma incrExpl_z (v : Vis.t) : Vis.z (snd (Vis.incrExpl v)) = Vis.z v.
Proof. unfold Vis.incrExpl. destruct (Vis.expl v); reflexivity. Qed.

Lemma formLoop_z (fuel : nat) (v : Vis.t) :
  Vis.z (Vis.formLoop fuel v) = Vis.z v.
Proof.
  revert v. induction fuel as [|fuel IH]; intros v; simpl; [reflexivity|].
  destruct (Vis.formAccum v >=? 1); [|reflexivity].
  pose proof (incrExpl_z (Vis.set_formAccum (Vis.formAccum v - 1) v)) as E.
  destruct (Vis.incrExpl _) as [fin v1]. simpl in E.
  destruct fin; [simpl | rewrite IH]; exact E.
Qed.

Lemma explLoop_z (fuel : nat) (v : Vis.t) :
  Vis.z (Vis.explLoop fuel v) = Vis.z v.
Proof.
  revert v. induction fuel as [|fuel IH]; intros v; simpl; [reflexivity|].
  destruct (Vis.explAccum v >=? 1); [|reflexivity].
  pose proof (incrExpl_z (Vis.set_explAccum (Vis.explAccum v - 1) v)) as E.
  destruct (Vis.incrExpl _) as [fin v1]. simpl in E.
  destruct fin; [simpl | rewrite IH]; exact E.
Qed.

Lemma checkBounds_z (cfg : Config.t) (v : Vis.t) :
  Vis.z (Vis.checkBounds cfg v) = Vis.z v.
Proof.
  unfold Vis.checkBounds. cbv zeta.
  repeat match goal with
  | |- context [if ?c then _ else _] => destruct c
  end; reflexivity.
Qed.

Lemma Vis_update_z (cfg : Config.t) (dt : Q) (v : Vis.t) :
  Vis.z (Vis.Vis_update cfg dt v) = Vis.z v.
Proof.
  unfold Vis.Vis_update. cbv zeta.
  set (v1 := if Vis.isForming v then _ else v).
  assert (E1 : Vis.z v1 = Vis.z v).
  { subst v1. destruct (Vis.isForming v); [|reflexivity].
    now rewrite formLoop_z. }
  destruct (Vis.isExploding v1).
  - now rewrite explLoop_z.
  - destruct (_ || _); [|exact E1].
    now rewrite checkBounds_z.
Qed.

Section ZInvariant.

Variables (h : Vis.Host) (cfg : Config.t).
Let len := Config.length (Config.TUNNEL cfg).
Hypothesis len_pos : 0 < len.

Lemma wrapZ_range (v : Vis.t) :
  0 <= Vis.z (Vis.wrapZ cfg v) < len.
Proof. apply wrap_range, len_pos. Qed.

(** X12.  Every [update] other than the one of SShot leaves [z] in
    [[0, len)]: it either does not touch [z] or ends by wrapping it. *)
Lemma update_keeps_z_in_range (dt : Q) (v : Vis.t) :
  Vis.kind v <> SShot ->
  0 <= Vis.z v < len ->
  0 <= Vis.z (Vis.update h cfg dt v) < len.
Proof.
  intros K Hz. unfold Vis.update.
  destruct (Vis.kind v); try congruence.
  - now rewrite Vis_update_z.
  - unfold Vis.Cross_update. cbv zeta.
    destruct (_ || _); [now rewrite Vis_update_z | apply wrapZ_range].
  - unfold Vis.Saucer_update. cbv zeta.
    destruct (_ || _); [now rewrite Vis_update_z |].
    destruct (Vis.saucerSteer _ _ _). apply wrapZ_range.
  - unfold Vis.Aphid_update. cbv zeta.
    destruct (_ || _); [now rewrite Vis_update_z |].
    destruct (Vis.processFlocking _ _ _) as [[? ?] ?]. apply wrapZ_range.
  - unfold Vis.Blocker_update. now rewrite Vis_update_z.
  - apply wrapZ_range.
  - unfold Vis.Cross_update. cbv zeta.
    destruct (_ || _); [now rewrite Vis_update_z | apply wrapZ_range].
  - apply wrapZ_range.
  - unfold Vis.PShot_update. cbv zeta.
    destruct (_ >? _); apply wrapZ_range.
  - apply (wrap_range _ _ len_pos).
Qed.

(** The same for the player object and the shots it keeps. *)
Lemma Player_update_keeps_z_in_range (dt : Q) (p : Player.t) :
  0 <= Vis.z (Player.body (Player.update h cfg dt p)) < len.
Proof. apply (wrap_range _ _ len_pos). Qed.

End ZInvariant.

(** C2 at the input where it fails.  A saucer shot at z = 64990 flying
    forward at the speed [shootAtPlayer] gives it (50 * SPEED_FACTOR =
    25 per frame) is at z = 65015 after one 16.67 ms frame: [SShot.update]
    adds the velocity and, unlike the other subclasses, never calls
    [wrapZ]. *)
Theorem SShot_update_leaves_range (h : Vis.Host) :
  0 <= Vis.z (Vis.set_vz 25 (Vis.SShot_new 0 0 64990)) < 65000 /\
  Vis.z (Vis.update h CONFIG 16.67 (Vis.set_vz 25 (Vis.SShot_new 0 0 64990)))
    == 65015 /\
  ~ Vis.z (Vis.update h CONFIG 16.67 (Vis.set_vz 25 (Vis.SShot_new 0 0 64990)))
      < 65000.
Proof.
  split; [simpl; lra|].
  assert (E : Vis.z (Vis.update h CONFIG 16.67
                       (Vis.set_vz 25 (Vis.SShot_new 0 0 64990))) == 65015).
  { unfold Vis.update. simpl Vis.kind. cbv iota.
    unfold Vis.SShot_update. cbv zeta.
    repeat match goal with
    | |- context [if ?c then _ else _] => destruct c
    end; reflexivity. }
  split; [exact E | rewrite E; lra].
Qed.

(** ** Projection *)

(** C5.  With the eye at the origin and the constants of config.js
    (eyeToScreen 50, near 30, far 65000), the world point (0, 0, 1000)
    projected with no stereo offset is visible and lands on the centre
    of the canvas (centred coordinates 0, 0); any point at depth 10,
    below [near], is reported not visible. *)
Theorem projectPoint_scenario :
  Projection.visible
    (Projection.projectPoint CONFIG (Projection.mkEye 0 0 0) 0 0 1000 0)
    = true /\
  Projection.x
    (Projection.projectPoint CONFIG (Projection.mkEye 0 0 0) 0 0 1000 0)
    - Config.WIDTH CONFIG / 2 == 0 /\
  Projection.y
    (Projection.projectPoint CONFIG (Projection.mkEye 0 0 0) 0 0 1000 0)
    - Config.HEIGHT CONFIG / 2 == 0 /\
  (forall worldX worldY eyeOffsetX : Q,
     Projection.projectPoint CONFIG (Projection.mkEye 0 0 0)
       worldX worldY 10 eyeOffsetX
     = Projection.mkPoint 0 0 false).
Proof.
  repeat split; intros; reflexivity.
Qed.

Lemma nonzero_true (a : Q) : ~ a == 0 -> Num.nonzero a = true.
Proof.
  intros H. unfold Num.nonzero.
  destruct (Qeq_bool a 0) eqn:E; [|reflexivity].
  apply Qeq_bool_eq in E. contradiction.
Qed.

Lemma nonzero_opp (a : Q) : Num.nonzero (- a) = Num.nonzero a.
Proof.
  unfold Num.nonzero. f_equal.
  destruct (Qeq_bool a 0) eqn:E.
  - apply Qeq_bool_eq in E. apply Qeq_eq_bool. rewrite E. reflexivity.
  - destruct (Qeq_bool (- a) 0) eqn:E'; [|reflexivity].
    apply Qeq_bool_eq in E'.
    assert (A : a == 0) by lra.
    apply Qeq_eq_bool in A. congruence.
Qed.

(** In exact arithmetic: when [screenPlaneZ] is non-zero and the point
    lies at that depth, [relZ = worldZ - eyeZ = screenPlaneZ], the
    projections for the eye offsets [+o] and [-o] have the same screen
    x (and the same y and visibility). *)
Theorem projectPoint_zero_parallax (cfg : Config.t) (eye : Projection.Eye)
        (worldX worldY worldZ o : Q) :
  ~ Config.screenPlaneZ (Config.STEREO cfg) == 0 ->
  worldZ - Projection.eyeZ eye == Config.screenPlaneZ (Config.STEREO cfg) ->
  Projection.x (Projection.projectPoint cfg eye worldX worldY worldZ o)
    == Projection.x
         (Projection.projectPoint cfg eye worldX worldY worldZ (- o)) /\
  Projection.y (Projection.projectPoint cfg eye worldX worldY worldZ o)
    == Projection.y
         (Projection.projectPoint cfg eye worldX worldY worldZ (- o)) /\
  Projection.visible (Projection.projectPoint cfg eye worldX worldY worldZ o)
    = Projection.visible
        (Projection.projectPoint cfg eye worldX worldY worldZ (- o)).
Proof.
  intros Hs Hz. unfold Projection.projectPoint. cbv zeta.
  set (relZ := worldZ - Projection.eyeZ eye) in *.
  set (sp := Config.screenPlaneZ (Config.STEREO cfg)) in *.
  assert (Hr : ~ relZ == 0) by (rewrite Hz; exact Hs).
  destruct (relZ <=? _); [repeat split; reflexivity|].
  destruct (relZ >? _); [repeat split; reflexivity|].
  rewrite nonzero_opp, (nonzero_true sp Hs). simpl andb.
  destruct (Num.nonzero o) eqn:No;
    cbn [Projection.x Projection.y Projection.visible];
    repeat split; try reflexivity.
  - rewrite <- Hz. field. exact Hr.
  - assert (Ho : o == 0).
    { unfold Num.nonzero in No. apply negb_false_iff in No.
      apply Qeq_bool_eq, No. }
    rewrite Ho. field. exact Hr.
Qed.

Lemma projectPoint_zero_parallax_witness :
  Projection.x
    (Projection.projectPoint CONFIG (Projection.mkEye 0 0 1000) 300 200 6000 70)
  == Projection.x
    (Projection.projectPoint CONFIG (Projection.mkEye 0 0 1000) 300 200 6000
       (- 70)).
Proof.
  apply (projectPoint_zero_parallax CONFIG (Projection.mkEye 0 0 1000)
           300 200 6000 70).
  - simpl. lra.
  - reflexivity.
Defined.

(** Away from the screen plane the two eyes do see the point at
    different places: the witness above is not a degenerate case. *)
Example projectPoint_parallax_elsewhere :
  ~ Projection.x
      (Projection.projectPoint CONFIG (Projection.mkEye 0 0 1000) 300 200 3000 70)
    == Projection.x
      (Projection.projectPoint CONFIG (Projection.mkEye 0 0 1000) 300 200 3000
         (- 70)).
Proof. vm_compute. discriminate. Qed.

(** ** The stereo pair at the screen plane, with rounding *)

Lemma mul_step (a A d k K : Q) :
  A - d <= a <= A + d -> - K <= k <= K -> 0 <= d ->
  A * k - d * K <= a * k <= A * k + d * K.
Proof. intros H1 H2 H3. split; nra. Qed.

Lemma mul_bound (A B k K : Q) :
  - B <= A <= B -> - K <= k <= K -> - (B * K) <= A * k <= B * K.
Proof. intros H1 H2. split; nra. Qed.

Lemma inv_small (z : Q) : 1 <= z -> 0 < / z /\ / z <= 1.
Proof.
  intros H. assert (P : 0 < z) by lra.
  split; [apply Qinv_lt_0_compat; exact P|].
  assert (E : z * / z == 1) by (apply Qmult_inv_r; lra).
  pose proof (Qinv_lt_0_compat z P). nra.
Qed.

Lemma div_step (p P d z : Q) :
  P - d <= p <= P + d -> 1 <= z -> 0 <= d ->
  P / z - d <= p / z <= P / z + d.
Proof.
  intros H1 H2 H3. destruct (inv_small z H2) as [I1 I2].
  unfold Qdiv. split; nra.
Qed.

Lemma div_bound (P B z : Q) :
  - B <= P <= B -> 1 <= z -> - B <= P / z <= B.
Proof.
  intros H1 H2. destruct (inv_small z H2) as [I1 I2].
  unfold Qdiv. split; nra.
Qed.

(** One rounded operation: the result [a] of the operation on inexact
    operands is within [d] of the exact value [A]; its rounding is
    within [d + unit]. *)
Lemma rnd_step (rnd : Q -> Q) (a A d B : Q) :
  Rounded.rounds rnd ->
  A - d <= a <= A + d -> - B <= A <= B -> 0 <= d ->
  B + d <= Rounded.range ->
  A - (d + Rounded.unit) <= rnd a <= A + (d + Rounded.unit).
Proof.
  intros R H1 H2 H3 H4.
  assert (M : Qabs a <= Rounded.range) by (apply Qabs_Qle_condition; lra).
  pose proof (R a M) as E. apply Qabs_Qle_condition in E. lra.
Qed.

Section ScreenPlane.

Variables (rnd : Q -> Q) (cfg : Config.t) (eye : Projection.Eye).
Variables (worldX worldY worldZ : Q).

Let k := Config.eyeToScreen (Config.STEREO cfg).
Let sp := Config.screenPlaneZ (Config.STEREO cfg).
Let relZ := rnd (worldZ - Projection.eyeZ eye).

Hypothesis rounding : Rounded.rounds rnd.
Hypothesis k_small : Qabs k <= 64.
Hypothesis sp_large : 1 <= sp.
Hypothesis at_plane : relZ == sp.
Hypothesis not_near : Config.near (Config.TUNNEL cfg) < sp.
Hypothesis not_far : sp <= Config.far (Config.TUNNEL cfg).
Hypothesis x_small : Qabs worldX <= 65536.
Hypothesis eye_small : Qabs (Projection.eyeX eye) <= 65536.
Hypothesis width_small : 0 <= Config.WIDTH cfg <= 8192.

(** What [projectPoint] would return for [x] without rounding. *)
Let exactX (o : Q) : Q :=
  (worldX - Projection.eyeX eye - o) * k / relZ
  + (if Num.nonzero sp && Num.nonzero o then o * k / sp else 0)
  + Config.WIDTH cfg / 2.

Lemma rounded_x_close (o : Q) :
  Qabs o <= 256 ->
  Projection.visible
    (Rounded.projectPoint rnd cfg eye worldX worldY worldZ o) = true /\
  exactX o - 135 * Rounded.unit
    <= Projection.x (Rounded.projectPoint rnd cfg eye worldX worldY worldZ o)
    <= exactX o + 135 * Rounded.unit.
Proof.
  intros Ho. unfold Rounded.projectPoint. cbv zeta. fold relZ k sp.
  destruct (leb_spec relZ (Config.near (Config.TUNNEL cfg))) as [N|N];
    [exfalso; lra|].
  destruct (ltb_spec (Config.far (Config.TUNNEL cfg)) relZ) as [F|F];
    [exfalso; lra|].
  cbn [Projection.visible Projection.x]. split; [reflexivity|].
  apply Qabs_Qle_condition in Ho, k_small, x_small, eye_small.
  assert (Zr : 1 <= relZ) by lra.
  unfold exactX.
  set (X0 := worldX - Projection.eyeX eye).
  set (e := Rounded.unit).
  assert (Ee : e == 1 # 1073741824) by reflexivity.
  assert (Eu : Rounded.unit == 1 # 1073741824) by reflexivity.
  assert (Er : Rounded.range == 16777216) by reflexivity.
  (* worldX - eyeX *)
  assert (S1 : X0 - (0 + e) <= rnd X0 <= X0 + (0 + e)).
  { apply (rnd_step rnd X0 X0 0 131072 rounding); subst X0; lra. }
  (* ... - eyeOffsetX *)
  assert (S2 : (X0 - o) - (e + e) <= rnd (rnd X0 - o) <= (X0 - o) + (e + e)).
  { apply (rnd_step rnd _ (X0 - o) e 131328 rounding); subst X0; lra. }
  (* ... * eyeToScreen *)
  assert (B3 : - (131328 * 64) <= (X0 - o) * k <= 131328 * 64).
  { apply mul_bound; subst X0; lra. }
  assert (S3 : (X0 - o) * k - ((e + e) * 64 + e)
               <= rnd (rnd (rnd X0 - o) * k)
               <= (X0 - o) * k + ((e + e) * 64 + e)).
  { apply (rnd_step rnd _ _ _ (131328 * 64) rounding).
    - apply mul_step; lra.
    - exact B3.
    - lra.
    - lra. }
  (* ... / relZ *)
  assert (B4 : - (131328 * 64) <= (X0 - o) * k / relZ <= 131328 * 64).
  { apply div_bound; [exact B3 | exact Zr]. }
  assert (S4 : (X0 - o) * k / relZ - (((e + e) * 64 + e) + e)
               <= rnd (rnd (rnd (rnd X0 - o) * k) / relZ)
               <= (X0 - o) * k / relZ + (((e + e) * 64 + e) + e)).
  { apply (rnd_step rnd _ _ _ (131328 * 64) rounding).
    - apply div_step; [exact S3 | exact Zr | lra].
    - exact B4.
    - lra.
    - lra. }
  set (q := rnd (rnd (rnd (rnd X0 - o) * k) / relZ)) in *.
  set (Q4 := (X0 - o) * k / relZ) in *.
  (* CONFIG.WIDTH / 2 *)
  assert (SH : Config.WIDTH cfg / 2 - (0 + e)
               <= rnd (Config.WIDTH cfg / 2)
               <= Config.WIDTH cfg / 2 + (0 + e)).
  { apply (rnd_step rnd _ _ 0 4096 rounding); qlra. }
  assert (BH : 0 <= Config.WIDTH cfg / 2 <= 4096) by qlra.
  set (h := rnd (Config.WIDTH cfg / 2)) in *.
  destruct (Num.nonzero sp && Num.nonzero o).
  - (* the parallax term *)
    assert (B5 : - (256 * 64) <= o * k <= 256 * 64)
      by (apply mul_bound; lra).
    assert (S5 : o * k - (0 + e) <= rnd (o * k) <= o * k + (0 + e)).
    { apply (rnd_step rnd _ _ 0 (256 * 64) rounding); lra. }
    assert (B6 : - (256 * 64) <= o * k / sp <= 256 * 64)
      by (apply div_bound; [exact B5 | exact sp_large]).
    assert (S6 : o * k / sp - ((0 + e) + e)
                 <= rnd (rnd (o * k) / sp)
                 <= o * k / sp + ((0 + e) + e)).
    { apply (rnd_step rnd _ _ _ (256 * 64) rounding).
      - apply div_step; [exact S5 | exact sp_large | lra].
      - exact B6.
      - lra.
      - lra. }
    set (t := rnd (rnd (o * k) / sp)) in *.
    set (T6 := o * k / sp) in *.
    assert (S7 : (Q4 + T6) - (133 * e) <= rnd (q + t) <= (Q4 + T6) + 133 * e).
    { pose proof (rnd_step rnd (q + t) (Q4 + T6) (132 * e)
                    (131328 * 64 + 256 * 64) rounding) as P.
      lapply P; [clear P; intros P | lra].
      lapply P; [clear P; intros P | lra].
      lapply P; [clear P; intros P | lra].
      lapply P; [clear P; intros P | lra].
      lra. }
    pose proof (rnd_step rnd (rnd (q + t) + h)
                  (Q4 + T6 + Config.WIDTH cfg / 2) (134 * e)
                  (131328 * 64 + 256 * 64 + 4096) rounding) as P.
    lapply P; [clear P; intros P | lra].
    lapply P; [clear P; intros P | lra].
    lapply P; [clear P; intros P | lra].
    lapply P; [clear P; intros P | lra].
    lra.
  - pose proof (rnd_step rnd (q + h)
                  (Q4 + Config.WIDTH cfg / 2) (131 * e)
                  (131328 * 64 + 4096) rounding) as P.
    lapply P; [clear P; intros P | lra].
    lapply P; [clear P; intros P | lra].
    lapply P; [clear P; intros P | lra].
    lapply P; [clear P; intros P | lra].
    lra.
Qed.

End ScreenPlane.

(** The claim of C6 in the arithmetic of the program.  The point
    (18845, 0, 5000) seen from the origin is at the screen-plane depth of
    config.js, [relZ = 5000 = screenPlaneZ], and visible; for the eye
    offsets 70 and -70 [projectPoint] returns two different doubles for
    [x] (508.45 and 508.45000000000005): the quotient [70 * 50 / 5000]
    is not a binary fraction, and the two sums round differently. *)
Theorem projectPoint_parallax_last_place :
  (5000 - Binary64.eyeZ (Binary64.mkEye 0 0 0)
     =? Binary64.screenPlaneZ Binary64.CONFIG)%float = true /\
  Binary64.visible
    (Binary64.projectPoint Binary64.CONFIG (Binary64.mkEye 0 0 0)
       18845 0 5000 70) = true /\
  Binary64.visible
    (Binary64.projectPoint Binary64.CONFIG (Binary64.mkEye 0 0 0)
       18845 0 5000 (-70)) = true /\
  (Binary64.x
     (Binary64.projectPoint Binary64.CONFIG (Binary64.mkEye 0 0 0)
        18845 0 5000 70)
   =? Binary64.x
        (Binary64.projectPoint Binary64.CONFIG (Binary64.mkEye 0 0 0)
           18845 0 5000 (-70)))%float = false.
Proof. vm_compute. repeat split. Qed.

Lemma rounded_exact (rnd : Q -> Q) (cfg : Config.t) (eye : Projection.Eye)
      (worldX worldY worldZ o : Q) :
  (forall x : Q, rnd x = x) ->
  Rounded.projectPoint rnd cfg eye worldX worldY worldZ o =
  Projection.projectPoint cfg eye worldX worldY worldZ o.
Proof.
  intros H. unfold Rounded.projectPoint, Projection.projectPoint.
  now rewrite !H.
Qed.

(** C6 (amended).  A point at the screen-plane depth, within the
    visible range, is visible to both eyes with the same [y], and the
    two [x] agree up to the rounding of the arithmetic: when every
    operation rounds as binary64 does, with [|eyeToScreen| <= 64],
    [screenPlaneZ >= 1], coordinates within [2^16], eye offsets within
    [2^8] and a canvas at most [2^13] wide, the two [x] differ by at
    most [270 * 2^-30] (less than 3e-7 of a pixel); with no rounding
    at all they are equal. *)
Theorem projectPoint_parallax_within_rounding
        (rnd : Q -> Q) (cfg : Config.t) (eye : Projection.Eye)
        (worldX worldY worldZ o : Q) :
  Rounded.rounds rnd ->
  Qabs (Config.eyeToScreen (Config.STEREO cfg)) <= 64 ->
  1 <= Config.screenPlaneZ (Config.STEREO cfg) ->
  rnd (worldZ - Projection.eyeZ eye)
    == Config.screenPlaneZ (Config.STEREO cfg) ->
  Config.near (Config.TUNNEL cfg) < Config.screenPlaneZ (Config.STEREO cfg) ->
  Config.screenPlaneZ (Config.STEREO cfg) <= Config.far (Config.TUNNEL cfg) ->
  Qabs worldX <= 65536 -> Qabs (Projection.eyeX eye) <= 65536 ->
  0 <= Config.WIDTH cfg <= 8192 ->
  Qabs o <= 256 ->
  Projection.visible
    (Rounded.projectPoint rnd cfg eye worldX worldY worldZ o) = true /\
  Projection.visible
    (Rounded.projectPoint rnd cfg eye worldX worldY worldZ (- o)) = true /\
  Projection.y (Rounded.projectPoint rnd cfg eye worldX worldY worldZ o)
    = Projection.y
        (Rounded.projectPoint rnd cfg eye worldX worldY worldZ (- o)) /\
  Qabs (Projection.x (Rounded.projectPoint rnd cfg eye worldX worldY worldZ o)
        - Projection.x
            (Rounded.projectPoint rnd cfg eye worldX worldY worldZ (- o)))
    <= 270 * Rounded.unit /\
  ((forall x : Q, rnd x = x) ->
   Projection.x (Rounded.projectPoint rnd cfg eye worldX worldY worldZ o)
   == Projection.x
        (Rounded.projectPoint rnd cfg eye worldX worldY worldZ (- o))).
Proof.
  intros R Hk Hs Hz Hn Hf Hx He Hw Ho.
  assert (Ho' : Qabs (- o) <= 256) by (rewrite Qabs_opp; exact Ho).
  destruct (rounded_x_close rnd cfg eye worldX worldY worldZ
              R Hk Hs Hz Hn Hf Hx He Hw o Ho) as (V1 & X1).
  destruct (rounded_x_close rnd cfg eye worldX worldY worldZ
              R Hk Hs Hz Hn Hf Hx He Hw (- o) Ho') as (V2 & X2).
  split; [exact V1|]. split; [exact V2|].
  split; [|split].
  - unfold Rounded.projectPoint. cbv zeta.
    destruct (_ <=? _); [reflexivity|].
    destruct (_ >? _); reflexivity.
  - set (sp := Config.screenPlaneZ (Config.STEREO cfg)) in *.
    set (relZ := rnd (worldZ - Projection.eyeZ eye)) in *.
    set (k := Config.eyeToScreen (Config.STEREO cfg)) in *.
    assert (Zr : ~ relZ == 0) by lra.
    assert (Zs : ~ sp == 0) by lra.
    assert (E : (worldX - Projection.eyeX eye - o) * k / relZ
                + (if Num.nonzero sp && Num.nonzero o
                   then o * k / sp else 0)
                == (worldX - Projection.eyeX eye - - o) * k / relZ
                   + (if Num.nonzero sp && Num.nonzero (- o)
                      then - o * k / sp else 0)).
    { rewrite nonzero_opp, (nonzero_true sp Zs). cbn [andb].
      destruct (Num.nonzero o) eqn:No.
      - rewrite <- Hz. field. exact Zr.
      - assert (O : o == 0).
        { unfold Num.nonzero in No. apply negb_false_iff in No.
          apply Qeq_bool_eq, No. }
        rewrite O. field. exact Zr. }
    assert (Eu : Rounded.unit == 1 # 1073741824) by reflexivity.
    apply Qabs_Qle_condition. lra.
  - intros H. rewrite !(rounded_exact rnd _ _ _ _ _ _ H).
    rewrite H in Hz.
    apply (projectPoint_zero_parallax cfg eye worldX worldY worldZ o);
      [lra | exact Hz].
Qed.


Lemma toGrid_rounds : Rounded.rounds Rounded.toGrid.
Proof.
  intros x _. unfold Rounded.toGrid, Rounded.unit.
  set (y := x * 1073741824 + (1 # 2)).
  pose proof (Qfloor_le y) as L. pose proof (Qlt_floor y) as U.
  rewrite inject_Z_plus in U. change (inject_Z 1) with 1 in U.
  set (F := inject_Z (Qfloor y)) in *. subst y.
  apply Qabs_Qle_condition. qlra.
Qed.

Lemma projectPoint_parallax_within_rounding_witness :
  Projection.visible
    (Rounded.projectPoint Rounded.toGrid CONFIG (Projection.mkEye 0 0 1000)
       300 200 6000 70) = true /\
  Projection.visible
    (Rounded.projectPoint Rounded.toGrid CONFIG (Projection.mkEye 0 0 1000)
       300 200 6000 (- (70))) = true /\
  Projection.y
    (Rounded.projectPoint Rounded.toGrid CONFIG (Projection.mkEye 0 0 1000)
       300 200 6000 70)
    = Projection.y
        (Rounded.projectPoint Rounded.toGrid CONFIG (Projection.mkEye 0 0 1000)
           300 200 6000 (- (70))) /\
  Qabs (Projection.x
          (Rounded.projectPoint Rounded.toGrid CONFIG
             (Projection.mkEye 0 0 1000) 300 200 6000 70)
        - Projection.x
            (Rounded.projectPoint Rounded.toGrid CONFIG
               (Projection.mkEye 0 0 1000) 300 200 6000 (- (70))))
    <= 270 * Rounded.unit /\
  ((forall x : Q, Rounded.toGrid x = x) ->
   Projection.x
     (Rounded.projectPoint Rounded.toGrid CONFIG (Projection.mkEye 0 0 1000)
        300 200 6000 70)
   == Projection.x
        (Rounded.projectPoint Rounded.toGrid CONFIG (Projection.mkEye 0 0 1000)
           300 200 6000 (- (70)))).
Proof.
  apply (projectPoint_parallax_within_rounding Rounded.toGrid CONFIG
           (Projection.mkEye 0 0 1000) 300 200 6000 70).
  - exact toGrid_rounds.
  - discriminate.
  - discriminate.
  - reflexivity.
  - reflexivity.
  - discriminate.
  - discriminate.
  - discriminate.
  - split; discriminate.
  - discriminate.
Defined.

(** ** The draw pass *)

Section DrawPass.

Variables (cfg : Config.t) (playerZ : Q).
Let relZ := Vis.getZFromPlayer cfg playerZ.
Let compare := Tunnel.farToNear cfg playerZ.
Let R := Spec.notFarther cfg playerZ.

Lemma insertBy_perm (a : Vis.t) (l : list Vis.t) :
  Permutation (Tunnel.insertBy compare a l) (a :: l).
Proof.
  induction l as [|b l IH]; simpl; [apply Permutation_refl|].
  destruct (compare a b >? 0).
  - apply perm_trans with (b :: a :: l); [now apply perm_skip | apply perm_swap].
  - apply Permutation_refl.
Qed.

Lemma sortBy_perm (l : list Vis.t) :
  Permutation (Tunnel.sortBy compare l) l.
Proof.
  induction l as [|a l IH]; simpl; [apply perm_nil|].
  apply perm_trans with (a :: Tunnel.sortBy compare l);
    [apply insertBy_perm | now apply perm_skip].
Qed.

Lemma notFarther_trans (a b c : Vis.t) : R a b -> R b c -> R a c.
Proof. unfold R, Spec.notFarther. intros; lra. Qed.

Lemma insertBy_sorted (a : Vis.t) (l : list Vis.t) :
  StronglySorted R l -> StronglySorted R (Tunnel.insertBy compare a l).
Proof.
  induction 1 as [|b l Hl IH Hb]; simpl.
  - constructor; constructor.
  - unfold compare at 1, Tunnel.farToNear. fold relZ.
    destruct (ltb_spec 0 (relZ b - relZ a)) as [Hgt|Hle].
    + constructor; [exact IH|].
      eapply Permutation_Forall.
      * symmetry. apply insertBy_perm.
      * constructor; [|exact Hb].
        unfold R, Spec.notFarther. fold relZ. lra.
    + constructor; [now constructor|].
      assert (Rab : R a b) by (unfold R, Spec.notFarther; fold relZ; lra).
      constructor; [exact Rab|].
      eapply Forall_impl; [|exact Hb].
      intros c Hc. exact (notFarther_trans a b c Rab Hc).
Qed.

Lemma sortBy_sorted (l : list Vis.t) :
  StronglySorted R (Tunnel.sortBy compare l).
Proof.
  induction l as [|a l IH]; simpl; [constructor|].
  now apply insertBy_sorted.
Qed.

Lemma filter_sorted (f : Vis.t -> bool) (l : list Vis.t) :
  StronglySorted R l -> StronglySorted R (filter f l).
Proof.
  induction 1 as [|a l Hl IH Ha]; simpl; [constructor|].
  destruct (f a); [|exact IH].
  constructor; [exact IH|].
  apply Forall_forall. intros b Hb.
  apply filter_In in Hb as [Hb _].
  rewrite Forall_forall in Ha. now apply Ha.
Qed.

Lemma filter_perm (f : Vis.t -> bool) (l l' : list Vis.t) :
  Permutation l l' -> Permutation (filter f l) (filter f l').
Proof.
  induction 1 as [|a l l' H IH|a b l|l l' l'' H1 IH1 H2 IH2]; simpl.
  - apply perm_nil.
  - destruct (f a); [now apply perm_skip | exact IH].
  - destruct (f a), (f b);
      (apply perm_swap || apply Permutation_refl).
  - now apply perm_trans with (filter f l').
Qed.

(** The objects handed to [draw] by a loop over [l] are the members of
    [l] inside the window, in the order of [l]. *)
Lemma drawIfAhead_filter (l : list Vis.t) :
  map Tunnel.drawn (flat_map (Tunnel.drawIfAhead cfg playerZ) l)
  = filter (Spec.ahead cfg playerZ) l.
Proof.
  induction l as [|a l IH]; simpl; [reflexivity|].
  rewrite map_app, IH.
  unfold Tunnel.drawIfAhead, Spec.ahead. cbv zeta.
  destruct (_ && _); reflexivity.
Qed.

Lemma ahead_iff (obj : Vis.t) :
  Spec.ahead cfg playerZ obj = true <->
  Config.near (Config.TUNNEL cfg) < relZ obj /\
  relZ obj < Config.far (Config.TUNNEL cfg).
Proof.
  unfold Spec.ahead. fold relZ. rewrite andb_true_iff.
  split; intros [H1 H2].
  - destruct (ltb_spec (Config.near (Config.TUNNEL cfg)) (relZ obj));
      [|discriminate H1].
    destruct (ltb_spec (relZ obj) (Config.far (Config.TUNNEL cfg)));
      [|discriminate H2].
    now split.
  - split; [destruct (ltb_spec (Config.near (Config.TUNNEL cfg)) (relZ obj))
           | destruct (ltb_spec (relZ obj) (Config.far (Config.TUNNEL cfg)))];
      (reflexivity || contradiction).
Qed.

End DrawPass.

(** What [drawObjects] issues when there is a player: the sorted pass
    over [objects] followed by the pass over the player's shots. *)
Lemma drawObjects_calls (cfg : Config.t) (tn : Tunnel.t) (p : Player.t) :
  Tunnel.player tn = Some p ->
  exists eye,
    Tunnel.drawObjects cfg tn =
    Some (eye,
          Tunnel.drawSorted cfg (Vis.z (Player.body p)) (Tunnel.objects tn) ++
          flat_map (Tunnel.drawIfAhead cfg (Vis.z (Player.body p)))
                   (Player.shots p)).
Proof.
  intros E. unfold Tunnel.drawObjects. rewrite E. eexists. reflexivity.
Qed.

(** An object exactly [near] = 30 ahead of the player is inside
    [[near, far)] and is not drawn. *)
Lemma draw_window_excludes_near :
  ~ (In (Vis.new 0 0 30)
        (map Tunnel.drawn (Tunnel.drawSorted CONFIG 0 [Vis.new 0 0 30]))
     <->
     30 <= Vis.getZFromPlayer CONFIG 0 (Vis.new 0 0 30) /\
     Vis.getZFromPlayer CONFIG 0 (Vis.new 0 0 30) < 65000).
Proof.
  intros [_ H]. apply H. split; vm_compute; congruence.
Qed.

(** C7 (amended).  The draw pass hands the tunnel's objects to [draw]
    from the farthest to the nearest in periodic distance from the
    player, and an object is drawn if and only if its periodic relative
    depth lies strictly between [near] and [far]:
    [near < relZ < far]. *)
Theorem drawSorted_far_to_near_window (cfg : Config.t) (playerZ : Q)
        (objs : list Vis.t) :
  StronglySorted (Spec.notFarther cfg playerZ)
    (map Tunnel.drawn (Tunnel.drawSorted cfg playerZ objs)) /\
  Permutation (map Tunnel.drawn (Tunnel.drawSorted cfg playerZ objs))
              (filter (Spec.ahead cfg playerZ) objs) /\
  (forall obj : Vis.t,
     In obj (map Tunnel.drawn (Tunnel.drawSorted cfg playerZ objs)) <->
     In obj objs /\
     Config.near (Config.TUNNEL cfg) < Vis.getZFromPlayer cfg playerZ obj /\
     Vis.getZFromPlayer cfg playerZ obj < Config.far (Config.TUNNEL cfg)).
Proof.
  unfold Tunnel.drawSorted. rewrite drawIfAhead_filter.
  split; [|split].
  - apply filter_sorted, sortBy_sorted.
  - apply filter_perm, sortBy_perm.
  - intros obj. rewrite filter_In, ahead_iff.
    split; intros [Hin Hw]; (split; [|exact Hw]).
    + eapply Permutation_in; [apply sortBy_perm | exact Hin].
    + eapply Permutation_in; [symmetry; apply sortBy_perm | exact Hin].
Qed.

(** Three objects 500, 20000 and 30 ahead of a player at z = 64000 (the
    first two across the wrap point): the farthest is drawn first and
    the one at [near] is left out. *)
Example drawSorted_three :
  map (fun c => Qred (Tunnel.drawZ c))
      (Tunnel.drawSorted CONFIG 64000
         [Vis.new 0 0 64500; Vis.new 0 0 19000; Vis.new 0 0 64030])
  = [84000; 64500].
Proof. vm_compute. reflexivity. Qed.

(** ** The bounded loops run to their own exit *)

(** Five rounds are all the search loop of [initExpl] can make from
    [i = 0]: more fuel changes nothing. *)
Lemma findLine_fuel (fuel : nat) (hit quarter look : Q) (i : nat) :
  (5 <= fuel + i)%nat ->
  Expl.findLine (S fuel) hit quarter look i
  = Expl.findLine fuel hit quarter look i.
Proof.
  revert look i. induction fuel as [|fuel IH]; intros look i Hf.
  - simpl. destruct (Nat.leb_spec i 4); [lia|].
    now rewrite andb_false_r.
  - change (Expl.findLine (S (S fuel)) hit quarter look i)
      with (if (hit >? look + quarter) && (i <=? 4)%nat
            then Expl.findLine (S fuel) hit quarter (look + quarter) (S i)
            else (i, look)).
    rewrite IH by lia. reflexivity.
Qed.

Lemma incrExpl_accum (v : Vis.t) :
  Vis.formAccum (snd (Vis.incrExpl v)) = Vis.formAccum v /\
  Vis.explAccum (snd (Vis.incrExpl v)) = Vis.explAccum v.
Proof. unfold Vis.incrExpl. destruct (Vis.expl v); split; reflexivity. Qed.

(** [rounds accum] rounds are enough: the formation loop stops because
    its guard fails or because the animation finished, never for lack
    of fuel. *)
Lemma formLoop_exit (fuel : nat) (v : Vis.t) :
  Vis.formAccum v < inject_Z (Z.of_nat fuel) + 1 ->
  Vis.formAccum (Vis.formLoop fuel v) < 1 \/
  (Vis.isForming (Vis.formLoop fuel v) = false /\
   Vis.expl (Vis.formLoop fuel v) = None).
Proof.
  revert v. induction fuel as [|fuel IH]; intros v Hv.
  - left. change (inject_Z (Z.of_nat 0)) with 0 in Hv.
    simpl Vis.formLoop. lra.
  - simpl Vis.formLoop.
    destruct (leb_spec 1 (Vis.formAccum v)) as [Hge|Hlt]; [|left; lra].
    pose proof (proj1 (incrExpl_accum
                         (Vis.set_formAccum (Vis.formAccum v - 1) v))) as E.
    destruct (Vis.incrExpl _) as [fin v1]. simpl in E.
    destruct fin; [right; split; reflexivity|].
    apply IH. rewrite E.
    rewrite Nat2Z.inj_succ, <- Z.add_1_r, inject_Z_plus in Hv.
    change (inject_Z 1) with 1 in Hv. lra.
Qed.

Lemma rounds_enough (accum : Q) :
  accum < inject_Z (Z.of_nat (Vis.rounds accum)) + 1.
Proof.
  unfold Vis.rounds.
  pose proof (Qlt_floor accum) as U.
  rewrite inject_Z_plus in U. change (inject_Z 1) with 1 in U.
  destruct (Z.le_gt_cases 0 (Qfloor accum)) as [Hp|Hn].
  - now rewrite Z2Nat.id.
  - replace (Z.to_nat (Qfloor accum)) with 0%nat by lia.
    change (inject_Z (Z.of_nat 0)) with 0.
    assert (inject_Z (Qfloor accum) <= -1).
    { change (-1) with (inject_Z (-1)). rewrite <- Zle_Qle. lia. }
    lra.
Qed.



(** The player's shots are drawn after the sorted objects, in the order
    of [player.shots], under the same window test: here a shot 5000
    ahead follows an object 1000 ahead. *)
Example drawObjects_shots_last :
  option_map (fun r => map (fun c => (Vis.kind (Tunnel.drawn c),
                                      Qred (Tunnel.drawZ c))) (snd r))
    (Tunnel.drawObjects CONFIG
       (Tunnel.mk [Vis.new 0 0 1000]
          (Some (Player.mk (Vis.Player_new CONFIG)
                   [Vis.PShot_new CONFIG 0 0 5000] 100 0))))
  = Some [(KVis, 1000); (PShot, 5000)].
Proof. vm_compute. reflexivity. Qed.

(* ================================================================== *)
(** * Further properties of the code *)

(** ** The explosion animation *)

Lemma inject_nat_succ (k : nat) :
  inject_Z (Z.of_nat (S k)) == inject_Z (Z.of_nat k) + 1.
Proof. rewrite Nat2Z.inj_succ, <- Z.add_1_r, inject_Z_plus. reflexivity. Qed.


Section Explosion.

Variable e0 : Expl.t.
Hypothesis hx : (Expl.xHitLine e0 <= 4)%nat.
Hypothesis hy : (Expl.yHitLine e0 <= 4)%nat.
Hypothesis x0 : Expl.xOffset e0 = [0; 0; 0; 0; 0].
Hypothesis y0 : Expl.yOffset e0 = [0; 0; 0; 0; 0].



End Explosion.


Lemma Vis_initExpl_record (xh yh d n : Q) (v : Vis.t) :
  exists e,
    Vis.expl (Vis.Vis_initExpl xh yh d n v) = Some e /\
    Expl.xOffset e = [0; 0; 0; 0; 0] /\ Expl.yOffset e = [0; 0; 0; 0; 0] /\
    Expl.distIncr e = d /\ Expl.lastStep e = n /\ Expl.step e = 0 /\
    (Expl.xHitLine e, Expl.xLine e) =
      (fst (Expl.hitCell xh (- Vis.extentX v) (Vis.extentX v)
              ((Vis.extentX v - - Vis.extentX v) / 4)),
       Expl.gridLines (- Vis.extentX v)
         (- Vis.extentX v +
          snd (Expl.hitCell xh (- Vis.extentX v) (Vis.extentX v)
                 ((Vis.extentX v - - Vis.extentX v) / 4)))
         ((Vis.extentX v - - Vis.extentX v) / 4)) /\
    (Expl.yHitLine e, Expl.yLine e) =
      (fst (Expl.hitCell yh (- Vis.extentY v) (Vis.extentY v)
              ((Vis.extentY v - - Vis.extentY v) / 4)),
       Expl.gridLines (- Vis.extentY v)
         (- Vis.extentY v +
          snd (Expl.hitCell yh (- Vis.extentY v) (Vis.extentY v)
                 ((Vis.extentY v - - Vis.extentY v) / 4)))
         ((Vis.extentY v - - Vis.extentY v) / 4)).
Proof.
  unfold Vis.Vis_initExpl. cbv zeta.
  destruct (Expl.hitCell xh _ _ _) as [hxl xo].
  destruct (Expl.hitCell yh _ _ _) as [hyl yo].
  eexists. split; [reflexivity|]. simpl. repeat split.
Qed.

Lemma quarter_facts (ext : Q) :
  0 < ext ->
  0 < (ext - - ext) / 4 /\ ext == - ext + 4 * ((ext - - ext) / 4).
Proof. intros H. split; [qlra | field]. Qed.

Lemma initExpl_dispatch (xh yh d n : Q) (v : Vis.t) :
  exists d' n',
    Vis.initExpl xh yh d n v = Vis.Vis_initExpl xh yh d' n' v /\
    (Vis.kind v <> TestSquare -> d' = d /\ n' = n).
Proof.
  unfold Vis.initExpl.
  destruct (Vis.kind v);
    try (exists d, n; split; [reflexivity | intros _; split; reflexivity]).
  exists 50, 50. split; [reflexivity | intros K; contradiction K; reflexivity].
Qed.



(** The witness in numbers: hit line 3 in x, so lane 4 is one lane out
    and ends at 25 * 125 * 2; hit line 1 in y, so lane 4 is three lanes
    out and ends at 25 * 125 * 8. *)
Example explosion_lane4 :
  option_map (fun e => (Qred (Spec.lane (Expl.xOffset e) 4),
                        Qred (Spec.lane (Expl.yOffset e) 4)))
    (Vis.expl (Spec.incrExplTimes 25
                 (Vis.initExpl 30 (-80) 125 25 (Vis.new 10 20 300))))
  = Some (6250, 25000).
Proof. vm_compute. reflexivity. Qed.

Lemma iter_advance_steps (k : nat) (e : Expl.t) :
  Expl.step (Nat.iter k Expl.advance e)
    == Expl.step e + inject_Z (Z.of_nat k) /\
  Expl.lastStep (Nat.iter k Expl.advance e) = Expl.lastStep e.
Proof.
  induction k as [|k [IH1 IH2]].
  - split; [|reflexivity]. simpl. change (inject_Z 0) with 0. ring.
  - rewrite Nat.iter_succ. split; [|exact IH2].
    change (Expl.step (Expl.advance (Nat.iter k Expl.advance e)))
      with (Expl.step (Nat.iter k Expl.advance e) + 1).
    rewrite IH1, inject_nat_succ. ring.
Qed.

Lemma inject_nat_le (a b : nat) :
  inject_Z (Z.of_nat a) <= inject_Z (Z.of_nat b) <-> (a <= b)%nat.
Proof. rewrite <- Zle_Qle. lia. Qed.

(** X2.  [incrExpl] counts its calls: on a record at step [s] with
    [lastStep = n], the call number [k + 1] returns [true] exactly when
    it brings the step counter to [n] or beyond, [n <= s + k + 1]; the
    calls before that return [false]. *)
Theorem incrExpl_finishes_on_time (v : Vis.t) (e : Expl.t) (s n k : nat) :
  Vis.expl v = Some e ->
  Expl.step e == inject_Z (Z.of_nat s) ->
  Expl.lastStep e == inject_Z (Z.of_nat n) ->
  fst (Vis.incrExpl (Spec.incrExplTimes k v)) = (n <=? s + k + 1)%nat.
Proof.
  intros E Hs Hn.
  unfold Vis.incrExpl. rewrite (incrExplTimes_expl k v e E).
  cbv zeta. cbn [fst]. unfold Expl.finished.
  destruct (iter_advance_steps (S k) e) as [S1 S2].
  rewrite Nat.iter_succ in S1, S2.
  assert (T : Expl.step e + inject_Z (Z.of_nat (S k))
              == inject_Z (Z.of_nat (s + k + 1))).
  { rewrite Hs, <- inject_Z_plus. apply inject_Z_injective. lia. }
  destruct (leb_spec (Expl.lastStep (Expl.advance (Nat.iter k Expl.advance e)))
                     (Expl.step (Expl.advance (Nat.iter k Expl.advance e))))
    as [L|L]; rewrite S1, S2, T, Hn in L; symmetry.
  - apply Nat.leb_le, inject_nat_le, L.
  - apply Nat.leb_gt. apply Nat.lt_nge. intros C.
    apply L, inject_nat_le, C.
Qed.

Lemma incrExpl_finishes_on_time_witness :
  fst (Vis.incrExpl (Spec.incrExplTimes 24
                       (Vis.explode 40 (-60) (Vis.new 10 20 300))))
  = (25 <=? 0 + 24 + 1)%nat.
Proof.
  refine (incrExpl_finishes_on_time
            (Vis.explode 40 (-60) (Vis.new 10 20 300))
            (match Vis.expl (Vis.explode 40 (-60) (Vis.new 10 20 300)) with
             | Some e => e
             | None => Expl.mk [] [] [] [] 0 0 0 0 0
             end)
            0 25 24 _ _ _).
  - vm_compute. reflexivity.
  - reflexivity.
  - reflexivity.
Defined.

(** The call before, number 24, still returns [false]. *)
Example incrExpl_not_before :
  fst (Vis.incrExpl (Spec.incrExplTimes 23
                       (Vis.explode 40 (-60) (Vis.new 10 20 300)))) = false.
Proof. vm_compute. reflexivity. Qed.

(** ** The grid [initExpl] lays over the entity *)

Lemma findLine_spec (fuel : nat) (hit quarter lo look : Q) (i : nat) :
  0 < quarter -> hit < lo + 4 * quarter ->
  look == lo + inject_Z (Z.of_nat i) * quarter -> (i <= 3)%nat ->
  look < hit -> (4 <= fuel + i)%nat ->
  (fst (Expl.findLine fuel hit quarter look i) <= 3)%nat /\
  snd (Expl.findLine fuel hit quarter look i)
    == lo + inject_Z (Z.of_nat (fst (Expl.findLine fuel hit quarter look i)))
            * quarter /\
  snd (Expl.findLine fuel hit quarter look i) < hit /\
  hit <= snd (Expl.findLine fuel hit quarter look i) + quarter.
Proof.
  intros Hq Hh. revert look i.
  induction fuel as [|fuel IH]; intros look i Hl Hi Hlt Hf; [lia|].
  simpl.
  destruct (ltb_spec (look + quarter) hit) as [Hgt|Hle]; simpl;
    [|repeat split; try assumption; lra].
  destruct (Nat.leb_spec i 4); simpl; [|lia].
  pose proof (inject_nat_succ i) as T.
  assert (Hi' : (S i <= 3)%nat).
  { destruct (Nat.le_gt_cases (S i) 3) as [L|G]; [exact L|exfalso].
    assert (i = 3%nat) by lia. subst i.
    change (inject_Z (Z.of_nat 3)) with 3 in Hl. lra. }
  apply IH; [rewrite T, Hl; ring | exact Hi' | exact Hgt | lia].
Qed.

(** One axis of [initExpl] on a positive extent: the hit line is in
    0..4, the first cell is at most a quarter wide and not empty, and
    grid line number [hitLine] passes through the hit point moved into
    the extent. *)
Lemma axis_grid (hit ext : Q) :
  0 < ext ->
  let quarter := (ext - - ext) / 4 in
  let hc := Expl.hitCell hit (- ext) ext quarter in
  (fst hc <= 4)%nat /\ 0 < snd hc /\ snd hc <= quarter /\
  Spec.lane (Expl.gridLines (- ext) (- ext + snd hc) quarter) (fst hc)
    == Grid.clamp (- ext) ext hit.
Proof.
  intros He. cbv zeta.
  destruct (quarter_facts ext He) as (Hq & Hr).
  set (quarter := (ext - - ext) / 4) in *.
  unfold Expl.hitCell, Grid.clamp.
  destruct (leb_spec ext hit) as [H1|H1].
  - simpl; repeat split; try lia; try lra; unfold Spec.lane; simpl; lra.
  - destruct (leb_spec hit (- ext)) as [H2|H2].
    + simpl; repeat split; try lia; try lra; unfold Spec.lane; simpl; lra.
    + assert (H0 : - ext == - ext + inject_Z (Z.of_nat 0) * quarter)
        by (change (inject_Z (Z.of_nat 0)) with 0; ring).
      destruct (findLine_spec 5 hit quarter (- ext) (- ext) 0 Hq
                  ltac:(lra) H0 ltac:(lia) ltac:(lra) ltac:(lia))
        as (F1 & F2 & F3 & F4).
      destruct (Expl.findLine 5 hit quarter (- ext) 0) as [i look].
      cbn [fst snd] in *.
      split; [lia|]. split; [lra|]. split; [lra|].
      unfold Spec.lane.
      destruct i as [|[|[|[|i]]]]; try lia; simpl nth;
        match type of F2 with
        | context [inject_Z (Z.of_nat ?c)] =>
            let r := eval compute in (inject_Z (Z.of_nat c)) in
            change (inject_Z (Z.of_nat c)) with r in F2
        end; lra.
Qed.

(** X3.  The grid of [initExpl] is anchored on the impact: on an entity
    with positive extents, grid line number [xHitLine] lies at the local
    hit coordinate [xHit] (moved to the nearer edge when the hit is
    outside the extents), and likewise in y.  The lanes moved one way by
    [incrExpl] are the cells on one side of the impact, the lanes moved
    the other way the cells on the other side.  Extents and hit are
    integers below [2^48]: the quarters are then halves of integers and
    every grid line is computed without rounding (for other hits the
    line can miss the hit in the last place). *)
Theorem initExpl_hit_on_grid_line (v : Vis.t) (xHit yHit d lastStep : Q) :
  0 < Vis.extentX v -> 0 < Vis.extentY v ->
  Exact.integer (2 ^ 48) (Vis.extentX v) ->
  Exact.integer (2 ^ 48) (Vis.extentY v) ->
  Exact.integer (2 ^ 48) xHit -> Exact.integer (2 ^ 48) yHit ->
  exists e : Expl.t,
    Vis.expl (Vis.initExpl xHit yHit d lastStep v) = Some e /\
    Spec.lane (Expl.xLine e) (Expl.xHitLine e)
      == Grid.clamp (- Vis.extentX v) (Vis.extentX v) xHit /\
    Spec.lane (Expl.yLine e) (Expl.yHitLine e)
      == Grid.clamp (- Vis.extentY v) (Vis.extentY v) yHit.
Proof.
  intros Hx Hy _ _ _ _.
  destruct (initExpl_dispatch xHit yHit d lastStep v) as (d' & n' & -> & _).
  destruct (Vis_initExpl_record xHit yHit d' n' v)
    as (e & E & _ & _ & _ & _ & _ & Ex & Ey).
  exists e. split; [exact E|].
  injection Ex as -> ->. injection Ey as -> ->.
  split; [apply (axis_grid xHit _ Hx) | apply (axis_grid yHit _ Hy)].
Qed.

Lemma initExpl_hit_on_grid_line_witness :
  exists e : Expl.t,
    Vis.expl (Vis.initExpl 30 (-250) 125 25 (Vis.new 10 20 300)) = Some e /\
    Spec.lane (Expl.xLine e) (Expl.xHitLine e)
      == Grid.clamp (- Vis.extentX (Vis.new 10 20 300))
           (Vis.extentX (Vis.new 10 20 300)) 30 /\
    Spec.lane (Expl.yLine e) (Expl.yHitLine e)
      == Grid.clamp (- Vis.extentY (Vis.new 10 20 300))
           (Vis.extentY (Vis.new 10 20 300)) (-250).
Proof.
  apply (initExpl_hit_on_grid_line (Vis.new 10 20 300) 30 (-250) 125 25);
    try (simpl; lra).
  - exists 100%Z. split; [reflexivity | vm_compute; discriminate].
  - exists 100%Z. split; [reflexivity | vm_compute; discriminate].
  - exists 30%Z. split; [reflexivity | vm_compute; discriminate].
  - exists (-250)%Z. split; [reflexivity | vm_compute; discriminate].
Defined.

(** X4.  The grid of [initExpl] covers the entity with five cells that
    are not empty: on positive extents the six grid lines of each axis
    increase strictly, the first is the low edge [-extent] and the last
    is at or beyond the high edge [+extent]. *)
Theorem initExpl_grid_covers (v : Vis.t) (xHit yHit d lastStep : Q) (j : nat) :
  0 < Vis.extentX v -> 0 < Vis.extentY v -> (j <= 4)%nat ->
  exists e : Expl.t,
    Vis.expl (Vis.initExpl xHit yHit d lastStep v) = Some e /\
    Spec.lane (Expl.xLine e) j < Spec.lane (Expl.xLine e) (S j) /\
    Spec.lane (Expl.yLine e) j < Spec.lane (Expl.yLine e) (S j) /\
    Spec.lane (Expl.xLine e) 0 == - Vis.extentX v /\
    Vis.extentX v <= Spec.lane (Expl.xLine e) 5 /\
    Spec.lane (Expl.yLine e) 0 == - Vis.extentY v /\
    Vis.extentY v <= Spec.lane (Expl.yLine e) 5.
Proof.
  intros Hx Hy Hj.
  destruct (initExpl_dispatch xHit yHit d lastStep v) as (d' & n' & -> & _).
  destruct (Vis_initExpl_record xHit yHit d' n' v)
    as (e & E & _ & _ & _ & _ & _ & Ex & Ey).
  exists e. split; [exact E|].
  injection Ex as _ ->. injection Ey as _ ->.
  destruct (axis_grid xHit _ Hx) as (_ & X1 & X2 & _).
  destruct (axis_grid yHit _ Hy) as (_ & Y1 & Y2 & _).
  destruct (quarter_facts _ Hx) as (Qx & Rx).
  destruct (quarter_facts _ Hy) as (Qy & Ry).
  unfold Spec.lane, Expl.gridLines.
  destruct j as [|[|[|[|[|j]]]]]; try lia; simpl nth;
    repeat split; lra.
Qed.

Lemma initExpl_grid_covers_witness :
  exists e : Expl.t,
    Vis.expl (Vis.initExpl 30 (-250) 125 25 (Vis.new 10 20 300)) = Some e /\
    Spec.lane (Expl.xLine e) 0 < Spec.lane (Expl.xLine e) 1 /\
    Spec.lane (Expl.yLine e) 0 < Spec.lane (Expl.yLine e) 1 /\
    Spec.lane (Expl.xLine e) 0 == - Vis.extentX (Vis.new 10 20 300) /\
    Vis.extentX (Vis.new 10 20 300) <= Spec.lane (Expl.xLine e) 5 /\
    Spec.lane (Expl.yLine e) 0 == - Vis.extentY (Vis.new 10 20 300) /\
    Vis.extentY (Vis.new 10 20 300) <= Spec.lane (Expl.yLine e) 5.
Proof.
  apply (initExpl_grid_covers (Vis.new 10 20 300) 30 (-250) 125 25 0);
    simpl; (lra || lia).
Defined.

(** ** Drawing through the grid *)

Lemma iter_advance_lines (k : nat) (e : Expl.t) :
  Expl.xLine (Nat.iter k Expl.advance e) = Expl.xLine e /\
  Expl.yLine (Nat.iter k Expl.advance e) = Expl.yLine e.
Proof.
  induction k as [|k [IH1 IH2]]; [split; reflexivity|].
  rewrite Nat.iter_succ. split; [exact IH1 | exact IH2].
Qed.

(** A cell between two equal grid lines holds no fragment. *)
Lemma empty_cell (rl rr g : Q) : (Qmax rl g <? Qmin rr g) = false.
Proof.
  pose proof (Q.le_max_r rl g). pose proof (Q.le_min_r rr g).
  destruct (ltb_spec (Qmax rl g) (Qmin rr g)); [exfalso; lra | reflexivity].
Qed.

(** X5.  During formation lane 0 is never drawn.  [initForm] puts grid
    line 1 on grid line 0, so at any step of the animation
    [drawRectWithGridSubdivision] produces the fragments of columns and
    rows 1..4 only, whatever rectangle it is given: the offset that
    lane 0 carries never reaches the screen. *)
Theorem formation_lane0_not_drawn (v : Vis.t) (d lastStep : Q) (k : nat)
        (rectLeft rectTop rectRight rectBottom shade0 : Q) (isFilled : bool) :
  exists e : Expl.t,
    Vis.expl (Spec.incrExplTimes k (Vis.initForm d lastStep v)) = Some e /\
    Draw.drawRectWithGridSubdivision
      (Spec.incrExplTimes k (Vis.initForm d lastStep v))
      rectLeft rectTop rectRight rectBottom shade0 isFilled
    = flat_map (fun xi =>
        flat_map (Draw.cell (Spec.incrExplTimes k (Vis.initForm d lastStep v))
                    e rectLeft rectTop rectRight rectBottom shade0 isFilled xi)
                 [1; 2; 3; 4]%nat)
        [1; 2; 3; 4]%nat.
Proof.
  eexists. split; [apply incrExplTimes_expl; reflexivity|].
  unfold Draw.drawRectWithGridSubdivision.
  rewrite (incrExplTimes_expl k (Vis.initForm d lastStep v) _ eq_refl).
  match goal with
  | |- context [Nat.iter k Expl.advance ?f] =>
      set (e0 := f); set (e := Nat.iter k Expl.advance e0)
  end.
  set (w := Spec.incrExplTimes k (Vis.initForm d lastStep v)).
  destruct (iter_advance_lines k e0) as [Lx Ly]. fold e in Lx, Ly.
  assert (C0 : forall yi, Draw.cell w e rectLeft rectTop rectRight rectBottom
                            shade0 isFilled 0 yi = []).
  { intros yi. unfold Draw.cell. cbv zeta. rewrite Lx.
    unfold Spec.lane at 1 2. cbn [nth e0 Expl.xLine Expl.gridLines].
    now rewrite empty_cell. }
  assert (R0 : forall xi, Draw.cell w e rectLeft rectTop rectRight rectBottom
                            shade0 isFilled xi 0 = []).
  { intros xi. unfold Draw.cell. cbv zeta. rewrite Ly.
    unfold Spec.lane at 3 4. cbn [nth e0 Expl.yLine Expl.gridLines].
    now rewrite empty_cell, andb_false_r. }
  cbn [flat_map]. rewrite !C0, !R0. reflexivity.
Qed.

(** The standard preset two steps in, drawing the whole extent: sixteen
    fragments, none from lane 0. *)
Example formation_fragments :
  length (Draw.draw (Spec.incrExplTimes 2
                       (Vis.set_isForming true
                          (Vis.initForm 200 15 (Vis.new 0 0 1000)))))
  = 16%nat.
Proof. vm_compute. reflexivity. Qed.

(** ** Walls *)

(** X6.  [checkBounds] puts the entity between the walls and only ever
    reverses a velocity: when the tunnel is at least as wide and as high
    as the entity's box, afterwards [left <= x - extentX],
    [x + extentX <= right], [top <= y - extentY], [y + extentY <=
    bottom], and each of [vx], [vy] is the old value or its negation;
    [z], [vz] and the extents are untouched. *)
Theorem checkBounds_inside_walls (cfg : Config.t) (v : Vis.t) :
  Config.left (Config.TUNNEL cfg) + Vis.extentX v
    <= Config.right (Config.TUNNEL cfg) - Vis.extentX v ->
  Config.top (Config.TUNNEL cfg) + Vis.extentY v
    <= Config.bottom (Config.TUNNEL cfg) - Vis.extentY v ->
  Config.left (Config.TUNNEL cfg)
    <= Vis.x (Vis.checkBounds cfg v) - Vis.extentX v /\
  Vis.x (Vis.checkBounds cfg v) + Vis.extentX v
    <= Config.right (Config.TUNNEL cfg) /\
  Config.top (Config.TUNNEL cfg)
    <= Vis.y (Vis.checkBounds cfg v) - Vis.extentY v /\
  Vis.y (Vis.checkBounds cfg v) + Vis.extentY v
    <= Config.bottom (Config.TUNNEL cfg) /\
  (Vis.vx (Vis.checkBounds cfg v) = Vis.vx v \/
   Vis.vx (Vis.checkBounds cfg v) = - Vis.vx v) /\
  (Vis.vy (Vis.checkBounds cfg v) = Vis.vy v \/
   Vis.vy (Vis.checkBounds cfg v) = - Vis.vy v) /\
  Vis.z (Vis.checkBounds cfg v) = Vis.z v /\
  Vis.vz (Vis.checkBounds cfg v) = Vis.vz v /\
  Vis.extentX (Vis.checkBounds cfg v) = Vis.extentX v /\
  Vis.extentY (Vis.checkBounds cfg v) = Vis.extentY v.
Proof.
  intros Wx Wy. unfold Vis.checkBounds. cbv zeta.
  set (tn := Config.TUNNEL cfg) in *.
  destruct (ltb_spec (Config.right tn) (Vis.x v + Vis.extentX v));
    [|destruct (ltb_spec (Vis.x v - Vis.extentX v) (Config.left tn))];
    cbn [Vis.x Vis.y Vis.vx Vis.vy Vis.extentX Vis.extentY Vis.set_x
         Vis.set_vx];
    (destruct (ltb_spec (Config.bottom tn) (Vis.y v + Vis.extentY v));
     [|destruct (ltb_spec (Vis.y v - Vis.extentY v) (Config.top tn))]);
    cbn [Vis.x Vis.y Vis.z Vis.vx Vis.vy Vis.vz Vis.extentX Vis.extentY
         Vis.set_x Vis.set_vx Vis.set_y Vis.set_vy];
    repeat split; try lra; auto.
Qed.

Lemma checkBounds_inside_walls_witness :
  Config.left (Config.TUNNEL CONFIG)
    <= Vis.x (Vis.checkBounds CONFIG (Vis.set_vx 30 (Vis.new 31950 0 0)))
       - Vis.extentX (Vis.set_vx 30 (Vis.new 31950 0 0)) /\
  Vis.x (Vis.checkBounds CONFIG (Vis.set_vx 30 (Vis.new 31950 0 0)))
    + Vis.extentX (Vis.set_vx 30 (Vis.new 31950 0 0))
    <= Config.right (Config.TUNNEL CONFIG).
Proof.
  pose proof (checkBounds_inside_walls CONFIG
                (Vis.set_vx 30 (Vis.new 31950 0 0))) as H.
  destruct H as (A & B & _); [simpl; lra | simpl; lra |].
  split; [exact A | exact B].
Defined.

(** An entity poking 50 through the right wall is put back against it
    and sent the other way. *)
Example checkBounds_bounce :
  (Qred (Vis.x (Vis.checkBounds CONFIG (Vis.set_vx 30 (Vis.new 31950 0 0)))),
   Qred (Vis.vx (Vis.checkBounds CONFIG (Vis.set_vx 30 (Vis.new 31950 0 0)))))
  = (31900, -30).
Proof. vm_compute. reflexivity. Qed.

(** X7.  A bounce is not repeated: when the tunnel is at least as wide
    and as high as the entity's box, [checkBounds] applied to its own
    result changes nothing, so the velocity reversed by a wall hit is
    not reversed back by a second check in the same frame. *)
Theorem checkBounds_idempotent (cfg : Config.t) (v : Vis.t) :
  Config.left (Config.TUNNEL cfg) + Vis.extentX v
    <= Config.right (Config.TUNNEL cfg) - Vis.extentX v ->
  Config.top (Config.TUNNEL cfg) + Vis.extentY v
    <= Config.bottom (Config.TUNNEL cfg) - Vis.extentY v ->
  Vis.checkBounds cfg (Vis.checkBounds cfg v) = Vis.checkBounds cfg v.
Proof.
  intros Wx Wy.
  set (tn := Config.TUNNEL cfg) in *.
  assert (P : Config.left tn <= Vis.x (Vis.checkBounds cfg v) - Vis.extentX v /\
              Vis.x (Vis.checkBounds cfg v) + Vis.extentX v <= Config.right tn /\
              Config.top tn <= Vis.y (Vis.checkBounds cfg v) - Vis.extentY v /\
              Vis.y (Vis.checkBounds cfg v) + Vis.extentY v <= Config.bottom tn /\
              Vis.extentX (Vis.checkBounds cfg v) = Vis.extentX v /\
              Vis.extentY (Vis.checkBounds cfg v) = Vis.extentY v).
  { unfold Vis.checkBounds. cbv zeta. fold tn.
    destruct (ltb_spec (Config.right tn) (Vis.x v + Vis.extentX v));
      [|destruct (ltb_spec (Vis.x v - Vis.extentX v) (Config.left tn))];
      cbn [Vis.x Vis.y Vis.vx Vis.vy Vis.extentX Vis.extentY Vis.set_x
           Vis.set_vx];
      (destruct (ltb_spec (Config.bottom tn) (Vis.y v + Vis.extentY v));
       [|destruct (ltb_spec (Vis.y v - Vis.extentY v) (Config.top tn))]);
      cbn [Vis.x Vis.y Vis.vx Vis.vy Vis.extentX Vis.extentY
           Vis.set_x Vis.set_vx Vis.set_y Vis.set_vy];
      repeat split; lra. }
  destruct P as (A & B & C & D & Ex & Ey).
  set (w := Vis.checkBounds cfg v) in *.
  unfold Vis.checkBounds at 1. cbv zeta. fold tn.
  repeat (match goal with
          | |- context [Num.ltb ?a ?b] =>
              destruct (ltb_spec a b) as [L|L];
              [exfalso; rewrite ?Ex, ?Ey in L; lra | clear L]
          end; cbv iota).
  reflexivity.
Qed.

Lemma checkBounds_idempotent_witness :
  Vis.checkBounds CONFIG
    (Vis.checkBounds CONFIG (Vis.set_vx 30 (Vis.new 31950 0 0)))
  = Vis.checkBounds CONFIG (Vis.set_vx 30 (Vis.new 31950 0 0)).
Proof.
  apply (checkBounds_idempotent CONFIG (Vis.set_vx 30 (Vis.new 31950 0 0)));
    simpl; lra.
Defined.

(** ** The state machine of [update] *)

Lemma sameBody_refl (v : Vis.t) : Grid.sameBody v v.
Proof. repeat split. Qed.

Lemma sameBody_trans (u v w : Vis.t) :
  Grid.sameBody u v -> Grid.sameBody v w -> Grid.sameBody u w.
Proof.
  unfold Grid.sameBody. intros (A1&A2&A3&A4&A5&A6&A7) (B1&B2&B3&B4&B5&B6&B7).
  repeat split; congruence.
Qed.

Lemma oneWay_refl (v : Vis.t) : Grid.oneWay v v.
Proof. split; auto. Qed.

Lemma oneWay_trans (u v w : Vis.t) :
  Grid.oneWay u v -> Grid.oneWay v w -> Grid.oneWay u w.
Proof. unfold Grid.oneWay. intros [A1 A2] [B1 B2]. split; auto. Qed.

Lemma samePlace_refl (v : Vis.t) : Grid.samePlace v v.
Proof. repeat split. Qed.

Lemma samePlace_trans (u v w : Vis.t) :
  Grid.samePlace u v -> Grid.samePlace v w -> Grid.samePlace u w.
Proof.
  unfold Grid.samePlace. intros (A1&A2&A3&A4&A5&A6) (B1&B2&B3&B4&B5&B6).
  repeat split; congruence.
Qed.

Lemma incrExpl_frame (v : Vis.t) :
  Grid.sameBody v (snd (Vis.incrExpl v)) /\
  Grid.samePlace v (snd (Vis.incrExpl v)) /\
  Vis.pleaseRemove (snd (Vis.incrExpl v)) = Vis.pleaseRemove v /\
  Vis.isForming (snd (Vis.incrExpl v)) = Vis.isForming v.
Proof.
  unfold Vis.incrExpl. destruct (Vis.expl v); repeat split.
Qed.

Lemma formLoop_frame (fuel : nat) (v : Vis.t) :
  Grid.sameBody v (Vis.formLoop fuel v) /\
  Grid.samePlace v (Vis.formLoop fuel v) /\
  Grid.oneWay v (Vis.formLoop fuel v) /\
  Vis.explAccum (Vis.formLoop fuel v) = Vis.explAccum v.
Proof.
  revert v. induction fuel as [|fuel IH]; intros v; simpl.
  - repeat split; auto.
  - destruct (Vis.formAccum v >=? 1); [|repeat split; auto].
    pose proof (incrExpl_frame (Vis.set_formAccum (Vis.formAccum v - 1) v))
      as (B & P & R & F).
    pose proof (proj2 (incrExpl_accum
                         (Vis.set_formAccum (Vis.formAccum v - 1) v))) as A.
    destruct (Vis.incrExpl _) as [fin v1]. cbn [snd] in *.
    destruct fin.
    + split; [exact B|]. split; [exact P|].
      split; [split; simpl; [now rewrite R | reflexivity] | exact A].
    + destruct (IH v1) as (B' & P' & O' & A').
      split; [exact (sameBody_trans _ _ _ B B')|].
      split; [exact (samePlace_trans _ _ _ P P')|].
      split; [|now rewrite A'].
      destruct O' as [O1 O2]. split; intros H.
      * apply O1. now rewrite R.
      * apply O2. now rewrite F.
Qed.

Lemma explLoop_frame (fuel : nat) (v : Vis.t) :
  Grid.sameBody v (Vis.explLoop fuel v) /\
  Grid.samePlace v (Vis.explLoop fuel v) /\
  Grid.oneWay v (Vis.explLoop fuel v) /\
  Vis.isForming (Vis.explLoop fuel v) = Vis.isForming v /\
  Vis.formAccum (Vis.explLoop fuel v) = Vis.formAccum v.
Proof.
  revert v. induction fuel as [|fuel IH]; intros v; simpl.
  - repeat split; auto.
  - destruct (Vis.explAccum v >=? 1); [|repeat split; auto].
    pose proof (incrExpl_frame (Vis.set_explAccum (Vis.explAccum v - 1) v))
      as (B & P & R & F).
    pose proof (proj1 (incrExpl_accum
                         (Vis.set_explAccum (Vis.explAccum v - 1) v))) as A.
    destruct (Vis.incrExpl _) as [fin v1]. cbn [snd] in *.
    destruct fin.
    + split; [exact B|]. split; [exact P|].
      split; [split; simpl; [reflexivity | now rewrite F]|].
      split; [exact F | exact A].
    + destruct (IH v1) as (B' & P' & O' & F' & A').
      split; [exact (sameBody_trans _ _ _ B B')|].
      split; [exact (samePlace_trans _ _ _ P P')|].
      split; [|split; [now rewrite F' | now rewrite A']].
      destruct O' as [O1 O2]. split; intros H.
      * apply O1. now rewrite R.
      * apply O2. now rewrite F.
Qed.

Lemma checkBounds_frame (cfg : Config.t) (v : Vis.t) :
  Grid.sameBody v (Vis.checkBounds cfg v) /\
  Vis.pleaseRemove (Vis.checkBounds cfg v) = Vis.pleaseRemove v /\
  Vis.isForming (Vis.checkBounds cfg v) = Vis.isForming v.
Proof.
  unfold Vis.checkBounds. cbv zeta.
  repeat match goal with
  | |- context [if ?c then _ else _] => destruct c
  end; repeat split.
Qed.

Lemma Vis_update_frame (cfg : Config.t) (dt : Q) (v : Vis.t) :
  Grid.sameBody v (Vis.Vis_update cfg dt v) /\
  Grid.oneWay v (Vis.Vis_update cfg dt v) /\
  (Vis.isExploding v = true -> Grid.samePlace v (Vis.Vis_update cfg dt v)).
Proof.
  unfold Vis.Vis_update. cbv zeta.
  set (v1 := if Vis.isForming v then _ else v).
  assert (F1 : Grid.sameBody v v1 /\ Grid.samePlace v v1 /\ Grid.oneWay v v1).
  { subst v1. destruct (Vis.isForming v) eqn:Ef.
    - match goal with
      | |- context [Vis.formLoop ?f ?w] =>
          destruct (formLoop_frame f w) as (B & P & O & _)
      end.
      split; [exact B|]. split; [exact P|].
      destruct O as [O1 O2]. split; [exact O1|]. intros H. congruence.
    - split; [apply sameBody_refl|].
      split; [apply samePlace_refl | apply oneWay_refl]. }
  destruct F1 as (B1 & P1 & O1).
  assert (Ee : Vis.isExploding v1 = Vis.isExploding v) by apply B1.
  destruct (Vis.isExploding v1) eqn:E1.
  - match goal with
    | |- context [Vis.explLoop ?f ?w] =>
        destruct (explLoop_frame f w) as (B & P & O & F & _)
    end.
    split; [exact (sameBody_trans _ _ _ B1 B)|].
    split; [exact (oneWay_trans _ _ _ O1 O)|].
    intros _. exact (samePlace_trans _ _ _ P1 P).
  - destruct (_ || _).
    + destruct (checkBounds_frame cfg (Vis.moveXY (dt / 16.67) v1))
        as (B & R & F).
      split; [exact (sameBody_trans _ _ _ B1 B)|].
      split; [|intros H; congruence].
      destruct O1 as [O1 O2]. split; intros H.
      * rewrite R. simpl. auto.
      * rewrite F. simpl. auto.
    + split; [exact B1|]. split; [exact O1|]. intros H; congruence.
Qed.

Lemma moved_frame (cfg : Config.t) (dts : Q) (w : Vis.t) :
  Grid.sameBody w
    (Vis.wrapZ cfg (Vis.checkBounds cfg (Vis.moveZ dts (Vis.moveXY dts w)))) /\
  Vis.pleaseRemove
    (Vis.wrapZ cfg (Vis.checkBounds cfg (Vis.moveZ dts (Vis.moveXY dts w))))
    = Vis.pleaseRemove w /\
  Vis.isForming
    (Vis.wrapZ cfg (Vis.checkBounds cfg (Vis.moveZ dts (Vis.moveXY dts w))))
    = Vis.isForming w.
Proof.
  destruct (checkBounds_frame cfg (Vis.moveZ dts (Vis.moveXY dts w)))
    as (B & R & F).
  unfold Grid.sameBody in *. simpl in *. tauto.
Qed.

Lemma oneWay_of_eq (v w : Vis.t) :
  Vis.pleaseRemove w = Vis.pleaseRemove v ->
  Vis.isForming w = Vis.isForming v -> Grid.oneWay v w.
Proof. intros R F. split; intros H; congruence. Qed.

(** X8.  What [update] never does, for every class: it changes neither
    the class, the extents, the thickness, the shape scale, the
    collidable flag nor the exploding flag; it never withdraws a removal
    request ([pleaseRemove] stays [true]); and it never starts a
    formation ([isForming] stays [false]).  Exploding is entered only by
    [explode], forming only by [addObject]. *)
Theorem update_keeps_status (h : Vis.Host) (cfg : Config.t) (dt : Q)
        (v : Vis.t) :
  Grid.sameBody v (Vis.update h cfg dt v) /\
  Grid.oneWay v (Vis.update h cfg dt v).
Proof.
  destruct (Vis_update_frame cfg dt v) as (B1 & O1 & _).
  unfold Vis.update.
  destruct (Vis.kind v) eqn:K.
  - split; assumption.
  - unfold Vis.Cross_update. cbv zeta.
    destruct (_ || _); [split; assumption|].
    destruct (moved_frame cfg (dt / 16.67) (Vis.Vis_update cfg dt v))
      as (B & R & F).
    split; [exact (sameBody_trans _ _ _ B1 B)|].
    exact (oneWay_trans _ _ _ O1 (oneWay_of_eq _ _ R F)).
  - unfold Vis.Saucer_update. cbv zeta.
    destruct (_ || _); [split; assumption|].
    destruct (Vis.saucerSteer _ _ _) as [vx' vy'].
    destruct (checkBounds_frame cfg
                (Vis.moveZ (dt / 16.67)
                   (Vis.moveXY (dt / 16.67) (Vis.Vis_update cfg dt v))))
      as (B & R & F).
    split.
    + eapply sameBody_trans; [exact B1|].
      unfold Grid.sameBody in *. simpl in *. tauto.
    + eapply oneWay_trans; [exact O1|].
      apply oneWay_of_eq; simpl in *; assumption.
  - unfold Vis.Aphid_update. cbv zeta.
    destruct (_ || _); [split; assumption|].
    destruct (Vis.processFlocking _ _ _) as [[vx' vy'] vz'].
    match goal with
    | |- context [Vis.moveXY ?d ?w] =>
        destruct (moved_frame cfg d w) as (B & R & F)
    end.
    split.
    + eapply sameBody_trans; [exact B1|].
      unfold Grid.sameBody in *. simpl in *. tauto.
    + eapply oneWay_trans; [exact O1|].
      apply oneWay_of_eq; simpl in *; assumption.
  - split; assumption.
  - unfold Vis.Thing_update. split.
    + unfold Grid.sameBody in *. simpl. tauto.
    + unfold Grid.oneWay in *. simpl. tauto.
  - unfold Vis.Cross_update. cbv zeta.
    destruct (_ || _); [split; assumption|].
    destruct (moved_frame cfg (dt / 16.67) (Vis.Vis_update cfg dt v))
      as (B & R & F).
    split; [exact (sameBody_trans _ _ _ B1 B)|].
    exact (oneWay_trans _ _ _ O1 (oneWay_of_eq _ _ R F)).
  - unfold Vis.TestSquare_update. cbv zeta.
    destruct (moved_frame cfg (dt / 16.67) (Vis.Vis_update cfg dt v))
      as (B & R & F).
    split; [exact (sameBody_trans _ _ _ B1 B)|].
    exact (oneWay_trans _ _ _ O1 (oneWay_of_eq _ _ R F)).
  - unfold Vis.PShot_update. cbv zeta.
    destruct (_ >? _); split;
      try (unfold Grid.sameBody; simpl; tauto);
      split; simpl; intros H; (reflexivity || exact H).
  - unfold Vis.SShot_update. cbv zeta.
    repeat match goal with
    | |- context [if ?c then _ else _] => destruct c
    end; split;
      try (unfold Grid.sameBody; simpl; tauto);
      split; simpl; intros H; (reflexivity || exact H).
  - unfold Vis.Player_update. cbv zeta.
    repeat match goal with
    | |- context [if ?c then _ else _] => destruct c
    end; split;
      try (unfold Grid.sameBody; simpl; tauto);
      split; simpl; intros H; exact H.
Qed.

(** X9.  "Don't move while exploding": for the base class, Cross,
    Saucer, Aphid, Grabber and Blocker, [update] on an exploding entity
    leaves [x], [y], [z] and the velocity exactly as they were. *)
Theorem exploding_does_not_move (h : Vis.Host) (cfg : Config.t) (dt : Q)
        (v : Vis.t) :
  Vis.isExploding v = true ->
  Vis.kind v = KVis \/ Vis.kind v = Cross \/ Vis.kind v = Saucer \/
  Vis.kind v = Aphid \/ Vis.kind v = Grabber \/ Vis.kind v = Blocker ->
  Grid.samePlace v (Vis.update h cfg dt v).
Proof.
  intros E K.
  destruct (Vis_update_frame cfg dt v) as (B1 & _ & P1).
  specialize (P1 E).
  assert (E1 : Vis.isExploding (Vis.Vis_update cfg dt v) = true)
    by (destruct B1 as (_&_&_&_&_&_&B7); congruence).
  unfold Vis.update.
  destruct K as [K|[K|[K|[K|[K|K]]]]]; rewrite K;
    unfold Vis.Cross_update, Vis.Saucer_update, Vis.Aphid_update,
           Vis.Blocker_update; cbv zeta; rewrite ?E1; simpl orb; exact P1.
Qed.

Lemma exploding_does_not_move_witness :
  Grid.samePlace
    (Vis.explode 0 0 (Vis.set_vz (-15) (Vis.Cross_new CONFIG 0 0 32000)))
    (Vis.update Grid.quietHost CONFIG 50
       (Vis.explode 0 0 (Vis.set_vz (-15) (Vis.Cross_new CONFIG 0 0 32000)))).
Proof.
  apply (exploding_does_not_move Grid.quietHost CONFIG 50
           (Vis.explode 0 0 (Vis.set_vz (-15) (Vis.Cross_new CONFIG 0 0 32000)))).
  - reflexivity.
  - right; left; reflexivity.
Defined.

(** ** The animation inside [update] *)

Lemma explLoop_exit (fuel : nat) (v : Vis.t) :
  Vis.explAccum v < inject_Z (Z.of_nat fuel) + 1 ->
  Vis.explAccum (Vis.explLoop fuel v) < 1 \/
  Vis.pleaseRemove (Vis.explLoop fuel v) = true.
Proof.
  revert v. induction fuel as [|fuel IH]; intros v Hv.
  - left. change (inject_Z (Z.of_nat 0)) with 0 in Hv.
    simpl Vis.explLoop. lra.
  - simpl Vis.explLoop.
    destruct (leb_spec 1 (Vis.explAccum v)) as [Hge|Hlt]; [|left; lra].
    pose proof (proj2 (incrExpl_accum
                         (Vis.set_explAccum (Vis.explAccum v - 1) v))) as E.
    destruct (Vis.incrExpl _) as [fin v1]. simpl in E.
    destruct fin; [right; reflexivity|].
    apply IH. rewrite E. rewrite inject_nat_succ in Hv. lra.
Qed.

Lemma formLoop_remove (fuel : nat) (v : Vis.t) :
  Vis.pleaseRemove (Vis.formLoop fuel v) = Vis.pleaseRemove v.
Proof.
  revert v. induction fuel as [|fuel IH]; intros v; simpl; [reflexivity|].
  destruct (Vis.formAccum v >=? 1); [|reflexivity].
  pose proof (incrExpl_frame (Vis.set_formAccum (Vis.formAccum v - 1) v))
    as (_ & _ & R & _).
  destruct (Vis.incrExpl _) as [fin v1]. cbn [snd] in R.
  destruct fin; [exact R | now rewrite IH].
Qed.

Lemma explLoop_flag (fuel : nat) (v : Vis.t) :
  Vis.pleaseRemove v = false ->
  Vis.pleaseRemove (Vis.explLoop fuel v) = true ->
  match Vis.expl (Vis.explLoop fuel v) with
  | Some e => Expl.lastStep e <= Expl.step e
  | None => True
  end.
Proof.
  revert v. induction fuel as [|fuel IH]; intros v R0 R1; simpl in *;
    [congruence|].
  destruct (Vis.explAccum v >=? 1); [|congruence].
  pose proof (incrExpl_frame (Vis.set_explAccum (Vis.explAccum v - 1) v))
    as (_ & _ & R & _).
  unfold Vis.incrExpl in *.
  destruct (Vis.expl (Vis.set_explAccum (Vis.explAccum v - 1) v)) as [e|] eqn:E.
  - cbn [snd] in R.
    destruct (Expl.finished (Expl.advance e)) eqn:Fin.
    + simpl. unfold Expl.finished in Fin.
      destruct (leb_spec (Expl.lastStep (Expl.advance e))
                         (Expl.step (Expl.advance e))); [assumption|discriminate].
    + apply IH; [now rewrite R | exact R1].
  - simpl. simpl in E. now rewrite E.
Qed.

(** X10.  The animation speed is decoupled from the frame rate without
    losing steps: after [Vis.update] a forming entity holds less than
    one whole step in [formAccum] unless its formation has ended in
    this call, and an exploding entity holds less than one whole step
    in [explAccum] unless it has been flagged for removal. *)
Theorem update_spends_accumulator (cfg : Config.t) (dt : Q) (v : Vis.t) :
  (Vis.isForming v = true ->
   Vis.formAccum (Vis.Vis_update cfg dt v) < 1 \/
   Vis.isForming (Vis.Vis_update cfg dt v) = false) /\
  (Vis.isExploding v = true ->
   Vis.explAccum (Vis.Vis_update cfg dt v) < 1 \/
   Vis.pleaseRemove (Vis.Vis_update cfg dt v) = true).
Proof.
  unfold Vis.Vis_update. cbv zeta.
  set (v1 := if Vis.isForming v then _ else v).
  assert (B1 : Vis.isExploding v1 = Vis.isExploding v).
  { subst v1. destruct (Vis.isForming v); [|reflexivity].
    match goal with
    | |- context [Vis.formLoop ?f ?w] =>
        destruct (formLoop_frame f w) as ((_&_&_&_&_&_&B7) & _)
    end. rewrite B7. reflexivity. }
  split.
  - intros F.
    assert (H1 : Vis.formAccum v1 < 1 \/ Vis.isForming v1 = false).
    { subst v1. rewrite F.
      match goal with
      | |- context [Vis.formLoop ?f ?w] =>
          destruct (formLoop_exit f w) as [H|[H _]];
            [apply rounds_enough | left; exact H | right; exact H]
      end. }
    destruct (Vis.isExploding v1).
    + match goal with
      | |- context [Vis.explLoop ?f ?w] =>
          destruct (explLoop_frame f w) as (_ & _ & _ & Fo & Ac)
      end.
      rewrite Fo, Ac. exact H1.
    + destruct (_ || _); [|exact H1].
      destruct (checkBounds_frame cfg (Vis.moveXY (dt / 16.67) v1))
        as (_ & _ & Fo).
      rewrite Fo.
      unfold Vis.checkBounds. cbv zeta.
      repeat match goal with
      | |- context [if ?c then _ else _] => destruct c
      end; exact H1.
  - intros E. rewrite B1, E.
    match goal with
    | |- context [Vis.explLoop ?f ?w] =>
        apply (explLoop_exit f w), rounds_enough
    end.
Qed.

(** X11.  [Vis.update] asks for removal only at the end of an
    explosion: if it turns [pleaseRemove] from [false] to [true], the
    entity was exploding and its animation record, if it has one, has
    reached [step >= lastStep]. *)
Theorem removal_only_when_finished (cfg : Config.t) (dt : Q) (v : Vis.t) :
  Vis.pleaseRemove v = false ->
  Vis.pleaseRemove (Vis.Vis_update cfg dt v) = true ->
  Vis.isExploding v = true /\
  match Vis.expl (Vis.Vis_update cfg dt v) with
  | Some e => Expl.lastStep e <= Expl.step e
  | None => True
  end.
Proof.
  unfold Vis.Vis_update. cbv zeta.
  set (v1 := if Vis.isForming v then _ else v).
  assert (B1 : Vis.isExploding v1 = Vis.isExploding v /\
               Vis.pleaseRemove v1 = Vis.pleaseRemove v).
  { subst v1. destruct (Vis.isForming v); [|split; reflexivity].
    split; [|rewrite formLoop_remove; reflexivity].
    match goal with
    | |- context [Vis.formLoop ?f ?w] =>
        destruct (formLoop_frame f w) as ((_&_&_&_&_&_&B7) & _)
    end. rewrite B7. reflexivity. }
  destruct B1 as [B1 R1]. intros R0.
  destruct (Vis.isExploding v1) eqn:E1.
  - intros R. split; [congruence|].
    apply explLoop_flag; [simpl; congruence | exact R].
  - destruct (_ || _); intros R; exfalso.
    + destruct (checkBounds_frame cfg (Vis.moveXY (dt / 16.67) v1))
        as (_ & Rc & _).
      rewrite Rc in R. simpl in R. congruence.
    + congruence.
Qed.

Lemma removal_only_when_finished_witness :
  Vis.isExploding (Vis.explode 40 (-60) (Vis.new 10 20 300)) = true /\
  match Vis.expl (Vis.Vis_update CONFIG 500
                    (Vis.explode 40 (-60) (Vis.new 10 20 300))) with
  | Some e => Expl.lastStep e <= Expl.step e
  | None => True
  end.
Proof.
  apply (removal_only_when_finished CONFIG 500
           (Vis.explode 40 (-60) (Vis.new 10 20 300))).
  - reflexivity.
  - vm_compute. reflexivity.
Defined.

(** ** Depth stays on the ring *)

Lemma update_keeps_z_in_range_witness :
  0 <= Vis.z (Vis.update Grid.quietHost CONFIG 16.67
                (Vis.set_vz (-15) (Vis.Cross_new CONFIG 0 0 10)))
    < Config.length (Config.TUNNEL CONFIG).
Proof.
  apply (update_keeps_z_in_range Grid.quietHost CONFIG).
  - simpl. lra.
  - discriminate.
  - simpl. lra.
Defined.

(** The witness crosses the wrap point: from z = 10 at 15 per frame
    backwards to z = 64995. *)
Example update_wraps_backwards :
  Qred (Vis.z (Vis.update Grid.quietHost CONFIG 16.67
                 (Vis.set_vz (-15) (Vis.Cross_new CONFIG 0 0 10))))
  = 64995.
Proof. vm_compute. reflexivity. Qed.

Lemma rem_multiple (a b : Q) :
  exists n : Z, Num.rem a b == a - inject_Z n * b.
Proof. exists (Num.trunc (a / b)). unfold Num.rem. ring. Qed.

Lemma small_multiple (n : Z) (len : Q) :
  0 < len -> - len < inject_Z n * len -> inject_Z n * len < len -> n = 0%Z.
Proof.
  intros Hl H1 H2.
  assert (A : inject_Z n < 1).
  { destruct (Qlt_le_dec (inject_Z n) 1) as [L|L]; [exact L|exfalso].
    assert (0 <= (inject_Z n - 1) * len) by (apply Qmult_le_0_compat; lra).
    lra. }
  assert (B : -1 < inject_Z n).
  { destruct (Qlt_le_dec (-1) (inject_Z n)) as [L|L]; [exact L|exfalso].
    assert (0 <= (-1 - inject_Z n) * len) by (apply Qmult_le_0_compat; lra).
    lra. }
  change 1 with (inject_Z 1) in A. change (-1) with (inject_Z (-1)) in B.
  rewrite <- Zlt_Qlt in A, B. lia.
Qed.

(** X13.  [wrapZ] puts [z] on the ring: for a positive tunnel length
    the new [z] lies in [[0, length)].  On integers (of a size the
    program adds without rounding) it is the modulo of arithmetic: the
    new [z] is [z mod length], so a [z] already in range is left where
    it is, any other moves by a whole number of tunnel lengths, and
    wrapping twice is wrapping once.  (Off the integers the addition of
    [length] rounds, and neither of the last three holds to the last
    place.) *)
Theorem wrapZ_canonical (cfg : Config.t) (v : Vis.t) :
  0 < Config.length (Config.TUNNEL cfg) ->
  0 <= Vis.z (Vis.wrapZ cfg v) < Config.length (Config.TUNNEL cfg) /\
  (forall zi li : Z,
     Vis.z v == inject_Z zi ->
     Config.length (Config.TUNNEL cfg) == inject_Z li ->
     (Z.abs zi + li <= 2 ^ 53)%Z ->
     Vis.z (Vis.wrapZ cfg v) == inject_Z (zi mod li) /\
     Vis.z (Vis.wrapZ cfg (Vis.wrapZ cfg v)) == Vis.z (Vis.wrapZ cfg v)).
Proof.
  intros Hl.
  set (len := Config.length (Config.TUNNEL cfg)) in *.
  assert (M : forall w : Vis.t, exists n : Z,
             Vis.z (Vis.wrapZ cfg w) == Vis.z w + inject_Z n * len).
  { intros w. unfold Vis.wrapZ. cbv zeta. fold len. cbn [Vis.z Vis.set_z].
    destruct (rem_multiple (Vis.z w) len) as [n1 E1].
    destruct (rem_multiple (Num.rem (Vis.z w) len + len) len) as [n2 E2].
    exists (1 - n1 - n2)%Z. rewrite E2, E1.
    unfold Z.sub. rewrite !inject_Z_plus, !inject_Z_opp.
    change (inject_Z 1) with 1. ring. }
  assert (R : forall w : Vis.t, 0 <= Vis.z (Vis.wrapZ cfg w) < len)
    by (intros w; apply (wrapZ_range cfg Hl)).
  assert (I : forall w : Vis.t, 0 <= Vis.z w < len ->
                                Vis.z (Vis.wrapZ cfg w) == Vis.z w).
  { intros w Hw. destruct (M w) as [n E]. pose proof (R w) as Rw.
    assert (n = 0%Z) by (apply (small_multiple n len Hl); lra).
    subst n. rewrite E. change (inject_Z 0) with 0. ring. }
  split; [apply R|].
  intros zi li Ez El _. split; [|apply I, R].
  destruct (M v) as [n E]. pose proof (R v) as Rv.
  rewrite E, Ez, El in *. clear E.
  rewrite <- inject_Z_mult, <- inject_Z_plus in *.
  change 0 with (inject_Z 0) in Rv, Hl.
  destruct Rv as [R0 R1].
  rewrite <- Zle_Qle in R0. rewrite <- Zlt_Qlt in R1, Hl.
  assert (Zeq : (zi + n * li)%Z = (zi mod li)%Z)
    by (apply (Z.mod_unique_pos zi li (- n) (zi + n * li)); [lia | ring]).
  rewrite Zeq. reflexivity.
Qed.

Lemma wrapZ_canonical_witness :
  0 <= Vis.z (Vis.wrapZ CONFIG (Vis.new 0 0 (-130015)))
    < Config.length (Config.TUNNEL CONFIG) /\
  Vis.z (Vis.wrapZ CONFIG (Vis.wrapZ CONFIG (Vis.new 0 0 (-130015))))
    == Vis.z (Vis.wrapZ CONFIG (Vis.new 0 0 (-130015))) /\
  Vis.z (Vis.wrapZ CONFIG (Vis.new 0 0 (-130015)))
    == inject_Z ((-130015) mod 65000).
Proof.
  pose proof (wrapZ_canonical CONFIG (Vis.new 0 0 (-130015))) as H.
  destruct H as (A & C); [simpl; lra|].
  split; [exact A|].
  destruct (C (-130015)%Z 65000%Z) as (C1 & C2).
  - reflexivity.
  - reflexivity.
  - vm_compute. discriminate.
  - split; [exact C2 | exact C1].
Defined.

Example wrapZ_far_behind :
  Qred (Vis.z (Vis.wrapZ CONFIG (Vis.new 0 0 (-130015)))) = 64985.
Proof. vm_compute. reflexivity. Qed.

(** ** Saucer shots and the forming flag *)

Lemma SShot_update_forming (cfg : Config.t) (dt : Q) (v : Vis.t) :
  Vis.isForming (Vis.SShot_update cfg dt v) = Vis.isForming v /\
  Vis.kind (Vis.SShot_update cfg dt v) = Vis.kind v.
Proof.
  unfold Vis.SShot_update. cbv zeta.
  repeat match goal with
  | |- context [if ?c then _ else _] => destruct c
  end; split; reflexivity.
Qed.

Lemma SShot_updates_forming (h : Vis.Host) (cfg : Config.t) (dts : list Q)
      (v : Vis.t) :
  Vis.kind v = SShot ->
  Vis.isForming (Grid.updates h cfg dts v) = Vis.isForming v.
Proof.
  unfold Grid.updates. revert v.
  induction dts as [|dt dts IH]; intros v K; simpl; [reflexivity|].
  assert (E : Vis.update h cfg dt v = Vis.SShot_update cfg dt v)
    by (unfold Vis.update; now rewrite K).
  destruct (SShot_update_forming cfg dt v) as [F K'].
  rewrite E, IH by congruence. exact F.
Qed.

(** X14.  A saucer shot put into the tunnel never hits anything.
    [addObject] marks every object it stores as forming, and
    [SShot.update], which does not call the inherited [update], never
    clears the flag: after any number of updates [collidesWith] between
    the stored shot and any entity, in either order, is [false]. *)
Theorem added_SShot_never_collides (h : Vis.Host) (cfg : Config.t)
        (tn : Tunnel.t) (shot other : Vis.t) (dts : list Q) :
  Vis.kind shot = SShot ->
  Vis.collidesWith cfg other
    (Grid.updates h cfg dts
       (last (Tunnel.objects (Tunnel.addObject shot tn)) shot)) = false /\
  Vis.collidesWith cfg
    (Grid.updates h cfg dts
       (last (Tunnel.objects (Tunnel.addObject shot tn)) shot)) other = false.
Proof.
  intros K.
  unfold Tunnel.addObject. cbn [Tunnel.objects]. rewrite last_last.
  set (stored := Vis.initForm 200 15 _).
  assert (F : Vis.isForming (Grid.updates h cfg dts stored) = true)
    by (rewrite SShot_updates_forming; [reflexivity | exact K]).
  unfold Vis.collidesWith. rewrite F.
  split.
  - destruct (negb _ || negb _); [reflexivity|].
    destruct (_ || _); [reflexivity|].
    now rewrite orb_true_r.
  - destruct (negb _ || negb _); [reflexivity|].
    destruct (_ || _); reflexivity.
Qed.

Lemma added_SShot_never_collides_witness :
  Vis.collidesWith CONFIG (Vis.Player_new CONFIG)
    (Grid.updates Grid.quietHost CONFIG [16.67; 16.67]
       (last (Tunnel.objects
                (Tunnel.addObject (Vis.set_vz (-25) (Vis.SShot_new 0 0 50))
                   (Tunnel.mk [] None)))
             (Vis.set_vz (-25) (Vis.SShot_new 0 0 50)))) = false /\
  Vis.collidesWith CONFIG
    (Grid.updates Grid.quietHost CONFIG [16.67; 16.67]
       (last (Tunnel.objects
                (Tunnel.addObject (Vis.set_vz (-25) (Vis.SShot_new 0 0 50))
                   (Tunnel.mk [] None)))
             (Vis.set_vz (-25) (Vis.SShot_new 0 0 50))))
    (Vis.Player_new CONFIG) = false.
Proof.
  apply (added_SShot_never_collides Grid.quietHost CONFIG (Tunnel.mk [] None)
           (Vis.set_vz (-25) (Vis.SShot_new 0 0 50)) (Vis.Player_new CONFIG)
           [16.67; 16.67]).
  reflexivity.
Defined.

(** The same shot with the flag cleared by hand does hit the player it
    has flown into: it is the flag, not the geometry, that decides the
    witness. *)
Example SShot_would_collide :
  Vis.collidesWith CONFIG (Vis.Player_new CONFIG)
    (Grid.updates Grid.quietHost CONFIG [16.67; 16.67]
       (Vis.set_vz (-25) (Vis.SShot_new 0 0 50))) = true.
Proof. vm_compute. reflexivity. Qed.

(** ** Collision of plain boxes *)

Lemma default_rects (v : Vis.t) :
  match Vis.kind v with
  | Cross | Saucer | Aphid | Thing | Grabber => False
  | _ => True
  end ->
  Vis.getCollisionRects v
  = [Rect.mk (- Vis.extentX v) (- Vis.extentY v) (Vis.extentX v) (Vis.extentY v)].
Proof.
  unfold Vis.getCollisionRects. destruct (Vis.kind v); intros K;
    (contradiction || reflexivity).
Qed.

Lemma negb_ltb_true (a b : Q) : negb (a <? b) = true <-> b <= a.
Proof.
  destruct (ltb_spec a b); simpl; split; intros H;
    try reflexivity; try discriminate; lra.
Qed.

Lemma abs_le_iff (d r : Q) : Qabs d <= r <-> - r <= d /\ d <= r.
Proof. apply Qabs_Qle_condition. Qed.

Lemma deepCollide_default (a b : Vis.t) :
  Vis.getCollisionRects a
  = [Rect.mk (- Vis.extentX a) (- Vis.extentY a) (Vis.extentX a) (Vis.extentY a)] ->
  Vis.getCollisionRects b
  = [Rect.mk (- Vis.extentX b) (- Vis.extentY b) (Vis.extentX b) (Vis.extentY b)] ->
  Vis.deepCollide a b = true <->
  Qabs (Vis.x a - Vis.x b) <= Vis.extentX a + Vis.extentX b /\
  Qabs (Vis.y a - Vis.y b) <= Vis.extentY a + Vis.extentY b.
Proof.
  intros Ra Rb. unfold Vis.deepCollide. rewrite Ra, Rb.
  cbn [existsb Rect.left Rect.right Rect.top Rect.bottom].
  rewrite !orb_false_r. unfold Vis.rectsOverlap.
  rewrite !andb_true_iff, !negb_ltb_true, !abs_le_iff.
  split; intros H; repeat split; lra.
Qed.

Lemma broadX_of_overlap (a b : Vis.t) :
  Qabs (Vis.x a - Vis.x b) <= Vis.extentX a + Vis.extentX b ->
  Vis.broadX a b = true.
Proof.
  intros H. apply abs_le_iff in H.
  pose proof (Qabs_nonneg (Vis.vx a)). pose proof (Qabs_nonneg (Vis.vx b)).
  unfold Vis.broadX. cbv zeta.
  rewrite andb_true_iff, !negb_ltb_true. split; lra.
Qed.

Lemma broadY_of_overlap (a b : Vis.t) :
  Qabs (Vis.y a - Vis.y b) <= Vis.extentY a + Vis.extentY b ->
  Vis.broadY a b = true.
Proof.
  intros H. apply abs_le_iff in H.
  pose proof (Qabs_nonneg (Vis.vy a)). pose proof (Qabs_nonneg (Vis.vy b)).
  unfold Vis.broadY. cbv zeta.
  rewrite andb_true_iff, !negb_ltb_true. split; lra.
Qed.

(** X15.  Collision of two plain boxes, exactly.  For two collidable
    entities that are neither exploding nor forming, both with the
    default single collision rectangle and a defined thickness,
    [collidesWith] is [true] if and only if
    [|x_a - x_b| <= extentX_a + extentX_b],
    [|y_a - y_b| <= extentY_a + extentY_b] and the wrapped depth
    difference is at most [thick_a + |vz_a| + thick_b + |vz_b|]:
    touching counts as colliding, and the velocity widens the test in
    depth only. *)
Theorem collidesWith_plain_boxes (cfg : Config.t) (a b : Vis.t) (ta tb : Q) :
  Vis.checkCollide a = true -> Vis.checkCollide b = true ->
  Vis.isExploding a = false -> Vis.isExploding b = false ->
  Vis.isForming a = false -> Vis.isForming b = false ->
  Vis.getCollisionRects a
  = [Rect.mk (- Vis.extentX a) (- Vis.extentY a) (Vis.extentX a) (Vis.extentY a)] ->
  Vis.getCollisionRects b
  = [Rect.mk (- Vis.extentX b) (- Vis.extentY b) (Vis.extentX b) (Vis.extentY b)] ->
  Vis.thick a = Some ta -> Vis.thick b = Some tb ->
  Vis.collidesWith cfg a b = true <->
  Qabs (Vis.x a - Vis.x b) <= Vis.extentX a + Vis.extentX b /\
  Qabs (Vis.y a - Vis.y b) <= Vis.extentY a + Vis.extentY b /\
  Qabs (Vis.zDiff cfg a b) <= ta + Qabs (Vis.vz a) + (tb + Qabs (Vis.vz b)).
Proof.
  intros Ca Cb Ea Eb Fa Fb Ra Rb Ta Tb.
  unfold Vis.collidesWith. rewrite Ca, Cb, Ea, Eb, Fa, Fb. simpl.
  pose proof (deepCollide_default a b Ra Rb) as D.
  assert (Z : Vis.broadZ cfg a b = true <->
              Qabs (Vis.zDiff cfg a b)
                <= ta + Qabs (Vis.vz a) + (tb + Qabs (Vis.vz b))).
  { unfold Vis.broadZ, Vis.combinedThick. rewrite Ta, Tb.
    apply negb_ltb_true. }
  split.
  - intros H.
    destruct (Vis.broadX a b); [|discriminate].
    destruct (Vis.broadY a b); [|discriminate].
    destruct (Vis.broadZ cfg a b); [|discriminate].
    simpl in H. apply D in H. destruct H as [H1 H2].
    split; [exact H1|]. split; [exact H2|]. now apply Z.
  - intros (H1 & H2 & H3).
    rewrite (broadX_of_overlap a b H1), (broadY_of_overlap a b H2).
    rewrite (proj2 Z H3). simpl. apply D. now split.
Qed.

Lemma collidesWith_plain_boxes_witness :
  Vis.collidesWith CONFIG (Vis.new 0 0 64980) (Vis.new 200 (-200) 40) = true
  <->
  Qabs (Vis.x (Vis.new 0 0 64980) - Vis.x (Vis.new 200 (-200) 40))
    <= Vis.extentX (Vis.new 0 0 64980) + Vis.extentX (Vis.new 200 (-200) 40) /\
  Qabs (Vis.y (Vis.new 0 0 64980) - Vis.y (Vis.new 200 (-200) 40))
    <= Vis.extentY (Vis.new 0 0 64980) + Vis.extentY (Vis.new 200 (-200) 40) /\
  Qabs (Vis.zDiff CONFIG (Vis.new 0 0 64980) (Vis.new 200 (-200) 40))
    <= 30 + Qabs (Vis.vz (Vis.new 0 0 64980))
       + (30 + Qabs (Vis.vz (Vis.new 200 (-200) 40))).
Proof.
  apply (collidesWith_plain_boxes CONFIG (Vis.new 0 0 64980)
           (Vis.new 200 (-200) 40) 30 30); reflexivity.
Defined.

(** The witness touches on all three axes, across the wrap point in
    depth (60 apart with thickness 30 each): a collision.  One unit
    further in depth it is none. *)
Example touching_boxes_collide :
  Vis.collidesWith CONFIG (Vis.new 0 0 64980) (Vis.new 200 (-200) 40) = true /\
  Vis.collidesWith CONFIG (Vis.new 0 0 64980) (Vis.new 200 (-200) 41) = false.
Proof. split; vm_compute; reflexivity. Qed.

(** X16.  A Blocker collides at any depth.  [new Blocker] stores an
    undefined thickness ([CONFIG.ENEMIES.blocker] has no [thick]), the
    combined thickness is then not a number and the depth comparison of
    phase 1 never rejects: [collidesWith] between any entity and a
    Blocker, in either order, does not depend on the [z] of either. *)
Theorem Blocker_collides_at_any_depth (cfg : Config.t) (a : Vis.t)
        (x0 y0 z0 barWidth za zb : Q) (isHorz : bool) :
  Vis.collidesWith cfg (Vis.set_z za a)
    (Vis.set_z zb (Vis.Blocker_new cfg x0 y0 z0 isHorz barWidth))
  = Vis.collidesWith cfg a (Vis.Blocker_new cfg x0 y0 z0 isHorz barWidth) /\
  Vis.collidesWith cfg
    (Vis.set_z zb (Vis.Blocker_new cfg x0 y0 z0 isHorz barWidth))
    (Vis.set_z za a)
  = Vis.collidesWith cfg (Vis.Blocker_new cfg x0 y0 z0 isHorz barWidth) a.
Proof.
  unfold Vis.collidesWith, Vis.broadZ, Vis.combinedThick.
  cbn [Vis.thick Vis.set_z Vis.Blocker_new].
  destruct (Vis.thick a); split; reflexivity.
Qed.

(** A shot half a tunnel away from a bar that spans its path. *)
Example Blocker_hit_from_afar :
  Vis.collidesWith CONFIG (Vis.PShot_new CONFIG 0 0 100)
    (Vis.Blocker_new CONFIG 0 0 32000 true 500) = true.
Proof. vm_compute. reflexivity. Qed.

(** ** Projection of rectangles and the stereo pair *)

(** X17.  [projectRect] answers by the depth alone and keeps the
    orientation of the rectangle: with a non-negative [near] it returns
    [null] exactly when the depth [z - eyeZ] is at or below [near] or
    above [far], whatever the eye position and the stereo offset;
    otherwise, for a non-negative [eyeToScreen], a rectangle with
    [left <= right] and [top <= bottom] has a non-negative projected
    width and height. *)
Theorem projectRect_depth_and_orientation
        (cfg : Config.t) (eye : Projection.Eye)
        (left top right bottom z o : Q) :
  0 <= Config.near (Config.TUNNEL cfg) ->
  0 <= Config.eyeToScreen (Config.STEREO cfg) ->
  left <= right -> top <= bottom ->
  match Project.projectRect cfg eye left top right bottom z o with
  | None =>
      z - Projection.eyeZ eye <= Config.near (Config.TUNNEL cfg) \/
      Config.far (Config.TUNNEL cfg) < z - Projection.eyeZ eye
  | Some box =>
      Config.near (Config.TUNNEL cfg) < z - Projection.eyeZ eye /\
      z - Projection.eyeZ eye <= Config.far (Config.TUNNEL cfg) /\
      0 <= Project.width box /\ 0 <= Project.height box
  end.
Proof.
  intros Hn Hk Hlr Htb.
  unfold Project.projectRect, Projection.projectPoint. cbv zeta.
  set (relZ := z - Projection.eyeZ eye).
  destruct (leb_spec relZ (Config.near (Config.TUNNEL cfg))) as [N|N];
    [left; exact N|].
  destruct (ltb_spec (Config.far (Config.TUNNEL cfg)) relZ) as [F|F];
    [right; exact F|].
  cbn [Projection.visible negb orb Projection.x Projection.y
       Project.width Project.height].
  assert (Hr : ~ relZ == 0) by lra.
  assert (Hi : 0 < / relZ) by (apply Qinv_lt_0_compat; lra).
  set (k := Config.eyeToScreen (Config.STEREO cfg)) in *.
  assert (P : forall a b : Q, a <= b -> 0 <= (b - a) * k / relZ).
  { intros a b Hab. unfold Qdiv.
    apply Qmult_le_0_compat; [|lra].
    apply Qmult_le_0_compat; lra. }
  split; [lra|]. split; [lra|].
  split.
  - destruct (Num.nonzero (Config.screenPlaneZ (Config.STEREO cfg))) eqn:S;
      destruct (Num.nonzero o); cbn [andb];
      match goal with
      | |- 0 <= ?w =>
          assert (W : w == (right - left) * k / relZ);
          [|rewrite W; apply P; exact Hlr]
      end;
      try (field; exact Hr).
    field. split; [exact Hr|]. intros Z0.
    unfold Num.nonzero in S. apply negb_true_iff in S.
    apply Qeq_eq_bool in Z0. congruence.
  - match goal with
    | |- 0 <= ?w =>
        assert (W : w == (bottom - top) * k / relZ) by (field; exact Hr);
        rewrite W; apply P; exact Htb
    end.
Qed.

Lemma projectRect_depth_and_orientation_witness :
  match Project.projectRect CONFIG (Projection.mkEye 0 0 1000)
          (-100) (-50) 100 50 6000 70 with
  | None =>
      6000 - Projection.eyeZ (Projection.mkEye 0 0 1000)
        <= Config.near (Config.TUNNEL CONFIG) \/
      Config.far (Config.TUNNEL CONFIG)
        < 6000 - Projection.eyeZ (Projection.mkEye 0 0 1000)
  | Some box =>
      Config.near (Config.TUNNEL CONFIG)
        < 6000 - Projection.eyeZ (Projection.mkEye 0 0 1000) /\
      6000 - Projection.eyeZ (Projection.mkEye 0 0 1000)
        <= Config.far (Config.TUNNEL CONFIG) /\
      0 <= Project.width box /\ 0 <= Project.height box
  end.
Proof.
  apply (projectRect_depth_and_orientation CONFIG
           (Projection.mkEye 0 0 1000) (-100) (-50) 100 50 6000 70);
    simpl; lra.
Defined.

Example projectRect_numbers :
  option_map (fun b => (Qred (Project.x b), Qred (Project.y b),
                        Qred (Project.width b), Qred (Project.height b)))
    (Project.projectRect CONFIG (Projection.mkEye 0 0 1000)
       (-100) (-50) 100 50 6000 70)
  = Some (319, 479 # 2, 2, 1).
Proof. vm_compute. reflexivity. Qed.

Lemma inv_order (r sp : Q) : 0 < r -> r < sp -> / sp < / r.
Proof.
  intros Hr Hs.
  assert (Ps : 0 < sp) by lra.
  pose proof (Qinv_lt_0_compat r Hr) as Ir.
  pose proof (Qinv_lt_0_compat sp Ps) as Is.
  assert (E : / r - / sp == (/ sp * / r) * (sp - r)) by (field; split; lra).
  assert (0 < (/ sp * / r) * (sp - r)).
  { apply Qmult_lt_0_compat; [apply Qmult_lt_0_compat; assumption | lra]. }
  lra.
Qed.

Lemma parallax_difference (cfg : Config.t) (eye : Projection.Eye)
      (worldX worldY worldZ o : Q) :
  Config.near (Config.TUNNEL cfg) < worldZ - Projection.eyeZ eye ->
  worldZ - Projection.eyeZ eye <= Config.far (Config.TUNNEL cfg) ->
  0 <= Config.near (Config.TUNNEL cfg) ->
  ~ Config.screenPlaneZ (Config.STEREO cfg) == 0 -> ~ o == 0 ->
  Projection.x (Projection.projectPoint cfg eye worldX worldY worldZ o)
  - Projection.x (Projection.projectPoint cfg eye worldX worldY worldZ (- o))
  == 2 * (o * Config.eyeToScreen (Config.STEREO cfg))
     * (/ Config.screenPlaneZ (Config.STEREO cfg)
        - / (worldZ - Projection.eyeZ eye)).
Proof.
  intros N F Hn Hs Ho. unfold Projection.projectPoint. cbv zeta.
  set (relZ := worldZ - Projection.eyeZ eye) in *.
  destruct (leb_spec relZ (Config.near (Config.TUNNEL cfg))); [exfalso; lra|].
  destruct (ltb_spec (Config.far (Config.TUNNEL cfg)) relZ); [exfalso; lra|].
  rewrite nonzero_opp, (nonzero_true _ Hs), (nonzero_true _ Ho).
  cbn [andb Projection.x]. field. split; [lra | exact Hs].
Qed.

(** X18.  Which way the stereo pair parts.  For a visible point, a
    positive eye offset [o], positive [eyeToScreen] and positive
    [screenPlaneZ]: nearer than the screen plane the projection for
    [+o] lies to the left of the one for [-o], farther than the screen
    plane it lies to the right ("closer than screenPlaneZ pop out,
    farther recede"). *)
Theorem parallax_sign (cfg : Config.t) (eye : Projection.Eye)
        (worldX worldY worldZ o : Q) :
  0 <= Config.near (Config.TUNNEL cfg) ->
  Config.near (Config.TUNNEL cfg) < worldZ - Projection.eyeZ eye ->
  worldZ - Projection.eyeZ eye <= Config.far (Config.TUNNEL cfg) ->
  0 < Config.eyeToScreen (Config.STEREO cfg) ->
  0 < Config.screenPlaneZ (Config.STEREO cfg) ->
  0 < o ->
  (worldZ - Projection.eyeZ eye < Config.screenPlaneZ (Config.STEREO cfg) ->
   Projection.x (Projection.projectPoint cfg eye worldX worldY worldZ o)
   < Projection.x (Projection.projectPoint cfg eye worldX worldY worldZ (- o)))
  /\
  (Config.screenPlaneZ (Config.STEREO cfg) < worldZ - Projection.eyeZ eye ->
   Projection.x (Projection.projectPoint cfg eye worldX worldY worldZ (- o))
   < Projection.x (Projection.projectPoint cfg eye worldX worldY worldZ o)).
Proof.
  intros Hn N F Hk Hs Ho.
  pose proof (parallax_difference cfg eye worldX worldY worldZ o N F Hn
                ltac:(lra) ltac:(lra)) as D.
  set (relZ := worldZ - Projection.eyeZ eye) in *.
  set (sp := Config.screenPlaneZ (Config.STEREO cfg)) in *.
  set (k := Config.eyeToScreen (Config.STEREO cfg)) in *.
  assert (Pk : 0 < o * k) by (apply Qmult_lt_0_compat; assumption).
  split; intros C.
  - pose proof (inv_order relZ sp ltac:(lra) C) as I.
    assert (0 < (o * k) * (/ relZ - / sp))
      by (apply Qmult_lt_0_compat; lra).
    lra.
  - pose proof (inv_order sp relZ Hs C) as I.
    assert (0 < (o * k) * (/ sp - / relZ))
      by (apply Qmult_lt_0_compat; lra).
    lra.
Qed.

Lemma parallax_sign_witness :
  (3000 - Projection.eyeZ (Projection.mkEye 0 0 1000)
     < Config.screenPlaneZ (Config.STEREO CONFIG) ->
   Projection.x (Projection.projectPoint CONFIG (Projection.mkEye 0 0 1000)
                   300 200 3000 70)
   < Projection.x (Projection.projectPoint CONFIG (Projection.mkEye 0 0 1000)
                     300 200 3000 (- 70)))
  /\
  (Config.screenPlaneZ (Config.STEREO CONFIG)
     < 3000 - Projection.eyeZ (Projection.mkEye 0 0 1000) ->
   Projection.x (Projection.projectPoint CONFIG (Projection.mkEye 0 0 1000)
                   300 200 3000 (- 70))
   < Projection.x (Projection.projectPoint CONFIG (Projection.mkEye 0 0 1000)
                     300 200 3000 70)).
Proof.
  apply (parallax_sign CONFIG (Projection.mkEye 0 0 1000) 300 200 3000 70);
    simpl; lra.
Defined.

(** X19.  Whatever the draw pass hands to [draw] passes the depth test
    of the projection: for every call issued by the sorted pass of
    [drawObjects], any point at the call's draw depth, seen from the eye
    position [drawObjects] sets (eye z = player z), is projected as
    visible, with any stereo offset. *)
Theorem drawn_objects_are_visible (cfg : Config.t) (playerZ ex ey : Q)
        (objs : list Vis.t) (worldX worldY o : Q) :
  Forall (fun c =>
            Projection.visible
              (Projection.projectPoint cfg
                 (Projection.setEyePosition ex ey playerZ)
                 worldX worldY (Tunnel.drawZ c) o) = true)
         (Tunnel.drawSorted cfg playerZ objs).
Proof.
  apply Forall_forall. intros c Hc.
  unfold Tunnel.drawSorted in Hc. apply in_flat_map in Hc as (obj & _ & Hc).
  unfold Tunnel.drawIfAhead in Hc. cbv zeta in Hc.
  set (relZ := Vis.getZFromPlayer cfg playerZ obj) in *.
  destruct (ltb_spec (Config.near (Config.TUNNEL cfg)) relZ) as [N|N];
    [|contradiction Hc].
  destruct (ltb_spec relZ (Config.far (Config.TUNNEL cfg))) as [F|F];
    [|contradiction Hc].
  destruct Hc as [<-|[]]. cbn [Tunnel.drawZ].
  unfold Projection.projectPoint, Projection.setEyePosition. cbv zeta.
  cbn [Projection.eyeZ].
  destruct (leb_spec (playerZ + relZ - playerZ)
                     (Config.near (Config.TUNNEL cfg))); [exfalso; lra|].
  destruct (ltb_spec (Config.far (Config.TUNNEL cfg))
                     (playerZ + relZ - playerZ)); [exfalso; lra|].
  reflexivity.
Qed.

(** ** The collision pass *)

Lemma struck_refl (v : Vis.t) : Tally.struck v v.
Proof. unfold Tally.struck, Grid.samePlace. intuition reflexivity. Qed.

Lemma struck_trans (u v w : Vis.t) :
  Tally.struck u v -> Tally.struck v w -> Tally.struck u w.
Proof.
  unfold Tally.struck, Grid.samePlace.
  intros (A1 & A2 & A3 & A4 & (A5 & A6 & A7 & A8 & A9 & A10) & A11 & A12 & A13)
         (B1 & B2 & B3 & B4 & (B5 & B6 & B7 & B8 & B9 & B10) & B11 & B12 & B13).
  repeat split; try congruence; try (etransitivity; eassumption); auto.
Qed.

Lemma struck_list_refl (l : list Vis.t) : Forall2 Tally.struck l l.
Proof. induction l; constructor; auto using struck_refl. Qed.

Lemma struck_list_trans (l1 l2 l3 : list Vis.t) :
  Forall2 Tally.struck l1 l2 -> Forall2 Tally.struck l2 l3 ->
  Forall2 Tally.struck l1 l3.
Proof.
  intros H. revert l3. induction H; intros l3 H3; inversion H3; subst.
  - constructor.
  - constructor; eauto using struck_trans.
Qed.

Lemma explode_struck (xh yh : Q) (v : Vis.t) :
  Tally.struck v (Vis.explode xh yh v).
Proof.
  unfold Vis.explode. destruct (Vis.isExploding v) eqn:E; simpl negb; cbv iota.
  - apply struck_refl.
  - unfold Vis.initExpl, Vis.Vis_initExpl. cbv zeta.
    unfold Tally.struck, Grid.samePlace.
    destruct (Vis.kind v) eqn:K;
      repeat match goal with
      | |- context [Expl.hitCell ?a ?b ?c ?d] =>
          destruct (Expl.hitCell a b c d)
      end; simpl; rewrite ?K; intuition (try reflexivity; congruence).
Qed.

Lemma remove_struck (v : Vis.t) :
  Tally.struck v (Vis.set_pleaseRemove true v).
Proof.
  unfold Tally.struck, Grid.samePlace. simpl. intuition reflexivity.
Qed.

Lemma countedOff_refl (n : option Z) : Tally.countedOff 0 n n.
Proof. destruct n; simpl; [lia | exact I]. Qed.

Lemma countedOff_trans (j k : Z) (a b c : option Z) :
  Tally.countedOff j a b -> Tally.countedOff k b c ->
  Tally.countedOff (j + k) a c.
Proof.
  destruct a, b, c; simpl; try tauto; lia.
Qed.

Lemma countedOff_weaken (j k : Z) (a b : option Z) :
  (j <= k)%Z -> Tally.countedOff j a b -> Tally.countedOff k a b.
Proof. destruct a, b; simpl; try tauto; lia. Qed.

Lemma charged_refl (sc : Collide.Scene) : Tally.charged 0 sc sc.
Proof.
  unfold Tally.charged.
  repeat split; auto using struck_list_refl, countedOff_refl; try tauto.
  apply Qle_refl.
Qed.

Lemma charged_trans (j k : Z) (a b c : Collide.Scene) :
  Tally.charged j a b -> Tally.charged k b c -> Tally.charged (j + k) a c.
Proof.
  unfold Tally.charged.
  intros (A1 & A2 & A3 & A4 & A5 & A6) (B1 & B2 & B3 & B4 & B5 & B6).
  split; [congruence|].
  split; [eauto using struck_list_trans|].
  split; [auto|].
  split; [eapply Qle_trans; eassumption|].
  split; [auto|].
  eauto using countedOff_trans.
Qed.

Lemma charged_weaken (j k : Z) (a b : Collide.Scene) :
  (j <= k)%Z -> Tally.charged j a b -> Tally.charged k a b.
Proof.
  unfold Tally.charged. intros L (A1 & A2 & A3 & A4 & A5 & A6).
  repeat split; auto; try tauto. eauto using countedOff_weaken.
Qed.

(** The pieces of the response, one by one. *)

Lemma play_charged (s : Collide.Sound) (sc : Collide.Scene) :
  Tally.charged 0 sc (Collide.play s sc).
Proof.
  unfold Tally.charged. simpl.
  repeat split; auto using struck_list_refl, countedOff_refl; try tauto.
  apply Qle_refl.
Qed.

Lemma hitOne_charged (sc : Collide.Scene) :
  Tally.charged 1 sc (Collide.hitOne sc).
Proof.
  unfold Tally.charged. simpl.
  repeat split; auto using struck_list_refl; try tauto.
  - apply Qle_refl.
  - destruct (Collide.numLiveObjs sc); simpl; [lia | exact I].
Qed.

Lemma addScore_charged (points : Q) (sc : Collide.Scene) :
  0 <= points -> Tally.charged 0 sc (Collide.addScore points sc).
Proof.
  intros P. unfold Tally.charged. simpl.
  repeat split; auto using struck_list_refl, countedOff_refl; try tauto.
  lra.
Qed.

Lemma takeDamage_charged (amount : Q) (sc : Collide.Scene) :
  0 <= amount -> Tally.charged 0 sc (Collide.takeDamage amount sc).
Proof.
  intros P. unfold Collide.takeDamage. cbv zeta.
  match goal with |- context [if ?a <? ?b then _ else _] =>
    destruct (ltb_spec a b) as [L|L] end;
    unfold Tally.charged; simpl in *;
    repeat split; auto using struck_list_refl, countedOff_refl;
    try tauto; try lra.
Qed.

Lemma Player_onCollide_charged (other : Vis.t) (sc : Collide.Scene) :
  Tally.charged 0 sc (Collide.Player_onCollide other sc).
Proof.
  unfold Collide.Player_onCollide.
  destruct (Vis.kind other);
    try apply charged_refl; try (apply takeDamage_charged; lra).
  unfold Tally.charged, Collide.energyBonus. simpl.
  repeat split; auto using struck_list_refl, countedOff_refl; try tauto;
    try apply Qle_refl.
  - apply Q.min_glb; lra.
  - apply Q.le_min_l.
Qed.

Lemma hit_charged (s : Collide.Sound) (sc : Collide.Scene) :
  Tally.charged 1 sc (Collide.hitOne (Collide.play s sc)).
Proof.
  apply (charged_trans 0 1 _ _ _ (play_charged s sc) (hitOne_charged _)).
Qed.

Lemma PShot_onCollide_spec (this other : Vis.t) (sc : Collide.Scene) :
  Tally.struck this (snd (Collide.PShot_onCollide this other sc)) /\
  Tally.charged 0 sc (fst (Collide.PShot_onCollide this other sc)).
Proof.
  unfold Collide.PShot_onCollide, Collide.enemyPoints.
  destruct (Vis.kind other); cbn [fst snd];
    (split; [first [apply struck_refl | apply remove_struck]|]);
    try apply charged_refl;
    match goal with
    | |- context [Num.nonzero ?p] => destruct (Num.nonzero p)
    end;
    try apply charged_refl; apply addScore_charged; lra.
Qed.

(** Every [onCollide] strikes its receiver and charges the scene; when
    it calls [hitOne] the receiver is of a counted class and explodes. *)
Lemma onCollide_spec (this other : Vis.t) (sc : Collide.Scene) :
  Tally.struck this (snd (Collide.onCollide this other sc)) /\
  (Tally.charged 0 sc (fst (Collide.onCollide this other sc)) \/
   (Tally.counted this = true /\
    Vis.isExploding (snd (Collide.onCollide this other sc)) = true /\
    Tally.charged 1 sc (fst (Collide.onCollide this other sc)))).
Proof.
  unfold Collide.onCollide, Tally.counted.
  destruct (Vis.kind this) eqn:K;
    try (split; [apply struck_refl | left; apply charged_refl]);
    try (destruct (Vis.kind other) eqn:O; cbn [fst snd];
         (split; [first [apply struck_refl | apply explode_struck
                        | apply remove_struck]|]);
         first [ left; first [ apply charged_refl | apply play_charged
                             | apply takeDamage_charged; lra ]
               | right; split; [reflexivity|];
                 split; [apply explode_sets_flag|];
                 first [ apply hit_charged | apply hitOne_charged
                       | apply (charged_trans 1 0 _ _ _ (hitOne_charged _));
                         apply addScore_charged; lra ] ]).
  - split; [apply PShot_onCollide_spec|].
    left. apply PShot_onCollide_spec.
  - cbn [fst snd]. split; [apply struck_refl|].
    left. apply Player_onCollide_charged.
Qed.

Lemma collidesWith_live (cfg : Config.t) (a b : Vis.t) :
  Vis.collidesWith cfg a b = true ->
  Tally.live a = true /\ Tally.live b = true.
Proof.
  unfold Vis.collidesWith, Tally.live.
  destruct (Vis.checkCollide a), (Vis.checkCollide b),
           (Vis.isExploding a), (Vis.isExploding b),
           (Vis.isForming a), (Vis.isForming b); simpl;
    try discriminate; auto.
Qed.

Lemma collidesWith_not_live (cfg : Config.t) (a b : Vis.t) :
  Tally.live a = false \/ Tally.live b = false ->
  Vis.collidesWith cfg a b = false.
Proof.
  intros H. destruct (Vis.collidesWith cfg a b) eqn:E; [|reflexivity].
  apply collidesWith_live in E. destruct E, H; congruence.
Qed.

(** No shot touches an object that is not live. *)
Lemma shotsPass_not_live (cfg : Config.t) (shots : list Vis.t)
      (obj : Vis.t) (sc : Collide.Scene) :
  Tally.live obj = false ->
  Collide.shotsPass cfg shots obj sc = (shots, obj, sc).
Proof.
  intros L. induction shots as [|s rest IH]; simpl; [reflexivity|].
  rewrite (collidesWith_not_live cfg s obj (or_intror L)), IH. reflexivity.
Qed.

Lemma exploding_not_live (v : Vis.t) :
  Vis.isExploding v = true -> Tally.live v = false.
Proof.
  unfold Tally.live. intros ->. now rewrite andb_false_r.
Qed.

Lemma struck_counted (v w : Vis.t) :
  Tally.struck v w -> Tally.counted w = Tally.counted v.
Proof. unfold Tally.counted. intros (K & _). now rewrite K. Qed.

Lemma struck_shot (v w : Vis.t) :
  Tally.struck v w -> Vis.kind v = PShot -> Vis.kind w = PShot.
Proof. intros (K & _). congruence. Qed.

(** The shots of the player against one object: the shots and the
    object are struck, and [hitOne] is called at most once, and only on
    a live object of a counted class. *)
Lemma shotsPass_spec (cfg : Config.t) (shots : list Vis.t) :
  Forall (fun s => Vis.kind s = PShot) shots ->
  forall (obj : Vis.t) (sc : Collide.Scene),
    let r := Collide.shotsPass cfg shots obj sc in
    Forall2 Tally.struck shots (fst (fst r)) /\
    Tally.struck obj (snd (fst r)) /\
    (Tally.charged 0 sc (snd r) \/
     (Tally.counted obj = true /\ Tally.live obj = true /\
      Tally.charged 1 sc (snd r))).
Proof.
  induction 1 as [|shot rest K _ IH]; intros obj sc; cbn zeta.
  - simpl. auto using struck_refl, charged_refl.
  - simpl. destruct (Vis.collidesWith cfg shot obj) eqn:C.
    + pose proof (onCollide_spec shot obj sc) as (S1 & H1).
      destruct (Collide.onCollide shot obj sc) as [sc1 shot1].
      cbn [fst snd] in S1, H1.
      assert (C1 : Tally.charged 0 sc sc1).
      { destruct H1 as [H1|(H1 & _)]; [exact H1|].
        unfold Tally.counted in H1. rewrite K in H1. discriminate. }
      clear H1.
      pose proof (onCollide_spec obj shot1 sc1) as (S2 & H2).
      destruct (Collide.onCollide obj shot1 sc1) as [sc2 obj1].
      cbn [fst snd] in S2, H2.
      apply collidesWith_live in C. destruct C as [_ Lo].
      destruct H2 as [C2|(Co & Ex & C2)].
      * specialize (IH obj1 sc2). cbn zeta in IH.
        destruct (Collide.shotsPass cfg rest obj1 sc2) as [[rest' obj2] sc3].
        cbn [fst snd] in *. destruct IH as (F & S3 & H3).
        split; [constructor; assumption|].
        split; [eauto using struck_trans|].
        pose proof (charged_trans 0 0 _ _ _ C1 C2) as C12.
        destruct H3 as [C3|(Co & _ & C3)].
        -- left. apply (charged_trans 0 0 _ _ _ C12 C3).
        -- right. rewrite <- (struck_counted _ _ S2). split; [exact Co|].
           split; [exact Lo|]. apply (charged_trans 0 1 _ _ _ C12 C3).
      * rewrite (shotsPass_not_live cfg rest obj1 sc2
                   (exploding_not_live _ Ex)).
        cbn [fst snd].
        split; [constructor; [assumption | apply struck_list_refl]|].
        split; [exact S2|].
        right. split; [exact Co|]. split; [exact Lo|].
        apply (charged_trans 0 1 _ _ _ C1 C2).
    + specialize (IH obj sc). cbn zeta in IH.
      destruct (Collide.shotsPass cfg rest obj sc) as [[rest' obj2] sc3].
      cbn [fst snd] in *. destruct IH as (F & S3 & H3).
      split; [constructor; [apply struck_refl | assumption]|].
      split; assumption.
Qed.

Lemma struck_list_shots (l l' : list Vis.t) :
  Forall2 Tally.struck l l' ->
  Forall (fun s => Vis.kind s = PShot) l ->
  Forall (fun s => Vis.kind s = PShot) l'.
Proof.
  induction 1; intros F; inversion F; subst; constructor;
    eauto using struck_shot.
Qed.

Lemma setShots_charged (k : Z) (sc sc2 : Collide.Scene)
      (shots' : list Vis.t) :
  Tally.charged k sc sc2 ->
  Forall2 Tally.struck (Player.shots (Collide.player sc)) shots' ->
  Tally.charged k sc (Collide.setShots shots' sc2).
Proof.
  unfold Tally.charged. simpl.
  intros (A1 & A2 & A3 & A4 & A5 & A6) F. repeat split; auto; tauto.
Qed.

Lemma charged_once (obj : Vis.t) (sc sc' : Collide.Scene) :
  Tally.charged 0 sc sc' \/
  (Tally.counted obj = true /\ Tally.live obj = true /\
   Tally.charged 1 sc sc') ->
  Tally.charged (if Tally.counted obj && Tally.live obj then 1 else 0)
                sc sc'.
Proof.
  intros [C|(Co & Lo & C)].
  - eapply charged_weaken; [|exact C].
    destruct (Tally.counted obj && Tally.live obj); lia.
  - now rewrite Co, Lo.
Qed.

(** One object against the player and its shots. *)
Lemma objectStep_spec (cfg : Config.t) (obj : Vis.t) (sc : Collide.Scene) :
  Forall (fun s => Vis.kind s = PShot) (Player.shots (Collide.player sc)) ->
  Tally.struck obj (fst (Collide.objectStep cfg obj sc)) /\
  Tally.charged (if Tally.counted obj && Tally.live obj then 1 else 0)
                sc (snd (Collide.objectStep cfg obj sc)).
Proof.
  intros PS. unfold Collide.objectStep.
  destruct (Vis.checkCollide obj) eqn:CC; simpl negb; cbv iota.
  2:{ cbn [fst snd]. split; [apply struck_refl|].
      apply charged_once. left. apply charged_refl. }
  set (body := Player.body (Collide.player sc)).
  assert (step : forall sc1 obj1,
             Tally.struck obj obj1 ->
             Tally.charged 0 sc sc1 ->
             let r := Collide.shotsPass cfg
                        (Player.shots (Collide.player sc1)) obj1 sc1 in
             Tally.struck obj (snd (fst r)) /\
             (Tally.charged 0 sc (Collide.setShots (fst (fst r)) (snd r)) \/
              (Tally.counted obj = true /\ Tally.live obj1 = true /\
               Tally.charged 1 sc
                 (Collide.setShots (fst (fst r)) (snd r))))).
  { intros sc1 obj1 S1 C1 r.
    assert (PS1 : Forall (fun s => Vis.kind s = PShot)
                         (Player.shots (Collide.player sc1))).
    { destruct C1 as (_ & F & _). eauto using struck_list_shots. }
    destruct (shotsPass_spec cfg _ PS1 obj1 sc1) as (F & S2 & H).
    fold r in F, S2, H.
    split; [eauto using struck_trans|].
    assert (F' : Forall2 Tally.struck (Player.shots (Collide.player sc))
                         (fst (fst r))).
    { destruct C1 as (_ & F1 & _). eauto using struck_list_trans. }
    destruct H as [C2|(Co & Lo & C2)].
    - left. apply setShots_charged; [|exact F'].
      apply (charged_trans 0 0 _ _ _ C1 C2).
    - right. rewrite <- (struck_counted _ _ S1).
      split; [exact Co|]. split; [exact Lo|].
      apply setShots_charged; [|exact F'].
      apply (charged_trans 0 1 _ _ _ C1 C2). }
  destruct (Vis.collidesWith cfg body obj) eqn:C.
  - apply collidesWith_live in C. destruct C as [_ Lo].
    pose proof (Player_onCollide_charged obj sc) as C0.
    pose proof (onCollide_spec obj body (Collide.Player_onCollide obj sc))
      as (S1 & H1).
    destruct (Collide.onCollide obj body (Collide.Player_onCollide obj sc))
      as [sc1 obj1].
    cbn [fst snd] in S1, H1.
    destruct H1 as [C1|(Co & Ex & C1)].
    + specialize (step sc1 obj1 S1 (charged_trans 0 0 _ _ _ C0 C1)).
      cbv zeta in step.
      destruct (Collide.shotsPass cfg (Player.shots (Collide.player sc1))
                  obj1 sc1) as [[shots' obj2] sc2].
      cbn [fst snd] in *. destruct step as (S2 & H).
      split; [exact S2|]. apply charged_once.
      destruct H as [H|(Co & _ & H)]; [left; exact H|].
      right. auto.
    + rewrite (shotsPass_not_live cfg _ obj1 sc1 (exploding_not_live _ Ex)).
      cbn [fst snd]. split; [exact S1|].
      apply charged_once. right. split; [exact Co|]. split; [exact Lo|].
      apply setShots_charged.
      * apply (charged_trans 0 1 _ _ _ C0 C1).
      * pose proof (charged_trans 0 1 _ _ _ C0 C1) as (_ & F & _). exact F.
  - specialize (step sc obj (struck_refl obj) (charged_refl sc)).
    cbv zeta in step.
    destruct (Collide.shotsPass cfg (Player.shots (Collide.player sc))
                obj sc) as [[shots' obj2] sc2].
    cbn [fst snd] in *. destruct step as (S2 & H).
    split; [exact S2|]. apply charged_once. exact H.
Qed.

Lemma liveCounted_cons (obj : Vis.t) (rest : list Vis.t) :
  Tally.liveCounted (obj :: rest) =
  ((if Tally.counted obj && Tally.live obj then 1 else 0)
   + Tally.liveCounted rest)%Z.
Proof.
  unfold Tally.liveCounted. simpl.
  destruct (Tally.counted obj && Tally.live obj); simpl length; lia.
Qed.

(** The whole pass. *)
Lemma objectsPass_spec (cfg : Config.t) (objs : list Vis.t) :
  forall sc : Collide.Scene,
    Forall (fun s => Vis.kind s = PShot)
           (Player.shots (Collide.player sc)) ->
    Forall2 Tally.struck objs (fst (Collide.objectsPass cfg objs sc)) /\
    Tally.charged (Tally.liveCounted objs) sc
                  (snd (Collide.objectsPass cfg objs sc)).
Proof.
  induction objs as [|obj rest IH]; intros sc PS.
  - simpl. split; [constructor | apply charged_refl].
  - simpl. destruct (objectStep_spec cfg obj sc PS) as (S1 & C1).
    destruct (Collide.objectStep cfg obj sc) as [obj' sc1].
    cbn [fst snd] in S1, C1.
    assert (PS1 : Forall (fun s => Vis.kind s = PShot)
                         (Player.shots (Collide.player sc1))).
    { destruct C1 as (_ & F & _). eauto using struck_list_shots. }
    destruct (IH sc1 PS1) as (F & C2).
    destruct (Collide.objectsPass cfg rest sc1) as [rest' sc2].
    cbn [fst snd] in *.
    split; [constructor; assumption|].
    rewrite liveCounted_cons. eapply charged_trans; eassumption.
Qed.

(** The same pass with shots of any class: nothing is said of the
    number of [hitOne] calls. *)
Lemma shotsPass_any (cfg : Config.t) (shots : list Vis.t) :
  forall (obj : Vis.t) (sc : Collide.Scene),
    let r := Collide.shotsPass cfg shots obj sc in
    Forall2 Tally.struck shots (fst (fst r)) /\
    Tally.struck obj (snd (fst r)) /\
    exists k, Tally.charged k sc (snd r).
Proof.
  induction shots as [|shot rest IH]; intros obj sc; cbn zeta.
  - simpl. eauto using struck_refl, charged_refl.
  - simpl. destruct (Vis.collidesWith cfg shot obj).
    + pose proof (onCollide_spec shot obj sc) as (S1 & H1).
      destruct (Collide.onCollide shot obj sc) as [sc1 shot1].
      cbn [fst snd] in S1, H1.
      pose proof (onCollide_spec obj shot1 sc1) as (S2 & H2).
      destruct (Collide.onCollide obj shot1 sc1) as [sc2 obj1].
      cbn [fst snd] in S2, H2.
      specialize (IH obj1 sc2). cbn zeta in IH.
      destruct (Collide.shotsPass cfg rest obj1 sc2) as [[rest' obj2] sc3].
      cbn [fst snd] in *. destruct IH as (F & S3 & k3 & C3).
      split; [constructor; assumption|].
      split; [eauto using struck_trans|].
      assert (E1 : exists k, Tally.charged k sc sc1)
        by (destruct H1 as [H|(_ & _ & H)]; eauto).
      assert (E2 : exists k, Tally.charged k sc1 sc2)
        by (destruct H2 as [H|(_ & _ & H)]; eauto).
      destruct E1 as [k1 C1], E2 as [k2 C2].
      exists (k1 + k2 + k3)%Z. eauto using charged_trans.
    + specialize (IH obj sc). cbn zeta in IH.
      destruct (Collide.shotsPass cfg rest obj sc) as [[rest' obj2] sc3].
      cbn [fst snd] in *. destruct IH as (F & S3 & H3).
      split; [constructor; [apply struck_refl | assumption]|].
      split; assumption.
Qed.

Lemma objectStep_any (cfg : Config.t) (obj : Vis.t) (sc : Collide.Scene) :
  Tally.struck obj (fst (Collide.objectStep cfg obj sc)) /\
  exists k, Tally.charged k sc (snd (Collide.objectStep cfg obj sc)).
Proof.
  unfold Collide.objectStep.
  destruct (Vis.checkCollide obj); simpl negb; cbv iota.
  2:{ cbn [fst snd]. eauto using struck_refl, charged_refl. }
  set (body := Player.body (Collide.player sc)).
  assert (E : exists sc1 obj1 k,
             (if Vis.collidesWith cfg body obj
              then Collide.onCollide obj body
                     (Collide.Player_onCollide obj sc)
              else (sc, obj)) = (sc1, obj1) /\
             Tally.struck obj obj1 /\ Tally.charged k sc sc1).
  { destruct (Vis.collidesWith cfg body obj).
    - pose proof (Player_onCollide_charged obj sc) as C0.
      pose proof (onCollide_spec obj body (Collide.Player_onCollide obj sc))
        as (S1 & H1).
      destruct (Collide.onCollide obj body (Collide.Player_onCollide obj sc))
        as [sc1 obj1].
      cbn [fst snd] in S1, H1. exists sc1, obj1.
      destruct H1 as [H|(_ & _ & H)]; eauto using charged_trans.
    - eauto 6 using struck_refl, charged_refl. }
  destruct E as (sc1 & obj1 & k1 & -> & S1 & C1).
  destruct (shotsPass_any cfg (Player.shots (Collide.player sc1)) obj1 sc1)
    as (F & S2 & k2 & C2).
  destruct (Collide.shotsPass cfg (Player.shots (Collide.player sc1))
              obj1 sc1) as [[shots' obj2] sc2].
  cbn [fst snd] in *.
  split; [eauto using struck_trans|].
  exists (k1 + k2)%Z. apply setShots_charged.
  - eauto using charged_trans.
  - destruct C1 as (_ & F1 & _). eauto using struck_list_trans.
Qed.

Lemma objectsPass_any (cfg : Config.t) (objs : list Vis.t) :
  forall sc : Collide.Scene,
    Forall2 Tally.struck objs (fst (Collide.objectsPass cfg objs sc)) /\
    exists k, Tally.charged k sc (snd (Collide.objectsPass cfg objs sc)).
Proof.
  induction objs as [|obj rest IH]; intros sc.
  - simpl. eauto using charged_refl.
  - simpl. destruct (objectStep_any cfg obj sc) as (S1 & k1 & C1).
    destruct (Collide.objectStep cfg obj sc) as [obj' sc1].
    destruct (IH sc1) as (F & k2 & C2).
    destruct (Collide.objectsPass cfg rest sc1) as [rest' sc2].
    cbn [fst snd] in *.
    split; [constructor; assumption|].
    exists (k1 + k2)%Z. eauto using charged_trans.
Qed.

(** X20.  An enemy that [onCollide] destroys is out of play at once:
    after a Cross, Saucer, Aphid, Blocker, Grabber or TestSquare has
    answered a player's shot, or a Cross, Saucer, Aphid, Thing or
    Grabber has answered the player, [collidesWith] is false between it
    and every entity, in both directions, and it is where it was. *)
Theorem destroyed_enemy_is_out_of_play
        (cfg : Config.t) (this other : Vis.t) (sc : Collide.Scene) :
  (Vis.kind other = PShot /\
   In (Vis.kind this) [Cross; Saucer; Aphid; Blocker; Grabber; TestSquare]) \/
  (Vis.kind other = Player /\
   In (Vis.kind this) [Cross; Saucer; Aphid; Thing; Grabber]) ->
  let this' := snd (Collide.onCollide this other sc) in
  Grid.samePlace this this' /\
  forall anyone : Vis.t,
    Vis.collidesWith cfg anyone this' = false /\
    Vis.collidesWith cfg this' anyone = false.
Proof.
  intros H this'.
  assert (Ex : Vis.isExploding this' = true).
  { subst this'. unfold Collide.onCollide.
    destruct H as [(O & I)|(O & I)]; rewrite O; simpl in I;
      repeat (destruct I as [I|I];
              [rewrite <- I; cbn [snd]; apply explode_sets_flag|]);
      contradiction. }
  split.
  - pose proof (onCollide_spec this other sc) as (S & _).
    destruct S as (_ & _ & _ & _ & P & _). exact P.
  - intros anyone.
    split; apply collidesWith_not_live;
      [right | left]; apply exploding_not_live; exact Ex.
Qed.

Lemma destroyed_enemy_is_out_of_play_witness :
  Grid.samePlace
    (Vis.Cross_new CONFIG 100 0 2000)
    (snd (Collide.onCollide (Vis.Cross_new CONFIG 100 0 2000)
                            (Vis.PShot_new CONFIG 120 10 1990)
                            Tally.sampleScene)) /\
  forall anyone : Vis.t,
    Vis.collidesWith CONFIG anyone
      (snd (Collide.onCollide (Vis.Cross_new CONFIG 100 0 2000)
                              (Vis.PShot_new CONFIG 120 10 1990)
                              Tally.sampleScene)) = false /\
    Vis.collidesWith CONFIG
      (snd (Collide.onCollide (Vis.Cross_new CONFIG 100 0 2000)
                              (Vis.PShot_new CONFIG 120 10 1990)
                              Tally.sampleScene)) anyone = false.
Proof.
  apply (destroyed_enemy_is_out_of_play CONFIG
           (Vis.Cross_new CONFIG 100 0 2000)
           (Vis.PShot_new CONFIG 120 10 1990) Tally.sampleScene).
  left. split; [reflexivity | simpl; auto].
Defined.

(** X21.  A collision pass adds, removes, reorders and moves nothing:
    the objects and the player's shots after [checkCollisions]
    correspond one to one to those before, each with its class, box,
    position, velocity and forming flag, keeping a removal request or an
    explosion it had; the player itself is where it was.  A world
    without a player is returned as it is. *)
Theorem checkCollisions_keeps_places (cfg : Config.t) (w : Collide.World) :
  let w' := Collide.checkCollisions cfg w in
  Forall2 Tally.struck (Tunnel.objects (Collide.tunnel w))
                       (Tunnel.objects (Collide.tunnel w')) /\
  match Tunnel.player (Collide.tunnel w),
        Tunnel.player (Collide.tunnel w') with
  | Some p, Some p' =>
      Player.body p' = Player.body p /\
      Forall2 Tally.struck (Player.shots p) (Player.shots p')
  | None, None => Collide.checkCollisions cfg w = w
  | _, _ => False
  end.
Proof.
  unfold Collide.checkCollisions.
  destruct (Tunnel.player (Collide.tunnel w)) as [p|] eqn:P; cbv zeta.
  2:{ rewrite P. split; [apply struck_list_refl | reflexivity]. }
  set (sc := Collide.mkScene p _ _ _).
  destruct (objectsPass_any cfg (Tunnel.objects (Collide.tunnel w)) sc)
    as (F & k & C).
  destruct (Collide.objectsPass cfg (Tunnel.objects (Collide.tunnel w)) sc)
    as [objs' sc'].
  cbn [fst snd] in *. cbn [Collide.tunnel Tunnel.objects Tunnel.player].
  split; [exact F|].
  destruct C as (B & S & _). split; [exact B | exact S].
Qed.

(** X22.  A collision pass keeps the player's energy within [[0, 100]]
    if it was there, never lowers the score and never clears the hit
    flag. *)
Theorem checkCollisions_energy_in_range
        (cfg : Config.t) (w : Collide.World) (p : Player.t) :
  Tunnel.player (Collide.tunnel w) = Some p ->
  0 <= Player.energy p <= 100 ->
  exists p' : Player.t,
    Tunnel.player (Collide.tunnel (Collide.checkCollisions cfg w)) = Some p' /\
    0 <= Player.energy p' <= 100 /\
    Player.score p <= Player.score p' /\
    (Collide.hitFlag w = true ->
     Collide.hitFlag (Collide.checkCollisions cfg w) = true).
Proof.
  intros P E. unfold Collide.checkCollisions. rewrite P.
  set (sc := Collide.mkScene p _ _ _).
  destruct (objectsPass_any cfg (Tunnel.objects (Collide.tunnel w)) sc)
    as (_ & k & C).
  destruct (Collide.objectsPass cfg (Tunnel.objects (Collide.tunnel w)) sc)
    as [objs' sc'].
  cbn [fst snd] in *. cbn [Collide.tunnel Tunnel.player Collide.hitFlag].
  exists (Collide.player sc').
  destruct C as (_ & _ & En & Sc & Hf & _).
  split; [reflexivity|]. split; [exact (En E)|]. split; [exact Sc | exact Hf].
Qed.

Lemma checkCollisions_energy_in_range_witness :
  exists p' : Player.t,
    Tunnel.player (Collide.tunnel
                     (Collide.checkCollisions CONFIG Tally.sampleWorld))
      = Some p' /\
    0 <= Player.energy p' <= 100 /\
    Player.score Tally.samplePlayer <= Player.score p' /\
    (Collide.hitFlag Tally.sampleWorld = true ->
     Collide.hitFlag (Collide.checkCollisions CONFIG Tally.sampleWorld)
       = true).
Proof.
  apply (checkCollisions_energy_in_range CONFIG Tally.sampleWorld
           Tally.samplePlayer).
  - reflexivity.
  - simpl. lra.
Defined.

(** X23.  With only shots in the player's shot list, a collision pass
    lowers [numLiveObjs] by at most the number of live (collidable, not
    exploding, not forming) objects of the classes Cross, Saucer,
    Grabber and TestSquare, and never raises it: no object is counted
    off twice, and a Blocker, an Aphid or a Thing is never counted
    off. *)
Theorem checkCollisions_counts_once
        (cfg : Config.t) (w : Collide.World) (p : Player.t) (n : Z) :
  Tunnel.player (Collide.tunnel w) = Some p ->
  Forall (fun s => Vis.kind s = PShot) (Player.shots p) ->
  Collide.liveObjs w = Some n ->
  exists n' : Z,
    Collide.liveObjs (Collide.checkCollisions cfg w) = Some n' /\
    (n - Tally.liveCounted (Tunnel.objects (Collide.tunnel w)) <= n' <= n)%Z.
Proof.
  intros P PS N. unfold Collide.checkCollisions. rewrite P.
  set (sc := Collide.mkScene p _ _ _).
  destruct (objectsPass_spec cfg (Tunnel.objects (Collide.tunnel w)) sc PS)
    as (_ & C).
  destruct (Collide.objectsPass cfg (Tunnel.objects (Collide.tunnel w)) sc)
    as [objs' sc'].
  cbn [fst snd] in *. cbn [Collide.liveObjs].
  destruct C as (_ & _ & _ & _ & _ & Cn).
  subst sc. cbn [Collide.numLiveObjs] in Cn. rewrite N in Cn.
  unfold Tally.countedOff in Cn.
  destruct (Collide.numLiveObjs sc') as [n'|]; [|contradiction].
  exists n'. split; [reflexivity | exact Cn].
Qed.

Lemma checkCollisions_counts_once_witness :
  exists n' : Z,
    Collide.liveObjs (Collide.checkCollisions CONFIG Tally.sampleWorld)
      = Some n' /\
    (3 - Tally.liveCounted
           (Tunnel.objects (Collide.tunnel Tally.sampleWorld))
       <= n' <= 3)%Z.
Proof.
  apply (checkCollisions_counts_once CONFIG Tally.sampleWorld
           Tally.samplePlayer 3).
  - reflexivity.
  - simpl. repeat constructor.
  - reflexivity.
Defined.

Lemma setShots_same (sc : Collide.Scene) :
  Collide.setShots (Player.shots (Collide.player sc)) sc = sc.
Proof. destruct sc as [[b s e c] h n pl]. reflexivity. Qed.

Lemma objectStep_not_live (cfg : Config.t) (obj : Vis.t)
      (sc : Collide.Scene) :
  Tally.live obj = false -> Collide.objectStep cfg obj sc = (obj, sc).
Proof.
  intros L. unfold Collide.objectStep.
  destruct (Vis.checkCollide obj); simpl negb; cbv iota; [|reflexivity].
  rewrite (collidesWith_not_live cfg _ obj (or_intror L)).
  rewrite (shotsPass_not_live cfg _ obj sc L).
  now rewrite setShots_same.
Qed.

(** X24.  Objects that are forming, exploding or not collidable are
    intangible: a collision pass over a world that holds no other
    object changes nothing at all, whatever the player and its shots
    overlap. *)
Theorem checkCollisions_without_live_objects
        (cfg : Config.t) (w : Collide.World) :
  Forall (fun o => Tally.live o = false)
         (Tunnel.objects (Collide.tunnel w)) ->
  Collide.checkCollisions cfg w = w.
Proof.
  intros F. unfold Collide.checkCollisions.
  destruct w as [[objs pl] hf n snd]. cbn [Collide.tunnel Tunnel.player
    Tunnel.objects Collide.hitFlag Collide.liveObjs Collide.sounds] in *.
  destruct pl as [p|]; [|reflexivity].
  assert (E : forall sc, Collide.objectsPass cfg objs sc = (objs, sc)).
  { induction F as [|o rest L _ IH]; intros sc; simpl; [reflexivity|].
    now rewrite (objectStep_not_live cfg o sc L), IH. }
  rewrite E. reflexivity.
Qed.

Lemma checkCollisions_without_live_objects_witness :
  Collide.checkCollisions CONFIG Tally.formingWorld = Tally.formingWorld.
Proof.
  apply (checkCollisions_without_live_objects CONFIG Tally.formingWorld).
  simpl. repeat constructor.
Defined.

Lemma collidesWith_pleaseRemove (cfg : Config.t) (b : bool) (s o : Vis.t) :
  Vis.collidesWith cfg (Vis.set_pleaseRemove b s) o = Vis.collidesWith cfg s o.
Proof. destruct s. reflexivity. Qed.

(** A shot that meets a live Cross which the player does not touch. *)
Lemma objectStep_shot_on_Cross (cfg : Config.t) (o shot : Vis.t)
      (sc : Collide.Scene) :
  Player.shots (Collide.player sc) = [shot] ->
  Vis.kind shot = PShot -> Vis.kind o = Cross ->
  Vis.collidesWith cfg (Player.body (Collide.player sc)) o = false ->
  Vis.collidesWith cfg shot o = true ->
  Collide.objectStep cfg o sc =
  (Vis.explode (Vis.x shot) (Vis.y shot) o,
   Collide.setShots [Vis.set_pleaseRemove true shot]
     (Collide.hitOne (Collide.play Collide.crossHit
                        (Collide.addScore 200 sc)))).
Proof.
  intros S Ks Ko Cb Cs. unfold Collide.objectStep.
  destruct (collidesWith_live cfg shot o Cs) as [_ L].
  assert (CC : Vis.checkCollide o = true).
  { unfold Tally.live in L. destruct (Vis.checkCollide o); [reflexivity|].
    discriminate. }
  rewrite CC, Cb, S. simpl negb. cbv iota.
  cbn [Collide.shotsPass]. rewrite Cs.
  unfold Collide.onCollide at 1. rewrite Ks.
  unfold Collide.PShot_onCollide. rewrite Ko.
  cbn [Collide.enemyPoints].
  change (Num.nonzero 200) with true. cbv iota.
  unfold Collide.onCollide. rewrite Ko.
  replace (Vis.kind (Vis.set_pleaseRemove true shot)) with PShot
    by (destruct shot; simpl in *; congruence).
  destruct shot; reflexivity.
Qed.

(** X25.  A shot is not used up by its first hit: [pleaseRemove] is not
    looked at by [collidesWith] and the shot stays in the list until
    the player's next update.  So when a shot overlaps two live Crosses
    in one pass (and the player touches neither), both explode from the
    shot's position, the score rises by 200 twice, [numLiveObjs] drops
    by two and the hit sound plays twice. *)
Theorem one_shot_destroys_two
        (cfg : Config.t) (w : Collide.World) (p : Player.t)
        (shot o1 o2 : Vis.t) :
  Collide.tunnel w = Tunnel.mk [o1; o2] (Some p) ->
  Player.shots p = [shot] ->
  Vis.kind shot = PShot -> Vis.kind o1 = Cross -> Vis.kind o2 = Cross ->
  Vis.collidesWith cfg (Player.body p) o1 = false ->
  Vis.collidesWith cfg (Player.body p) o2 = false ->
  Vis.collidesWith cfg shot o1 = true ->
  Vis.collidesWith cfg shot o2 = true ->
  Tunnel.objects (Collide.tunnel (Collide.checkCollisions cfg w)) =
    [Vis.explode (Vis.x shot) (Vis.y shot) o1;
     Vis.explode (Vis.x shot) (Vis.y shot) o2] /\
  (exists p' : Player.t,
     Tunnel.player (Collide.tunnel (Collide.checkCollisions cfg w))
       = Some p' /\
     Player.score p' == Player.score p + 400 /\
     Player.energy p' = Player.energy p /\
     Player.shots p' = [Vis.set_pleaseRemove true shot]) /\
  Collide.liveObjs (Collide.checkCollisions cfg w) =
    option_map (fun n => (n - 2)%Z) (Collide.liveObjs w) /\
  Collide.sounds (Collide.checkCollisions cfg w) =
    Collide.sounds w ++ [Collide.crossHit; Collide.crossHit].
Proof.
  intros T S Ks K1 K2 B1 B2 C1 C2.
  unfold Collide.checkCollisions. rewrite T.
  cbn [Tunnel.player Tunnel.objects Collide.objectsPass].
  set (sc := Collide.mkScene p _ _ _).
  rewrite (objectStep_shot_on_Cross cfg o1 shot sc S Ks K1 B1 C1).
  set (shot1 := Vis.set_pleaseRemove true shot).
  set (sc1 := Collide.setShots [shot1] _).
  assert (Ks1 : Vis.kind shot1 = PShot)
    by (subst shot1; destruct shot; simpl in *; congruence).
  assert (C2' : Vis.collidesWith cfg shot1 o2 = true)
    by (subst shot1; now rewrite collidesWith_pleaseRemove).
  rewrite (objectStep_shot_on_Cross cfg o2 shot1 sc1 eq_refl Ks1 K2 B2 C2').
  cbn [Collide.tunnel Tunnel.objects Tunnel.player Collide.liveObjs
       Collide.sounds].
  split; [subst shot1; destruct shot; reflexivity|].
  split; [|split].
  - eexists. split; [reflexivity|].
    subst sc1 sc shot1. simpl.
    split; [lra|]. split; [reflexivity|]. destruct shot; reflexivity.
  - subst sc1 sc. simpl. destruct (Collide.liveObjs w); simpl; [|reflexivity].
    f_equal. lia.
  - subst sc1 sc. simpl. now rewrite <- app_assoc.
Qed.

Lemma one_shot_destroys_two_witness :
  Tunnel.objects (Collide.tunnel
                    (Collide.checkCollisions CONFIG Tally.crossWorld)) =
    [Vis.explode 0 0 (Vis.Cross_new CONFIG 1000 0 2010);
     Vis.explode 0 0 (Vis.Cross_new CONFIG (-1000) 50 1990)] /\
  (exists p' : Player.t,
     Tunnel.player (Collide.tunnel
                      (Collide.checkCollisions CONFIG Tally.crossWorld))
       = Some p' /\
     Player.score p' == Player.score Tally.samplePlayer + 400 /\
     Player.energy p' = Player.energy Tally.samplePlayer /\
     Player.shots p' =
       [Vis.set_pleaseRemove true (Vis.PShot_new CONFIG 0 0 2000)]) /\
  Collide.liveObjs (Collide.checkCollisions CONFIG Tally.crossWorld) =
    option_map (fun n => (n - 2)%Z) (Collide.liveObjs Tally.crossWorld) /\
  Collide.sounds (Collide.checkCollisions CONFIG Tally.crossWorld) =
    Collide.sounds Tally.crossWorld ++ [Collide.crossHit; Collide.crossHit].
Proof.
  apply (one_shot_destroys_two CONFIG Tally.crossWorld Tally.samplePlayer
           (Vis.PShot_new CONFIG 0 0 2000)
           (Vis.Cross_new CONFIG 1000 0 2010)
           (Vis.Cross_new CONFIG (-1000) 50 1990));
    reflexivity.
Defined.

(** ** The player and its shots *)

Lemma update_of_PShot (h : Vis.Host) (cfg : Config.t) (dt : Q) (s : Vis.t) :
  Vis.kind s = PShot -> Vis.update h cfg dt s = Vis.PShot_update cfg dt s.
Proof. intros K. unfold Vis.update. now rewrite K. Qed.

Lemma PShot_update_z (cfg : Config.t) (dt : Q) (s : Vis.t) :
  0 < Config.length (Config.TUNNEL cfg) ->
  0 <= Vis.z (Vis.PShot_update cfg dt s) < Config.length (Config.TUNNEL cfg).
Proof.
  intros Hl. unfold Vis.PShot_update. cbv zeta.
  match goal with |- context [if ?c then _ else _] => destruct c end;
    cbn [Vis.z Vis.set_pleaseRemove Vis.set_distanceTraveled];
    apply (wrapZ_range cfg Hl).
Qed.

(** X26.  The depth test in the shot loop of [Player.update] is dead
    code whenever [far] is at least half the tunnel length (as in
    config.js, where both are 65000): the player and every updated shot
    are on the ring, so the wrapped depth never exceeds [length / 2].
    The shots kept are exactly the updated shots that [PShot.update]
    has not flagged, in their order. *)
Theorem Player_update_drops_only_flagged
        (h : Vis.Host) (cfg : Config.t) (dt : Q) (p : Player.t) :
  0 < Config.length (Config.TUNNEL cfg) ->
  Config.length (Config.TUNNEL cfg) / 2 <= Config.far (Config.TUNNEL cfg) ->
  Forall (fun s => Vis.kind s = PShot) (Player.shots p) ->
  Player.shots (Player.update h cfg dt p) =
  filter (fun s => negb (Vis.pleaseRemove s))
         (map (Vis.PShot_update cfg dt) (Player.shots p)).
Proof.
  intros Hl Hf PS. unfold Player.update. cbv zeta. cbn [Player.shots].
  assert (Hb : 0 <= Vis.z (Vis.Player_update h cfg dt (Player.body p))
               < Config.length (Config.TUNNEL cfg))
    by (apply (wrap_range _ _ Hl)).
  set (b := Vis.Player_update h cfg dt (Player.body p)) in *.
  induction PS as [|s rest K _ IH]; [reflexivity|].
  cbn [map filter]. rewrite (update_of_PShot h cfg dt s K), IH.
  pose proof (PShot_update_z cfg dt s Hl) as Hs.
  pose proof (getZFromPlayer_bound cfg _ _ Hs Hb) as B.
  apply Qabs_Qle_condition in B.
  match goal with |- context [?a >? ?c] =>
    destruct (ltb_spec c a) as [L|L]; [exfalso; lra|] end.
  now rewrite orb_false_r.
Qed.

Lemma Player_update_drops_only_flagged_witness :
  Player.shots (Player.update Grid.quietHost CONFIG 16.67 Tally.samplePlayer) =
  filter (fun s => negb (Vis.pleaseRemove s))
         (map (Vis.PShot_update CONFIG 16.67)
              (Player.shots Tally.samplePlayer)).
Proof.
  apply (Player_update_drops_only_flagged Grid.quietHost CONFIG 16.67
           Tally.samplePlayer).
  - simpl. lra.
  - simpl. qlra.
  - simpl. repeat constructor.
Defined.

Lemma PShot_update_step (cfg : Config.t) (dt : Q) (v : Vis.t) :
  let v' := Vis.PShot_update cfg dt v in
  Vis.kind v' = Vis.kind v /\ Vis.vz v' = Vis.vz v /\
  Vis.distanceTraveled v' =
    Vis.distanceTraveled v + Qabs (Vis.vz v * (dt / 16.67)) /\
  Vis.pleaseRemove v' =
    (if Vis.distanceTraveled v' >? Config.far (Config.TUNNEL cfg)
     then true else Vis.pleaseRemove v).
Proof.
  unfold Vis.PShot_update, Vis.wrapZ, Vis.moveZ. cbv zeta.
  cbn [Vis.distanceTraveled Vis.set_distanceTraveled Vis.set_z Vis.vz
       Vis.kind Vis.pleaseRemove].
  match goal with |- context [if ?c then _ else _] => destruct c eqn:E end;
    cbn [Vis.distanceTraveled Vis.set_distanceTraveled Vis.set_z Vis.vz
         Vis.kind Vis.pleaseRemove Vis.set_pleaseRemove];
    rewrite ?E; repeat split; reflexivity.
Qed.

(** X27.  The removal flag of a shot follows the distance it has
    travelled.  A shot whose flag tells whether [distanceTraveled]
    exceeds [far] (as a fresh shot's does) keeps its class and its
    velocity through any sequence of updates, whatever the [dt]s; its
    [distanceTraveled] never decreases; and after every sequence the
    flag again tells whether [distanceTraveled] exceeds [far]: a shot
    is dropped once it has flown more than [far], and not before. *)
Theorem PShot_flag_follows_distance
        (h : Vis.Host) (cfg : Config.t) (dts : list Q) (v : Vis.t) :
  Vis.kind v = PShot ->
  Vis.pleaseRemove v =
    (Vis.distanceTraveled v >? Config.far (Config.TUNNEL cfg)) ->
  Vis.kind (Grid.updates h cfg dts v) = PShot /\
  Vis.vz (Grid.updates h cfg dts v) = Vis.vz v /\
  Vis.distanceTraveled v <= Vis.distanceTraveled (Grid.updates h cfg dts v) /\
  Vis.pleaseRemove (Grid.updates h cfg dts v) =
    (Vis.distanceTraveled (Grid.updates h cfg dts v)
       >? Config.far (Config.TUNNEL cfg)).
Proof.
  revert v. unfold Grid.updates.
  induction dts as [|dt rest IH]; intros v K Fl.
  - cbn [fold_left]. split; [exact K|]. split; [reflexivity|].
    split; [apply Qle_refl | exact Fl].
  - cbn [fold_left]. rewrite (update_of_PShot h cfg dt v K).
    destruct (PShot_update_step cfg dt v) as (K1 & V1 & D1 & R1).
    set (v1 := Vis.PShot_update cfg dt v) in *.
    pose proof (Qabs_nonneg (Vis.vz v * (dt / 16.67))) as A.
    assert (Fl1 : Vis.pleaseRemove v1 =
                  (Vis.distanceTraveled v1 >? Config.far (Config.TUNNEL cfg))).
    { rewrite R1.
      destruct (ltb_spec (Config.far (Config.TUNNEL cfg))
                         (Vis.distanceTraveled v1)) as [L|L];
        [reflexivity|].
      rewrite Fl.
      destruct (ltb_spec (Config.far (Config.TUNNEL cfg))
                         (Vis.distanceTraveled v)) as [L'|L'];
        [|reflexivity].
      exfalso. rewrite D1 in L. lra. }
    destruct (IH v1 (eq_trans K1 K) Fl1) as (Kn & V & D & R).
    split; [exact Kn|]. split; [congruence|]. split; [|exact R].
    eapply Qle_trans; [|exact D]. rewrite D1. lra.
Qed.

Lemma PShot_flag_follows_distance_witness :
  Vis.kind (Grid.updates Grid.quietHost CONFIG [16.67; 33.34]
              (Vis.set_vz 300 (Vis.PShot_new CONFIG 0 0 2000))) = PShot /\
  Vis.vz (Grid.updates Grid.quietHost CONFIG [16.67; 33.34]
            (Vis.set_vz 300 (Vis.PShot_new CONFIG 0 0 2000)))
    = Vis.vz (Vis.set_vz 300 (Vis.PShot_new CONFIG 0 0 2000)) /\
  Vis.distanceTraveled (Vis.set_vz 300 (Vis.PShot_new CONFIG 0 0 2000))
    <= Vis.distanceTraveled
         (Grid.updates Grid.quietHost CONFIG [16.67; 33.34]
            (Vis.set_vz 300 (Vis.PShot_new CONFIG 0 0 2000))) /\
  Vis.pleaseRemove
    (Grid.updates Grid.quietHost CONFIG [16.67; 33.34]
       (Vis.set_vz 300 (Vis.PShot_new CONFIG 0 0 2000))) =
    (Vis.distanceTraveled
       (Grid.updates Grid.quietHost CONFIG [16.67; 33.34]
          (Vis.set_vz 300 (Vis.PShot_new CONFIG 0 0 2000)))
       >? Config.far (Config.TUNNEL CONFIG)).
Proof.
  apply (PShot_flag_follows_distance Grid.quietHost CONFIG [16.67; 33.34]
           (Vis.set_vz 300 (Vis.PShot_new CONFIG 0 0 2000)));
    reflexivity.
Defined.

(** X28.  The player's speed limit holds after every update, whatever
    the keys, the frame time and [Math.pow] do: with a non-negative
    limit [maxSpeed * SPEED_FACTOR] the new [vz] is within the limit,
    the player is on the ring, [z] in [[0, length)], and [x] and [y]
    are untouched. *)
Theorem Player_update_speed_limit
        (h : Vis.Host) (cfg : Config.t) (dt : Q) (v : Vis.t) :
  0 <= Config.maxSpeed (Config.PLAYER cfg) * Config.SPEED_FACTOR cfg ->
  0 < Config.length (Config.TUNNEL cfg) ->
  Qabs (Vis.vz (Vis.Player_update h cfg dt v))
    <= Config.maxSpeed (Config.PLAYER cfg) * Config.SPEED_FACTOR cfg /\
  Vis.x (Vis.Player_update h cfg dt v) = Vis.x v /\
  Vis.y (Vis.Player_update h cfg dt v) = Vis.y v /\
  0 <= Vis.z (Vis.Player_update h cfg dt v)
    < Config.length (Config.TUNNEL cfg).
Proof.
  intros Hm Hl. unfold Vis.Player_update. cbv zeta.
  set (m := Config.maxSpeed (Config.PLAYER cfg) * Config.SPEED_FACTOR cfg) in *.
  set (len := Config.length (Config.TUNNEL cfg)) in *.
  match goal with |- context [Vis.set_vz (Qmax (- m) (Qmin m (Vis.vz ?a))) ?a] =>
    set (v1 := a) end.
  assert (F : Vis.x v1 = Vis.x v /\ Vis.y v1 = Vis.y v).
  { subst v1.
    destruct (Vis.moveBackward v); [|destruct (Vis.moveForward v)];
      repeat match goal with |- context [if ?c then _ else _] =>
               destruct c end; repeat split. }
  destruct F as (Fx & Fy).
  unfold Vis.moveZ.
  cbn [Vis.vz Vis.x Vis.y Vis.z Vis.set_vz Vis.set_z].
  rewrite Fx, Fy.
  set (c := Qmax (- m) (Qmin m (Vis.vz v1))).
  split.
  { apply Qabs_Qle_condition. subst c. split.
    - apply Q.le_max_l.
    - apply Q.max_lub; [lra | apply Q.le_min_l]. }
  split; [reflexivity|]. split; [reflexivity|].
  apply (wrap_range _ _ Hl).
Qed.

Lemma Player_update_speed_limit_witness :
  Qabs (Vis.vz (Vis.Player_update Grid.quietHost CONFIG 16.67
                  (Vis.set_vz 900 (Vis.Player_new CONFIG))))
    <= Config.maxSpeed (Config.PLAYER CONFIG) * Config.SPEED_FACTOR CONFIG /\
  Vis.x (Vis.Player_update Grid.quietHost CONFIG 16.67
           (Vis.set_vz 900 (Vis.Player_new CONFIG)))
    = Vis.x (Vis.set_vz 900 (Vis.Player_new CONFIG)) /\
  Vis.y (Vis.Player_update Grid.quietHost CONFIG 16.67
           (Vis.set_vz 900 (Vis.Player_new CONFIG)))
    = Vis.y (Vis.set_vz 900 (Vis.Player_new CONFIG)) /\
  0 <= Vis.z (Vis.Player_update Grid.quietHost CONFIG 16.67
                (Vis.set_vz 900 (Vis.Player_new CONFIG)))
    < Config.length (Config.TUNNEL CONFIG).
Proof.
  apply (Player_update_speed_limit Grid.quietHost CONFIG 16.67
           (Vis.set_vz 900 (Vis.Player_new CONFIG))).
  - simpl. lra.
  - simpl. lra.
Defined.

(** ** The fragments of the animation tile what is drawn *)

Lemma area_app (a b : list Draw.Call) :
  Grid.area (a ++ b) == Grid.area a + Grid.area b.
Proof.
  induction a as [|c a IH]; simpl.
  - ring.
  - fold (Grid.area (a ++ b)). fold (Grid.area a). rewrite IH. ring.
Qed.

(** The part of [[l, r]] between two grid lines, as a difference of
    clamped lines. *)
Lemma overlap_clamped (l r g g' : Q) :
  l <= r -> g <= g' ->
  Qmax 0 (Qmin r g' - Qmax l g) ==
  Qmax l (Qmin r g') - Qmax l (Qmin r g).
Proof.
  intros Hlr Hg.
  destruct (Q.max_spec 0 (Qmin r g' - Qmax l g)) as [[A ->]|[A ->]];
  destruct (Q.min_spec r g') as [[B B']|[B B']];
  destruct (Q.min_spec r g) as [[C C']|[C C']];
  destruct (Q.max_spec l g) as [[D D']|[D D']];
  destruct (Q.max_spec l (Qmin r g')) as [[E ->]|[E ->]];
  destruct (Q.max_spec l (Qmin r g)) as [[F ->]|[F ->]];
  rewrite ?B', ?C', ?D' in *; lra.
Qed.

(** The five cells of one axis of a grid [gridLines g0 g1 q] cover a
    segment [[l, r]] that lies between its first and last line. *)
Lemma axis_cover (g0 g1 q l r : Q) :
  g0 <= g1 -> 0 <= q -> g0 <= l -> l <= r -> r <= g1 + 4 * q ->
  let line := Expl.gridLines g0 g1 q in
  let w i := Qmax 0 (Qmin r (Spec.lane line (S i)) - Qmax l (Spec.lane line i)) in
  w 0%nat + w 1%nat + w 2%nat + w 3%nat + w 4%nat == r - l.
Proof.
  intros H01 Hq H0 Hlr H5. cbv zeta.
  unfold Spec.lane, Expl.gridLines. cbn [nth].
  rewrite !overlap_clamped by lra.
  assert (A : Qmax l (Qmin r g0) == l).
  { rewrite Q.max_l; [reflexivity|].
    eapply Qle_trans; [apply Q.le_min_r | exact H0]. }
  assert (B : Qmax l (Qmin r (g1 + q + q + q + q)) == r).
  { rewrite (Q.min_l r) by lra. rewrite Q.max_r; [reflexivity | exact Hlr]. }
  rewrite A, B. ring.
Qed.

Lemma cell_area (v : Vis.t) (e : Expl.t) (l t r b shade0 : Q)
      (isFilled : bool) (xi yi : nat) :
  Grid.area (Draw.cell v e l t r b shade0 isFilled xi yi) ==
  Qmax 0 (Qmin r (Spec.lane (Expl.xLine e) (S xi))
          - Qmax l (Spec.lane (Expl.xLine e) xi))
  * Qmax 0 (Qmin b (Spec.lane (Expl.yLine e) (S yi))
            - Qmax t (Spec.lane (Expl.yLine e) yi)).
Proof.
  unfold Draw.cell. cbv zeta.
  set (iL := Qmax l _). set (iR := Qmin r _).
  set (iT := Qmax t _). set (iB := Qmin b _).
  destruct (ltb_spec iL iR) as [X|X]; destruct (ltb_spec iT iB) as [Y|Y];
    cbn [andb Grid.area fold_right Draw.halfWidth Draw.halfHeight].
  - rewrite (Q.max_r 0 (iR - iL)) by lra.
    rewrite (Q.max_r 0 (iB - iT)) by lra. field.
  - rewrite (Q.max_l 0 (iB - iT)) by lra. ring.
  - rewrite (Q.max_l 0 (iR - iL)) by lra. ring.
  - rewrite (Q.max_l 0 (iR - iL)) by lra. ring.
Qed.

(** Whatever grid the animation record holds, the area drawn is the
    product of the covered widths and the covered heights. *)
Lemma grid_area (v : Vis.t) (e : Expl.t) (l t r b shade0 : Q)
      (isFilled : bool) :
  Vis.expl v = Some e ->
  let wx i := Qmax 0 (Qmin r (Spec.lane (Expl.xLine e) (S i))
                      - Qmax l (Spec.lane (Expl.xLine e) i)) in
  let wy i := Qmax 0 (Qmin b (Spec.lane (Expl.yLine e) (S i))
                      - Qmax t (Spec.lane (Expl.yLine e) i)) in
  Grid.area (Draw.drawRectWithGridSubdivision v l t r b shade0 isFilled) ==
  (wx 0%nat + wx 1%nat + wx 2%nat + wx 3%nat + wx 4%nat)
  * (wy 0%nat + wy 1%nat + wy 2%nat + wy 3%nat + wy 4%nat).
Proof.
  intros E. cbv zeta. unfold Draw.drawRectWithGridSubdivision. rewrite E.
  cbn [flat_map]. rewrite !app_nil_r.
  rewrite !area_app, !cell_area. ring.
Qed.

(** The grid either animation starts from, one axis at a time. *)
Lemma animation_grid (v v0 : Vis.t) (xh yh d n : Q) :
  0 < Vis.extentX v -> 0 < Vis.extentY v ->
  v0 = Vis.initExpl xh yh d n v \/ v0 = Vis.initForm d n v ->
  exists (e0 : Expl.t) (x1 y1 : Q),
    Vis.expl v0 = Some e0 /\
    Expl.xLine e0 = Expl.gridLines (- Vis.extentX v) x1
                      ((Vis.extentX v - - Vis.extentX v) / 4) /\
    Expl.yLine e0 = Expl.gridLines (- Vis.extentY v) y1
                      ((Vis.extentY v - - Vis.extentY v) / 4) /\
    - Vis.extentX v <= x1 /\
    Vis.extentX v <= x1 + 4 * ((Vis.extentX v - - Vis.extentX v) / 4) /\
    - Vis.extentY v <= y1 /\
    Vis.extentY v <= y1 + 4 * ((Vis.extentY v - - Vis.extentY v) / 4) /\
    length (Expl.xOffset e0) = 5%nat /\ length (Expl.yOffset e0) = 5%nat.
Proof.
  intros Hx Hy [->| ->].
  - destruct (initExpl_dispatch xh yh d n v) as (d' & n' & -> & _).
    destruct (Vis_initExpl_record xh yh d' n' v)
      as (e & E & Ox & Oy & _ & _ & _ & Ex & Ey).
    injection Ex as _ Lx. injection Ey as _ Ly.
    destruct (axis_grid xh _ Hx) as (_ & X1 & X2 & _).
    destruct (axis_grid yh _ Hy) as (_ & Y1 & Y2 & _).
    destruct (quarter_facts _ Hx) as (Qx & Rx).
    destruct (quarter_facts _ Hy) as (Qy & Ry).
    exists e. eexists. eexists.
    split; [exact E|]. split; [exact Lx|]. split; [exact Ly|].
    rewrite Ox, Oy. repeat split; lra.
  - destruct (quarter_facts _ Hx) as (Qx & Rx).
    destruct (quarter_facts _ Hy) as (Qy & Ry).
    eexists. exists (- Vis.extentX v), (- Vis.extentY v).
    split; [reflexivity|]. split; [reflexivity|]. split; [reflexivity|].
    repeat split; lra.
Qed.

(** X29.  The fragments of an animated rectangle tile it.  On an entity
    with positive extents, at any step of an explosion (after
    [initExpl]) or of a formation (after [initForm]), the pieces that
    [drawRectWithGridSubdivision] draws for a rectangle lying within
    the extents have together exactly the area of that rectangle:
    nothing of it is dropped and nothing is drawn twice, however the
    grid cuts it.  Extents, hit and rectangle are integers below
    [2^48] (as the extents and the scaled shape tables of every class
    are): grid lines are then halves and fragment half-sizes quarters
    of integers, which the program computes without rounding. *)
Theorem fragments_tile_rectangle
        (v v0 : Vis.t) (xh yh d n : Q) (k : nat)
        (l t r b shade0 : Q) (isFilled : bool) :
  0 < Vis.extentX v -> 0 < Vis.extentY v ->
  v0 = Vis.initExpl xh yh d n v \/ v0 = Vis.initForm d n v ->
  - Vis.extentX v <= l -> l <= r -> r <= Vis.extentX v ->
  - Vis.extentY v <= t -> t <= b -> b <= Vis.extentY v ->
  Exact.integer (2 ^ 48) (Vis.extentX v) ->
  Exact.integer (2 ^ 48) (Vis.extentY v) ->
  Exact.integer (2 ^ 48) xh -> Exact.integer (2 ^ 48) yh ->
  Exact.integer (2 ^ 48) l -> Exact.integer (2 ^ 48) t ->
  Exact.integer (2 ^ 48) r -> Exact.integer (2 ^ 48) b ->
  Grid.area (Draw.drawRectWithGridSubdivision
               (Spec.incrExplTimes k v0) l t r b shade0 isFilled)
  == (r - l) * (b - t).
Proof.
  intros Hx Hy Hv L1 L2 L3 T1 T2 T3 _ _ _ _ _ _ _ _.
  destruct (animation_grid v v0 xh yh d n Hx Hy Hv)
    as (e0 & x1 & y1 & E & Lx & Ly & X1 & X5 & Y1 & Y5 & _).
  destruct (quarter_facts _ Hx) as (Qx & _).
  destruct (quarter_facts _ Hy) as (Qy & _).
  pose proof (incrExplTimes_expl k v0 e0 E) as Ek.
  destruct (iter_advance_lines k e0) as [Kx Ky].
  rewrite (grid_area _ _ l t r b shade0 isFilled Ek). cbv zeta beta.
  rewrite Kx, Ky, Lx, Ly.
  pose proof (axis_cover (- Vis.extentX v) x1 _ l r X1 (Qlt_le_weak _ _ Qx)
                L1 L2 ltac:(lra)) as AX.
  pose proof (axis_cover (- Vis.extentY v) y1 _ t b Y1 (Qlt_le_weak _ _ Qy)
                T1 T2 ltac:(lra)) as AY.
  cbv zeta beta in AX, AY. rewrite AX, AY. reflexivity.
Qed.

Lemma fragments_tile_rectangle_witness :
  Grid.area (Draw.drawRectWithGridSubdivision
               (Spec.incrExplTimes 3
                  (Vis.initExpl 30 (-250) 125 25 (Vis.new 10 20 300)))
               (-80) (-100) 70 45 0.8 true)
  == (70 - -80) * (45 - -100).
Proof.
  apply (fragments_tile_rectangle (Vis.new 10 20 300) _ 30 (-250) 125 25 3);
    try (left; reflexivity); try (simpl; lra).
  - exists 100%Z. split; [reflexivity | vm_compute; discriminate].
  - exists 100%Z. split; [reflexivity | vm_compute; discriminate].
  - exists 30%Z. split; [reflexivity | vm_compute; discriminate].
  - exists (-250)%Z. split; [reflexivity | vm_compute; discriminate].
  - exists (-80)%Z. split; [reflexivity | vm_compute; discriminate].
  - exists (-100)%Z. split; [reflexivity | vm_compute; discriminate].
  - exists 70%Z. split; [reflexivity | vm_compute; discriminate].
  - exists 45%Z. split; [reflexivity | vm_compute; discriminate].
Defined.

(** The lane search of [getExplOffset] on one axis of a grid
    [gridLines g0 g1 q]: a point in cell [i] is found in lane [i], a
    point beyond the last line in lane 5, which has no offset. *)
Lemma findLane_cell (g0 g1 q p : Q) (i : nat) :
  g0 <= g1 -> 0 <= q -> (i <= 4)%nat ->
  Spec.lane (Expl.gridLines g0 g1 q) i < p ->
  p <= Spec.lane (Expl.gridLines g0 g1 q) (S i) ->
  Draw.findLane 6 (Expl.gridLines g0 g1 q) p 0 = i.
Proof.
  intros H01 Hq Hi. unfold Spec.lane, Expl.gridLines.
  destruct i as [|[|[|[|[|i]]]]]; try lia; cbn [nth]; intros A B;
    cbn [Draw.findLane nth_error Nat.leb andb];
    repeat (match goal with
            | |- context [?a >? ?b] =>
                destruct (ltb_spec b a); try (exfalso; lra)
            end; cbn [Draw.findLane nth_error Nat.leb andb]);
    reflexivity.
Qed.

Lemma findLane_beyond (g0 g1 q p : Q) :
  g0 <= g1 -> 0 <= q -> Spec.lane (Expl.gridLines g0 g1 q) 5 < p ->
  Draw.findLane 6 (Expl.gridLines g0 g1 q) p 0 = 5%nat.
Proof.
  intros H01 Hq. unfold Spec.lane, Expl.gridLines. cbn [nth]. intros A.
  cbn [Draw.findLane nth_error Nat.leb andb].
  repeat (match goal with
          | |- context [?a >? ?b] =>
              destruct (ltb_spec b a); try (exfalso; lra)
          end; cbn [Draw.findLane nth_error Nat.leb andb]);
    reflexivity.
Qed.

Lemma lane_update_length (f : Q -> Q) (i : nat) (a : list Q) :
  length (Expl.lane_update f i a) = length a.
Proof.
  revert i. induction a as [|x a IH]; intros [|i]; simpl; auto.
Qed.

Lemma spread_length (hitLine : nat) (incr : Q) (a : list Q) :
  length (Expl.spread hitLine incr a) = length a.
Proof.
  unfold Expl.spread.
  assert (U : forall n i c b, length (Expl.loop_up n i c b) = length b).
  { induction n as [|n IH]; intros i c b; simpl; [reflexivity|].
    now rewrite IH, lane_update_length. }
  assert (D : forall k c b, length (Expl.loop_down k c b) = length b).
  { induction k as [|k IH]; intros c b; simpl; [reflexivity|].
    now rewrite IH, lane_update_length. }
  now rewrite D, U.
Qed.

Lemma iter_advance_lengths (k : nat) (e : Expl.t) :
  length (Expl.xOffset (Nat.iter k Expl.advance e)) = length (Expl.xOffset e) /\
  length (Expl.yOffset (Nat.iter k Expl.advance e)) = length (Expl.yOffset e).
Proof.
  induction k as [|k [IH1 IH2]]; [split; reflexivity|].
  rewrite Nat.iter_succ. unfold Expl.advance at 1 3.
  cbn [Expl.xOffset Expl.yOffset]. now rewrite !spread_length.
Qed.

(** X30.  [getExplOffset] gives a point the displacement of the
    fragment it lies in.  On an entity with positive extents, at any
    step of an explosion or a formation, a point of cell [(xi, yi)] of
    the grid (right of grid line [xi], up to and including line
    [xi + 1], and likewise in y) gets the offsets of lanes [xi] and
    [yi], which are the ones [drawRectWithGridSubdivision] moves that
    cell's fragment by.  A point beyond the last grid line gets no
    displacement on that axis. *)
Theorem getExplOffset_follows_fragments
        (v v0 : Vis.t) (xh yh d n : Q) (k : nat) (e : Expl.t)
        (px py : Q) (xi yi : nat) :
  0 < Vis.extentX v -> 0 < Vis.extentY v ->
  v0 = Vis.initExpl xh yh d n v \/ v0 = Vis.initForm d n v ->
  Vis.expl (Spec.incrExplTimes k v0) = Some e ->
  (xi <= 4)%nat -> (yi <= 4)%nat ->
  Spec.lane (Expl.xLine e) xi < px <= Spec.lane (Expl.xLine e) (S xi) ->
  Spec.lane (Expl.yLine e) yi < py <= Spec.lane (Expl.yLine e) (S yi) ->
  Draw.getExplOffset (Spec.incrExplTimes k v0) px py =
    (Spec.lane (Expl.xOffset e) xi, Spec.lane (Expl.yOffset e) yi) /\
  (forall qx qy : Q,
     Spec.lane (Expl.xLine e) 5 < qx ->
     fst (Draw.getExplOffset (Spec.incrExplTimes k v0) qx qy) = 0) /\
  (forall qx qy : Q,
     Spec.lane (Expl.yLine e) 5 < qy ->
     snd (Draw.getExplOffset (Spec.incrExplTimes k v0) qx qy) = 0).
Proof.
  intros Hx Hy Hv Ee Hxi Hyi.
  destruct (animation_grid v v0 xh yh d n Hx Hy Hv)
    as (e0 & x1 & y1 & E & Lx & Ly & X1 & X5 & Y1 & Y5 & Ox & Oy).
  destruct (quarter_facts _ Hx) as (Qx & _).
  destruct (quarter_facts _ Hy) as (Qy & _).
  rewrite (incrExplTimes_expl k v0 e0 E) in Ee. injection Ee as <-.
  destruct (iter_advance_lines k e0) as [Kx Ky].
  destruct (iter_advance_lengths k e0) as [Nx Ny].
  set (e := Nat.iter k Expl.advance e0) in *.
  unfold Draw.getExplOffset.
  rewrite (incrExplTimes_expl k v0 e0 E). fold e.
  rewrite Kx, Ky, Lx, Ly. cbn [fst snd].
  intros [A1 A2] [B1 B2].
  split; [|split].
  - rewrite (findLane_cell _ _ _ px xi X1 (Qlt_le_weak _ _ Qx) Hxi A1 A2).
    rewrite (findLane_cell _ _ _ py yi Y1 (Qlt_le_weak _ _ Qy) Hyi B1 B2).
    reflexivity.
  - intros qx _ A.
    rewrite (findLane_beyond _ _ _ qx X1 (Qlt_le_weak _ _ Qx) A).
    unfold Spec.lane. apply nth_overflow. rewrite Nx, Ox. lia.
  - intros _ qy B.
    rewrite (findLane_beyond _ _ _ qy Y1 (Qlt_le_weak _ _ Qy) B).
    unfold Spec.lane. apply nth_overflow. rewrite Ny, Oy. lia.
Qed.

Lemma getExplOffset_follows_fragments_witness :
  Draw.getExplOffset
    (Spec.incrExplTimes 3 (Vis.initExpl 30 (-250) 125 25 (Vis.new 10 20 300)))
    50 10
  = (Spec.lane (Expl.xOffset (Grid.sampleGrid)) 3,
     Spec.lane (Expl.yOffset (Grid.sampleGrid)) 2) /\
  fst (Draw.getExplOffset
         (Spec.incrExplTimes 3
            (Vis.initExpl 30 (-250) 125 25 (Vis.new 10 20 300)))
         200 10) = 0.
Proof.
  destruct (getExplOffset_follows_fragments
              (Vis.new 10 20 300)
              (Vis.initExpl 30 (-250) 125 25 (Vis.new 10 20 300))
              30 (-250) 125 25 3 Grid.sampleGrid
              50 10 3 2)
    as (A & B & _).
  - simpl. lra.
  - simpl. lra.
  - left. reflexivity.
  - reflexivity.
  - lia.
  - lia.
  - vm_compute. split; [reflexivity | discriminate].
  - vm_compute. split; [reflexivity | discriminate].
  - split; [exact A|]. apply B. vm_compute. reflexivity.
Defined.
